(** * file-manager: the client's tree cache, path rewriting and reconciliation,
      and the server's description store.

    The client ([public/app.js], class [FileManager]) and the server routes are
    embedded as executable Rocq functions:

    - JavaScript strings are [string]s, one [ascii] per code unit;
    - a JavaScript [Map] is an insertion-ordered association list ([JsMap]),
      a JavaScript [Set] an insertion-ordered list without duplicates;
    - the plain objects used as dictionaries ([descriptions] on both sides)
      are [gmap string string];
    - an [async] handler is a function from the state before the user action
      to the state in which the handler's own awaits have finished; what the
      network answers is read from an explicit [Env]. *)

From Stdlib Require String.
From Stdlib Require Import Ascii List Bool Arith Lia.
From stdpp Require Import base strings gmap.
Import ListNotations.

Local Open Scope stdpp_scope.

(** ** JavaScript string primitives *)

Module Js.

Definition isSlash (c : ascii) : bool := Ascii.eqb c "/"%char.

(** What is left of [s] after its prefix [p], when [s] starts with [p]
    ([s.slice(p.length)] guarded by [s.startsWith(p)]). *)
Fixpoint stripPrefix (p s : string) : option string :=
  match p with
  | EmptyString => Some s
  | String a p' =>
      match s with
      | EmptyString => None
      | String b s' => if Ascii.eqb a b then stripPrefix p' s' else None
      end
  end.

(** [s.startsWith(p)] *)
Definition startsWith (s p : string) : bool :=
  match stripPrefix p s with Some _ => true | None => false end.

(** [s.endsWith("/")] *)
Fixpoint endsWithSlash (s : string) : bool :=
  match s with
  | EmptyString => false
  | String c EmptyString => isSlash c
  | String _ r => endsWithSlash r
  end.

(** [s.includes("//")] *)
Fixpoint hasDoubleSlash (s : string) : bool :=
  match s with
  | String a (String b _ as r) => (isSlash a && isSlash b) || hasDoubleSlash r
  | _ => false
  end.

(** The string is empty or made of slashes only. *)
Fixpoint onlySlashes (s : string) : bool :=
  match s with
  | EmptyString => true
  | String c r => isSlash c && onlySlashes r
  end.

(** [s.split("/")]: never the empty array, [""] splits into [[""]]. *)
Fixpoint split (s : string) : list string :=
  match s with
  | EmptyString => [EmptyString]
  | String c r =>
      if isSlash c then EmptyString :: split r
      else match split r with
           | seg :: segs => String c seg :: segs
           | [] => [String c EmptyString]
           end
  end.

(** [parts.join("/")] *)
Fixpoint join (parts : list string) : string :=
  match parts with
  | [] => ""
  | [x] => x
  | x :: rest => x +:+ "/" +:+ join rest
  end.

(** JavaScript truthiness of a string: [Boolean(s)]. *)
Definition truthy (s : string) : bool := negb (String.eqb s "").

(** [parts.filter(Boolean)] *)
Definition filterBoolean (parts : list string) : list string :=
  List.filter truthy parts.

(** The part of [s] matched by the regular expression [^\/+]. *)
Fixpoint stripLeadingSlashes (s : string) : string :=
  match s with
  | EmptyString => EmptyString
  | String c r => if isSlash c then stripLeadingSlashes r else s
  end.

(** Removal of the match of [\/+$]: the maximal run of slashes that reaches
    the end of the string. *)
Fixpoint stripTrailingSlashes (s : string) : string :=
  match s with
  | EmptyString => EmptyString
  | String c r =>
      match stripTrailingSlashes r with
      | EmptyString => if isSlash c then EmptyString else String c EmptyString
      | r' => String c r'
      end
  end.

(** [s.replace(/^\/+|\/+$/g, "")]: with the [g] flag both alternatives are
    removed, the leading run at index 0 and the run that ends the string. *)
Definition trimSlashes (s : string) : string :=
  stripTrailingSlashes (stripLeadingSlashes s).

(** First occurrence of [pat] in [s]: the text before it and the text after
    it ([s.indexOf(pat)] and the two slices around the match). *)
Fixpoint findFirst (pat s : string) : option (string * string) :=
  match stripPrefix pat s with
  | Some after => Some (EmptyString, after)
  | None =>
      match s with
      | EmptyString => None
      | String c r =>
          match findFirst pat r with
          | Some (before, after) => Some (String c before, after)
          | None => None
          end
      end
  end.

(** [GetSubstitution] of ECMAScript for a string pattern (no captures):
    in the replacement text [$$] is a dollar sign, [$&] the matched text,
    [$`] the text before the match and [$'] the text after it; every other
    character, a lone [$] included, stands for itself. *)
Fixpoint getSubstitution (matched before after template : string) : string :=
  match template with
  | EmptyString => EmptyString
  | String "$" (String "$" rest) =>
      String "$" (getSubstitution matched before after rest)
  | String "$" (String "&" rest) =>
      matched +:+ getSubstitution matched before after rest
  | String "$" (String "`" rest) =>
      before +:+ getSubstitution matched before after rest
  | String "$" (String "'" rest) =>
      after +:+ getSubstitution matched before after rest
  | String c rest => String c (getSubstitution matched before after rest)
  end.

(** A replacement text without a dollar sign. *)
Fixpoint noDollar (template : string) : bool :=
  match template with
  | EmptyString => true
  | String c rest => negb (Ascii.eqb c "$") && noDollar rest
  end.

(** [s.replace(pat, repl)] with a string pattern: only the first occurrence
    is replaced, and [repl] goes through [getSubstitution]. *)
Definition replace (s pat repl : string) : string :=
  match findFirst pat s with
  | None => s
  | Some (before, after) =>
      before +:+ getSubstitution pat before after repl +:+ after
  end.

End Js.

(** ** Path utilities of the client *)

(** [normalizePath(p)] *)
Definition normalizePath (p : string) : string :=
  if String.eqb p "/" then p
  else if negb (Js.truthy p) then "/"
  else
    let norm := Js.trimSlashes p in
    if String.eqb norm "" then "/"
    else if Js.startsWith norm "/" then norm else "/" +:+ norm.

(** [getParentPath(path)]; [None] is JavaScript's [null]. *)
Definition getParentPath (path : string) : option string :=
  let norm := normalizePath path in
  if String.eqb norm "/" then None
  else
    let parts := removelast (Js.filterBoolean (Js.split norm)) in
    Some (match parts with
          | [] => "/"
          | _ => "/" +:+ Js.join parts
          end).

(** [getNameFromPath(path)] *)
Definition getNameFromPath (path : string) : string :=
  let norm := normalizePath path in
  let parts := Js.filterBoolean (Js.split norm) in
  List.last parts "".


(** ** JavaScript [Map] and [Set]

    Both iterate in insertion order; [set] on a key that is present keeps the
    key's position and replaces its value. *)

Definition JsMap (V : Type) : Type := list (string * V).

Module JsMap.
Section Ops.
Context {V : Type}.

Definition keys (m : JsMap V) : list string := map fst m.

Fixpoint get (m : JsMap V) (k : string) : option V :=
  match m with
  | [] => None
  | (k', v) :: rest => if String.eqb k' k then Some v else get rest k
  end.

Definition has (m : JsMap V) (k : string) : bool :=
  match get m k with Some _ => true | None => false end.

Fixpoint set (m : JsMap V) (k : string) (v : V) : JsMap V :=
  match m with
  | [] => [(k, v)]
  | (k', v') :: rest =>
      if String.eqb k' k then (k, v) :: rest else (k', v') :: set rest k v
  end.

Definition delete (m : JsMap V) (k : string) : JsMap V :=
  List.filter (fun kv => negb (String.eqb (fst kv) k)) m.
End Ops.
End JsMap.

Definition JsSet : Type := list string.

Module JsSet.
Definition has (s : JsSet) (x : string) : bool :=
  existsb (String.eqb x) s.

Definition add (s : JsSet) (x : string) : JsSet :=
  if has s x then s else s ++ [x].

(** [new Set(array)] *)
Definition ofList (l : list string) : JsSet := fold_left add l [].

Definition delete (s : JsSet) (x : string) : JsSet :=
  List.filter (fun y => negb (String.eqb y x)) s.
End JsSet.

(** ** Data model *)

(** The [type] field of a node: ["folder"], or anything else, which the
    client renders as a file. *)
Inductive ItemType : Type := File | Folder.

(** A child descriptor as [buildTree] sends it and as the cache stores it:
    [{name, path, type, hasChildren}]; [hasChildren] is [undefined] for a
    file. *)
Record Item : Type := mkItem {
  item_name : string;
  item_path : string;
  item_type : ItemType;
  item_hasChildren : option bool
}.

(** The answer of [GET /api/tree]: the requested node with one level of
    children (absent for a file). *)
Record Tree : Type := mkTree {
  tree_name : string;
  tree_path : string;
  tree_type : ItemType;
  tree_hasChildren : option bool;
  tree_children : option (list Item)
}.

(** A value of [openFiles]: [{name, content, description, path}]. *)
Record FileData : Type := mkFileData {
  fd_name : string;
  fd_content : string;
  fd_description : string;
  fd_path : string
}.

(** [selectedItem] and [renameData]: [{path, type}]. *)
Record Selection : Type := mkSelection {
  sel_path : string;
  sel_type : ItemType
}.

Definition FolderCache : Type := JsMap (list Item).
Definition OpenFiles : Type := JsMap FileData.

(** ** The page

    Of the document only what the code reads back is kept: the tree of
    [#file-tree] with the [data-*] attributes of its elements, and the tabs
    of [#file-tabs-list]. CSS classes, tooltips and the editor pane are
    written by the code and never read by the functions below. *)

(** A [.folder-header]: [data-path], [data-has-children], [data-expanded],
    [data-level]. Its [nextElementSibling] is the [.folder-children]
    container, kept next to it in [FolderEl]. *)
Record Header : Type := mkHeader {
  h_path : string;
  h_hasChildren : bool;
  h_expanded : bool;
  h_level : nat
}.

#[warnings="-register-all"]
Inductive Elem : Type :=
| FileEl (path : string)
| FolderEl (h : Header) (children : list Elem)
| Placeholder (cls : string).

(** A [.file-tab]: [data-file] and the text of its [.tab-name]. *)
Record Tab : Type := mkTab {
  tab_file : string;
  tab_name : string
}.

Module Dom.

Definition firstSome {A B : Type} (f : A -> option B) : list A -> option B :=
  fix go (l : list A) : option B :=
    match l with
    | [] => None
    | x :: rest => match f x with Some y => Some y | None => go rest end
    end.

(** Rewrites the first element on which [f] answers, leaves the others. *)
Definition updFirst {A : Type} (f : A -> option A) : list A -> option (list A) :=
  fix go (l : list A) : option (list A) :=
    match l with
    | [] => None
    | x :: rest =>
        match f x with
        | Some x' => Some (x' :: rest)
        | None => match go rest with
                  | Some rest' => Some (x :: rest')
                  | None => None
                  end
        end
    end.

(** [document.querySelector('.folder-header[data-path="p"]')] together with
    [header.nextElementSibling]: the first match in document order. The
    selector is built by pasting the path between double quotes, and the
    comparison of strings below is what it does for a path without a double
    quote, a backslash or a line break ([selectorSafe] further down); for
    another path the pasted text is a different selector or none, and
    [querySelector] finds something else or throws. *)
Fixpoint findFolderEl (p : string) (e : Elem) : option (Header * list Elem) :=
  match e with
  | FolderEl h kids =>
      if String.eqb (h_path h) p then Some (h, kids)
      else firstSome (findFolderEl p) kids
  | _ => None
  end.

Definition queryFolder (p : string) (doc : list Elem) : option (Header * list Elem) :=
  firstSome (findFolderEl p) doc.

(** [document.querySelector('[data-path="p"]')]: the answer is the
    [data-type] of the element found. As for [findFolderEl], this is the
    selector's answer for the paths of [selectorSafe]. *)
Fixpoint findDataPathEl (p : string) (e : Elem) : option ItemType :=
  match e with
  | FileEl q => if String.eqb q p then Some File else None
  | FolderEl h kids =>
      if String.eqb (h_path h) p then Some Folder
      else firstSome (findDataPathEl p) kids
  | Placeholder _ => None
  end.

Definition queryDataPath (p : string) (doc : list Elem) : option ItemType :=
  firstSome (findDataPathEl p) doc.

(** A write through a header found by [queryFolder p]: to its attributes or
    to the content of its container. *)
Fixpoint updateFolderEl (p : string) (g : Header -> list Elem -> Header * list Elem)
    (e : Elem) : option Elem :=
  match e with
  | FolderEl h kids =>
      if String.eqb (h_path h) p
      then Some (let '(h', kids') := g h kids in FolderEl h' kids')
      else match updFirst (updateFolderEl p g) kids with
           | Some kids' => Some (FolderEl h kids')
           | None => None
           end
  | _ => None
  end.

Definition updateFolder (p : string) (g : Header -> list Elem -> Header * list Elem)
    (doc : list Elem) : list Elem :=
  match updFirst (updateFolderEl p g) doc with
  | Some doc' => doc'
  | None => doc
  end.

(** [container.innerHTML = ...; children.forEach(render into container)] *)
Definition setContainer (p : string) (kids : list Elem) (doc : list Elem) : list Elem :=
  updateFolder p (fun h _ => (h, kids)) doc.

(** [header.dataset.expanded = "true" | "false"] *)
Definition setExpandedAttr (p : string) (b : bool) (doc : list Elem) : list Elem :=
  updateFolder p
    (fun h kids => (mkHeader (h_path h) (h_hasChildren h) b (h_level h), kids)) doc.

(** [document.querySelectorAll(".folder-header[data-expanded='true']")]
    mapped to [el.dataset.path], in document order. *)
Fixpoint expandedPathsEl (e : Elem) : list string :=
  match e with
  | FolderEl h kids =>
      (if h_expanded h then [h_path h] else []) ++ flat_map expandedPathsEl kids
  | _ => []
  end.

Definition expandedPaths (doc : list Elem) : list string :=
  flat_map expandedPathsEl doc.

(** [document.querySelector('[data-file="p"]')], for the paths of
    [selectorSafe]. *)
Definition queryTab (p : string) (tabs : list Tab) : option Tab :=
  List.find (fun t => String.eqb (tab_file t) p) tabs.

End Dom.

(** ** Rendering *)

Definition nonEmpty {A : Type} (o : option (list A)) : bool :=
  match o with Some (_ :: _) => true | _ => false end.

(** [children.map((c) => ({...c, path: this.normalizePath(c.path)}))] *)
Definition normalizeChildren (children : list Item) : list Item :=
  map (fun c => mkItem (item_name c) (normalizePath (item_path c)) (item_type c)
                       (item_hasChildren c)) children.

(** [renderFolder(item, parent, level)] and [renderFile(item, parent, level)]
    on a child descriptor, chosen by [item.type === "folder"]. A descriptor
    carries no [children], so the folder's content comes from the cache and
    the cache is not written. The recursion follows the cache; [fuel] bounds
    its depth, and [renderFuel] is enough for every cache in which no folder
    is cached below itself (on a cyclic cache the JavaScript overflows the
    stack). *)
Fixpoint renderItem (fuel : nat) (cache : FolderCache) (expanded : JsSet)
    (level : nat) (it : Item) : Elem :=
  match item_type it with
  | File => FileEl (normalizePath (item_path it))
  | Folder =>
      let normPath := normalizePath (item_path it) in
      let cachedChildren := JsMap.get cache normPath in
      let hasChildrenFlag :=
        match item_hasChildren it with Some true => true | _ => false end
        || nonEmpty cachedChildren in
      let isExpanded := JsSet.has expanded normPath in
      FolderEl (mkHeader normPath hasChildrenFlag isExpanded level)
        (match fuel, cachedChildren with
         | S fuel', Some (c :: cs) =>
             map (renderItem fuel' cache expanded (S level)) (c :: cs)
         | _, _ => []
         end)
  end.

Definition renderFuel (cache : FolderCache) : nat := S (length cache).

(** ** The client state *)

(** A promise that the code created and did not await: the request of a
    [loadFolderChildren] started by [restoreExpandedChildren] that is still on
    its way, or the [.then] callback of one that found its folder cached. *)
Inductive Task : Type :=
| AwaitFetch (path container : string) (level : nat)
| ThenRestore (path : string).

(** The fields of a [FileManager] instance, followed by the page it works on
    and by the promises it has left running. [currentPath] can hold [null]
    after [setSelectedItem]. *)
Record FileManager : Type := mkFileManager {
  currentPath : option string;
  currentFile : option string;
  openFiles : OpenFiles;
  activeTab : option string;
  descriptions : gmap string string;
  selectedItem : option Selection;
  renameData : option Selection;
  folderCache : FolderCache;
  expandedFolders : JsSet;
  fileTree : list Elem;
  fileTabs : list Tab;
  pending : list Task
}.

Definition with_currentPath (x : option string) (s : FileManager) : FileManager :=
  mkFileManager x (currentFile s) (openFiles s) (activeTab s) (descriptions s)
    (selectedItem s) (renameData s) (folderCache s) (expandedFolders s)
    (fileTree s) (fileTabs s) (pending s).

Definition with_currentFile (x : option string) (s : FileManager) : FileManager :=
  mkFileManager (currentPath s) x (openFiles s) (activeTab s) (descriptions s)
    (selectedItem s) (renameData s) (folderCache s) (expandedFolders s)
    (fileTree s) (fileTabs s) (pending s).

Definition with_openFiles (x : OpenFiles) (s : FileManager) : FileManager :=
  mkFileManager (currentPath s) (currentFile s) x (activeTab s) (descriptions s)
    (selectedItem s) (renameData s) (folderCache s) (expandedFolders s)
    (fileTree s) (fileTabs s) (pending s).

Definition with_activeTab (x : option string) (s : FileManager) : FileManager :=
  mkFileManager (currentPath s) (currentFile s) (openFiles s) x (descriptions s)
    (selectedItem s) (renameData s) (folderCache s) (expandedFolders s)
    (fileTree s) (fileTabs s) (pending s).

Definition with_descriptions (x : gmap string string) (s : FileManager) : FileManager :=
  mkFileManager (currentPath s) (currentFile s) (openFiles s) (activeTab s) x
    (selectedItem s) (renameData s) (folderCache s) (expandedFolders s)
    (fileTree s) (fileTabs s) (pending s).

Definition with_selectedItem (x : option Selection) (s : FileManager) : FileManager :=
  mkFileManager (currentPath s) (currentFile s) (openFiles s) (activeTab s)
    (descriptions s) x (renameData s) (folderCache s) (expandedFolders s)
    (fileTree s) (fileTabs s) (pending s).

Definition with_renameData (x : option Selection) (s : FileManager) : FileManager :=
  mkFileManager (currentPath s) (currentFile s) (openFiles s) (activeTab s)
    (descriptions s) (selectedItem s) x (folderCache s) (expandedFolders s)
    (fileTree s) (fileTabs s) (pending s).

Definition with_folderCache (x : FolderCache) (s : FileManager) : FileManager :=
  mkFileManager (currentPath s) (currentFile s) (openFiles s) (activeTab s)
    (descriptions s) (selectedItem s) (renameData s) x (expandedFolders s)
    (fileTree s) (fileTabs s) (pending s).

Definition with_expandedFolders (x : JsSet) (s : FileManager) : FileManager :=
  mkFileManager (currentPath s) (currentFile s) (openFiles s) (activeTab s)
    (descriptions s) (selectedItem s) (renameData s) (folderCache s) x
    (fileTree s) (fileTabs s) (pending s).

Definition with_fileTree (x : list Elem) (s : FileManager) : FileManager :=
  mkFileManager (currentPath s) (currentFile s) (openFiles s) (activeTab s)
    (descriptions s) (selectedItem s) (renameData s) (folderCache s)
    (expandedFolders s) x (fileTabs s) (pending s).

Definition with_fileTabs (x : list Tab) (s : FileManager) : FileManager :=
  mkFileManager (currentPath s) (currentFile s) (openFiles s) (activeTab s)
    (descriptions s) (selectedItem s) (renameData s) (folderCache s)
    (expandedFolders s) (fileTree s) x (pending s).

Definition with_pending (x : list Task) (s : FileManager) : FileManager :=
  mkFileManager (currentPath s) (currentFile s) (openFiles s) (activeTab s)
    (descriptions s) (selectedItem s) (renameData s) (folderCache s)
    (expandedFolders s) (fileTree s) (fileTabs s) x.

(** What the server answers while a handler runs. [None] stands for a
    request that makes [apiGet] or [apiSend] throw: a transport error or a
    response that is not [ok]. *)
Record Env : Type := mkEnv {
  (** [GET /api/tree] ([None]) and [GET /api/tree?path=p] ([Some p]) *)
  getTree : option string -> option Tree;
  (** [GET /api/description]: the [description] field of the answer *)
  getDescriptions : option (gmap string string);
  (** [PUT /api/rename {oldPath, newName}]: the [newPath] field of the
      answer, [None] inside when the body has none *)
  putRename : string -> string -> option (option string);
  (** [POST /api/description {path, description}] *)
  postDescription : string -> string -> bool
}.

(** ** Cache and lazy loading *)

(** [invalidateLoadedFolders(path)]. Deleting the entry under the iterator
    is allowed on a [Map]: every key is still visited exactly once. *)
Definition invalidateLoadedFolders (path : string) (cache : FolderCache) : FolderCache :=
  let norm := normalizePath path in
  if String.eqb norm "/" then []
  else
    let prefix := norm +:+ "/" in
    List.filter
      (fun kv => negb (String.eqb (fst kv) norm || Js.startsWith (fst kv) prefix))
      cache.

(** [renderChildrenFromCache(folderPath, container, level)]. A container is
    named by the [data-path] of the header it follows. *)
Definition renderChildrenFromCache (folderPath container : string) (level : nat)
    (s : FileManager) : FileManager :=
  let norm := normalizePath folderPath in
  let children :=
    match JsMap.get (folderCache s) norm with Some l => l | None => [] end in
  with_fileTree
    (Dom.setContainer container
       (map (renderItem (renderFuel (folderCache s)) (folderCache s)
               (expandedFolders s) (S level)) children)
       (fileTree s))
    s.

(** [loadFolderChildren] up to its [await]: [true] when the request has been
    sent and the function is suspended on it. *)
Definition loadFolderChildren_begin (folderPath : string) (container : option string)
    (level : nat) (s : FileManager) : FileManager * bool :=
  match container with
  | None => (s, false)
  | Some c =>
      let norm := normalizePath folderPath in
      if JsMap.has (folderCache s) norm
      then (renderChildrenFromCache norm c level s, false)
      else
        (with_fileTree
           (Dom.updateFolder c
              (fun h kids =>
                 (h, match kids with [] => [Placeholder "loading"] | _ => kids end))
              (fileTree s))
           s,
         true)
  end.

(** [loadFolderChildren] from the answer of [apiGet] on. *)
Definition loadFolderChildren_resume (env : Env) (folderPath container : string)
    (level : nat) (s : FileManager) : FileManager :=
  let norm := normalizePath folderPath in
  match getTree env (Some norm) with
  | Some folder =>
      let children :=
        normalizeChildren
          (match tree_children folder with Some l => l | None => [] end) in
      renderChildrenFromCache norm container level
        (with_folderCache (JsMap.set (folderCache s) norm children) s)
  | None =>
      with_fileTree (Dom.setContainer container [Placeholder "error"] (fileTree s)) s
  end.

(** [await this.loadFolderChildren(folderPath, container, level)] *)
Definition loadFolderChildren (env : Env) (folderPath : string) (container : option string)
    (level : nat) (s : FileManager) : FileManager :=
  match loadFolderChildren_begin folderPath container level s, container with
  | (s1, true), Some c => loadFolderChildren_resume env folderPath c level s1
  | (s1, _), _ => s1
  end.

(** ** Restoring the expanded folders *)

(** [array.sort((a, b) => key(a) - key(b))]. The sort of an array is stable,
    so its result is the one of this insertion sort: ascending keys, equal
    keys in their original order. *)
Fixpoint insertByKey {A : Type} (key : A -> nat) (x : A) (l : list A) : list A :=
  match l with
  | [] => [x]
  | y :: rest =>
      if key x <=? key y then x :: l else y :: insertByKey key x rest
  end.

Definition sortByKey {A : Type} (key : A -> nat) (l : list A) : list A :=
  fold_right (insertByKey key) [] l.

(** Ascending keys: no element has a smaller key than one before it. *)
Fixpoint sortedBy {A : Type} (key : A -> nat) (l : list A) : Prop :=
  match l with
  | [] => True
  | x :: rest => (forall y, In y rest -> key x <= key y) /\ sortedBy key rest
  end.

(** [loadFolderChildren(...)] called without [await], and its
    [.then(() => this.restoreExpandedChildren(path))]: the synchronous part
    runs, the rest is left in [pending]. *)
Definition spawnLoad (path : string) (level : nat) (s : FileManager) : FileManager :=
  match loadFolderChildren_begin path (Some path) level s with
  | (s1, true) => with_pending (pending s1 ++ [AwaitFetch path path level]) s1
  | (s1, false) => with_pending (pending s1 ++ [ThenRestore path]) s1
  end.

(** The paths [restoreExpandedChildren(parentPath)] goes through:
    [Array.from(this.expandedFolders).filter(...).sort(...)]. *)
Definition restorePaths (parentPath : string) (expanded : JsSet) : list string :=
  let normParent := normalizePath parentPath in
  let prefix := if negb (String.eqb normParent "/") then normParent +:+ "/" else "/" in
  sortByKey (fun p => length (Js.split p))
    (List.filter
       (fun p => Js.startsWith p prefix && negb (String.eqb p normParent))
       expanded).

(** [restoreExpandedChildren(parentPath)]. The second half of the function
    only moves the CSS class [active]. *)
Definition restoreExpandedChildren (parentPath : string) (s : FileManager) : FileManager :=
  fold_left
    (fun s path =>
       match Dom.queryFolder path (fileTree s) with
       | Some (h, _) => if h_hasChildren h then spawnLoad path (h_level h) s else s
       | None => s
       end)
    (restorePaths parentPath (expandedFolders s)) s.

(** The folder a promise is loading or restoring. *)
Definition taskPath (t : Task) : string :=
  match t with
  | AwaitFetch path _ _ => path
  | ThenRestore path => path
  end.

(** One promise of [pending] settles. *)
Definition runTask (env : Env) (t : Task) (s : FileManager) : FileManager :=
  match t with
  | AwaitFetch path container level =>
      restoreExpandedChildren path
        (loadFolderChildren_resume env path container level s)
  | ThenRestore path => restoreExpandedChildren path s
  end.

(** The promises settle one at a time, in any order. *)
Inductive settles (env : Env) : FileManager -> FileManager -> Prop :=
| settles_task (s : FileManager) (before after : list Task) (t : Task) :
    pending s = before ++ t :: after ->
    settles env s (runTask env t (with_pending (before ++ after) s)).

Inductive settles_star (env : Env) : FileManager -> FileManager -> Prop :=
| settles_refl (s : FileManager) : settles_star env s s
| settles_step (s1 s2 s3 : FileManager) :
    settles env s1 s2 -> settles_star env s2 s3 -> settles_star env s1 s3.

(** The loop of [_getAncestorPaths]: both branches of
    [(current ? "/" : "/")] are a slash. *)
Fixpoint ancestorsFrom (current : string) (parts : list string) : list string :=
  match parts with
  | [] => []
  | part :: rest =>
      let current' := current +:+ "/" +:+ part in
      current' :: ancestorsFrom current' rest
  end.

(** [_getAncestorPaths(path)] *)
Definition _getAncestorPaths (path : string) : list string :=
  let normalized := normalizePath path in
  if String.eqb normalized "/" then []
  else ancestorsFrom "" (removelast (Js.filterBoolean (Js.split normalized))).

(** [await this.ensureAncestorsExpanded(targetPath)] *)
Definition ensureAncestorsExpanded (env : Env) (targetPath : string) (s : FileManager)
    : FileManager :=
  fold_left
    (fun s anc =>
       match Dom.queryFolder anc (fileTree s) with
       | None => s
       | Some (h, _) =>
           let s1 := with_expandedFolders (JsSet.add (expandedFolders s) anc) s in
           let s2 := with_fileTree (Dom.setExpandedAttr anc true (fileTree s1)) s1 in
           if negb (JsMap.has (folderCache s2) anc) && h_hasChildren h
           then loadFolderChildren env anc (Some anc) (h_level h) s2
           else s2
       end)
    (_getAncestorPaths targetPath) s.

(** [setSelectedItem(path, type)]; [selectFolder] stores the parent in
    [currentPath], [null] included. *)
Definition setSelectedItem (path : option string) (type : ItemType) (s : FileManager)
    : FileManager :=
  match path with
  | Some p =>
      with_currentPath (getParentPath p)
        (with_selectedItem (if Js.truthy p then Some (mkSelection p type) else None) s)
  | None => with_currentPath None (with_selectedItem None s)
  end.

(** ** Reloading the whole tree *)

(** [renderTree(node)] on the answer of [GET /api/tree]: [renderFolder] at
    level 0, which caches the children that the node brings along before it
    renders them, or [renderFile]. *)
Definition renderTree (node : Tree) (s : FileManager) : FileManager :=
  match tree_type node with
  | File => with_fileTree [FileEl (normalizePath (tree_path node))] s
  | Folder =>
      let normPath := normalizePath (tree_path node) in
      let cachedChildren := JsMap.get (folderCache s) normPath in
      let hasChildrenFlag :=
        match tree_hasChildren node with Some true => true | _ => false end
        || nonEmpty (tree_children node)
        || nonEmpty cachedChildren in
      let isExpanded := JsSet.has (expandedFolders s) normPath in
      let header := mkHeader normPath hasChildrenFlag isExpanded 0 in
      match tree_children node, cachedChildren with
      | Some (c :: cs), _ =>
          let normalizedChildren := normalizeChildren (c :: cs) in
          let cache' := JsMap.set (folderCache s) normPath normalizedChildren in
          with_fileTree
            [FolderEl header
               (map (renderItem (renderFuel cache') cache' (expandedFolders s) 1)
                  normalizedChildren)]
            (with_folderCache cache' s)
      | _, Some (c :: cs) =>
          with_fileTree
            [FolderEl header
               (map (renderItem (renderFuel (folderCache s)) (folderCache s)
                       (expandedFolders s) 1)
                  (c :: cs))]
            s
      | _, _ => with_fileTree [FolderEl header []] s
      end
  end.

(** What the re-expansion loop of [loadTree] does, in order: it turns to a
    path of [prevExpanded] ([Visit]), and its [loadFolderChildren(path, ...)]
    may request that folder's children and wait for them ([Fetch]). *)
Inductive Event : Type :=
| Visit (path : string)
| Fetch (path : string).



(** [a ? a.split("/").filter(Boolean).length : 0] *)
Definition depth (a : string) : nat :=
  if Js.truthy a then length (Js.filterBoolean (Js.split a)) else 0.

(** The body of [for (const path of prevExpanded) { ... }] in [loadTree]:
    the state after the turn and the request it awaited, if any. *)
Definition reexpandTurn (env : Env) (path : string) (s : FileManager)
    : FileManager * list Event :=
  match Dom.queryFolder path (fileTree s) with
  | None => (s, [])
  | Some (h, _) =>
      if negb (JsMap.has (folderCache s) path) && h_hasChildren h
      then (loadFolderChildren env path (Some path) (h_level h) s,
            if snd (loadFolderChildren_begin path (Some path) (h_level h) s)
            then [Fetch path] else [])
      else (s, [])
  end.

(** The loop itself, with the events of its turns. *)
Fixpoint reexpand (env : Env) (paths : list string) (s : FileManager)
    : FileManager * list Event :=
  match paths with
  | [] => (s, [])
  | path :: rest =>
      let '(s1, sent) := reexpandTurn env path s in
      let '(s2, events) := reexpand env rest s1 in
      (s2, Visit path :: sent ++ events)
  end.

(** [this.selectedItem?.path || this.currentPath || null] *)
Definition prevSelectedOf (s : FileManager) : option string :=
  match selectedItem s with
  | Some sel =>
      if Js.truthy (sel_path sel) then Some (sel_path sel)
      else match currentPath s with
           | Some p => if Js.truthy p then Some p else None
           | None => None
           end
  | None =>
      match currentPath s with
      | Some p => if Js.truthy p then Some p else None
      | None => None
      end
  end.

(** The restoration of the selection at the end of [loadTree]. *)
Definition restoreSelection (env : Env) (prevSelected : option string) (s : FileManager)
    : FileManager :=
  match prevSelected with
  | None => s
  | Some p =>
      match Dom.queryDataPath p (fileTree s) with
      | Some type => setSelectedItem (Some p) type s
      | None =>
          let s1 := ensureAncestorsExpanded env p s in
          match Dom.queryDataPath p (fileTree s1) with
          | Some type => setSelectedItem (Some p) type s1
          | None => s1
          end
      end
  end.

(** [await this.loadTree()], together with the events of its re-expansion
    loop. When the request fails the [catch] shows the error placeholder in
    [#file-tree]. *)
Definition loadTreeTrace (env : Env) (s : FileManager) : FileManager * list Event :=
  let prevExpanded := Dom.expandedPaths (fileTree s) in
  let s := with_expandedFolders (JsSet.ofList prevExpanded) s in
  let prevSelected := prevSelectedOf s in
  match getTree env None with
  | None => (with_fileTree [Placeholder "error"] s, [])
  | Some tree =>
      let s :=
        match tree_children tree with
        | Some children =>
            with_folderCache
              (JsMap.set (folderCache s) (normalizePath (tree_path tree))
                 (normalizeChildren children))
              s
        | None => s
        end in
      let s :=
        renderTree
          (mkTree (tree_name tree) (normalizePath (tree_path tree)) (tree_type tree)
             (tree_hasChildren tree) (tree_children tree))
          s in
      let '(s, events) := reexpand env (sortByKey depth prevExpanded) s in
      let s := restoreSelection env prevSelected s in
      (if 0 <? length (expandedFolders s)
       then restoreExpandedChildren "/" s
       else s,
       events)
  end.

Definition loadTree (env : Env) (s : FileManager) : FileManager :=
  fst (loadTreeTrace env s).

(** [await this.loadDescriptions()] *)
Definition loadDescriptions (env : Env) (s : FileManager) : FileManager :=
  match getDescriptions env with
  | Some d => with_descriptions d s
  | None => s
  end.

(** [await this.refreshTreeAndDescriptions()]: the two loads run under
    [Promise.all]; one writes [descriptions] only and the other never reads
    it into the state kept here, so their interleaving does not show. *)
Definition refreshTreeAndDescriptions (env : Env) (s : FileManager) : FileManager :=
  loadDescriptions env (loadTree env s).

(** ** Tabs *)

(** How a synchronous method ends: it returns, or it throws and the
    exception leaves it. Either way the state is the one reached at that
    point; a caller that reads only the state may use the completion as a
    state. *)
Record Completion : Type := mkCompletion {
  stateOf :> FileManager;
  threw : bool
}.

Definition Returned (s : FileManager) : Completion := mkCompletion s false.
Definition Thrown (s : FileManager) : Completion := mkCompletion s true.

(** [s.split(sep)] for a separator of one character. *)
Fixpoint splitOn (sep : ascii) (s : string) : list string :=
  match s with
  | EmptyString => [EmptyString]
  | String c r =>
      if Ascii.eqb c sep then EmptyString :: splitOn sep r
      else match splitOn sep r with
           | seg :: segs => String c seg :: segs
           | [] => [String c EmptyString]
           end
  end.

(** ASCII whitespace as the DOM standard has it: tab, line feed, form feed,
    carriage return, space. *)
Definition isAsciiWhitespace (c : ascii) : bool :=
  let n := nat_of_ascii c in
  Nat.eqb n 9 || Nat.eqb n 10 || Nat.eqb n 12 || Nat.eqb n 13 || Nat.eqb n 32.

Fixpoint hasWhitespace (s : string) : bool :=
  match s with
  | EmptyString => false
  | String c r => isAsciiWhitespace c || hasWhitespace r
  end.

(** ["language-" + fileData.name.split(".")[1]]; a name without a dot has no
    second piece and [undefined] is printed as ["undefined"]. *)
Definition languageClass (name : string) : string :=
  "language-" +:+
  match splitOn "."%char name with
  | _ :: piece :: _ => piece
  | _ => "undefined"
  end.

(** [classList.add(token)] throws a [SyntaxError] on the empty token and an
    [InvalidCharacterError] on a token that holds ASCII whitespace. *)
Definition classListAccepts (token : string) : bool :=
  Js.truthy token && negb (hasWhitespace token).

(** [switchToTab(filePath)]. It throws in two places: the [TypeError] of
    [tab.scrollIntoView] when no tab carries the path, before anything is
    written, and the exception of
    [classList.add("language-" + fileData.name.split(".")[1])] when the
    piece of the name after its first dot holds whitespace, after
    [activeTab] and [currentFile] have been written. What comes after that
    line writes the editor pane only. *)
Definition switchToTab (filePath : string) (s : FileManager) : Completion :=
  if negb (JsMap.has (openFiles s) filePath) then Returned s
  else
    match Dom.queryTab filePath (fileTabs s) with
    | None => Thrown s
    | Some _ =>
        let s' := with_currentFile (Some filePath) (with_activeTab (Some filePath) s) in
        match JsMap.get (openFiles s') filePath with
        | Some fileData =>
            if classListAccepts (languageClass (fd_name fileData))
            then Returned s' else Thrown s'
        | None => Thrown s'
        end
    end.

(** ** Rename *)

(** The rewrite of [expandedFolders] in [confirmRename]. *)
Definition renameExpanded (oldPath newPath : string) (expanded : JsSet) : JsSet :=
  fold_left
    (fun updatedExpanded path =>
       if String.eqb path oldPath then JsSet.add updatedExpanded newPath
       else if Js.startsWith path (oldPath +:+ "/")
       then JsSet.add updatedExpanded (Js.replace path oldPath newPath)
       else JsSet.add updatedExpanded path)
    expanded [].

(** The rewrite of [folderCache] in [confirmRename]. *)
Definition renameCache (oldPath newPath : string) (cache : FolderCache) : FolderCache :=
  fold_left
    (fun updatedCache entry =>
       let '(path, data) := entry in
       if String.eqb path oldPath then JsMap.set updatedCache newPath data
       else if Js.startsWith path (oldPath +:+ "/")
       then
         JsMap.set updatedCache (Js.replace path oldPath newPath)
           (map
              (fun item =>
                 mkItem (item_name item) (Js.replace (item_path item) oldPath newPath)
                   (item_type item) (item_hasChildren item))
              data)
       else JsMap.set updatedCache path data)
    cache [].

(** The rewrite of [openFiles] in [confirmRename]. *)
Definition renameOpenFiles (oldPath newPath newName : string) (files : OpenFiles)
    : OpenFiles :=
  fold_left
    (fun newOpenFiles entry =>
       let '(path, fileData) := entry in
       if String.eqb path oldPath
       then
         JsMap.set newOpenFiles newPath
           (mkFileData newName (fd_content fileData) (fd_description fileData) newPath)
       else if Js.startsWith path (oldPath +:+ "/")
       then
         let newFilePath := Js.replace path oldPath newPath in
         JsMap.set newOpenFiles newFilePath
           (mkFileData (fd_name fileData) (fd_content fileData)
              (fd_description fileData) newFilePath)
       else JsMap.set newOpenFiles path fileData)
    files [].

(** The rewrite of the [.file-tab] elements in [confirmRename]. *)
Definition renameTabs (oldPath newPath newName : string) (tabs : list Tab) : list Tab :=
  map
    (fun tab =>
       let filePath := tab_file tab in
       if String.eqb filePath oldPath then mkTab newPath newName
       else if Js.startsWith filePath (oldPath +:+ "/")
       then mkTab (Js.replace filePath oldPath newPath) (tab_name tab)
       else tab)
    tabs.

(** The rewrite of [activeTab] in [confirmRename]; the empty string is as
    falsy as [null]. *)
Definition renameActiveTab (oldPath newPath : string) (active : option string)
    : option string :=
  match active with
  | None => None
  | Some t =>
      if negb (Js.truthy t) then Some t
      else if String.eqb t oldPath then Some newPath
      else if Js.startsWith t (oldPath +:+ "/") then Some (Js.replace t oldPath newPath)
      else Some t
  end.

(** The rewrite of [selectedItem] in [confirmRename]. *)
Definition renameSelected (oldPath newPath : string) (sel : option Selection)
    : option Selection :=
  match sel with
  | None => None
  | Some x =>
      if String.eqb (sel_path x) oldPath then Some (mkSelection newPath (sel_type x))
      else if Js.startsWith (sel_path x) (oldPath +:+ "/")
      then Some (mkSelection (Js.replace (sel_path x) oldPath newPath) (sel_type x))
      else Some x
  end.

(** [x || "/"] on a path that may be [null]. *)
Definition orRoot (x : option string) : string :=
  match x with
  | Some p => if Js.truthy p then p else "/"
  | None => "/"
  end.

(** [res.newPath || this.getParentPath(oldPath) + "/" + newName]; string
    concatenation prints [null] as ["null"]. *)
Definition newPathOf (res : option string) (oldPath newName : string) : string :=
  let fallback :=
    match getParentPath oldPath with Some p => p | None => "null" end
    +:+ "/" +:+ newName in
  match res with
  | Some p => if Js.truthy p then p else fallback
  | None => fallback
  end.

(** The five rewrites of [confirmRename], in the order of the code. *)
Definition renameRewrite (oldPath newPath newName : string) (s : FileManager)
    : FileManager :=
  let s := with_expandedFolders (renameExpanded oldPath newPath (expandedFolders s)) s in
  let s := with_folderCache (renameCache oldPath newPath (folderCache s)) s in
  let s := with_openFiles (renameOpenFiles oldPath newPath newName (openFiles s)) s in
  let s := with_fileTabs (renameTabs oldPath newPath newName (fileTabs s)) s in
  let s := with_activeTab (renameActiveTab oldPath newPath (activeTab s)) s in
  with_selectedItem (renameSelected oldPath newPath (selectedItem s)) s.

(** Invalidation of [parentPath] and its reload: through the folder's own
    header when the page shows it, through the whole tree otherwise. *)
Definition reloadParent (env : Env) (parentPath : string) (s : FileManager) : FileManager :=
  let s := with_folderCache (invalidateLoadedFolders parentPath (folderCache s)) s in
  match Dom.queryFolder parentPath (fileTree s) with
  | Some (h, _) =>
      restoreExpandedChildren parentPath
        (loadFolderChildren env parentPath (Some parentPath) (h_level h) s)
  | None => refreshTreeAndDescriptions env s
  end.

(** [renameSelectedItem()]: [renameData] is a fresh [{path, type}], not the
    selection object itself. *)
Definition renameSelectedItem (s : FileManager) : FileManager :=
  match selectedItem s with
  | None => s
  | Some sel => with_renameData (Some (mkSelection (sel_path sel) (sel_type sel))) s
  end.

(** [confirmRename()], with [newName] the trimmed value of [#rename-input].
    Whatever throws inside the [try] ends the handler in its [catch], which
    only logs. *)
Definition confirmRename (env : Env) (newName : string) (s : FileManager) : FileManager :=
  if negb (Js.truthy newName) then s
  else
    match renameData s with
    | None => s
    | Some rd =>
        match putRename env (sel_path rd) newName with
        | None => s
        | Some res =>
            let oldPath := normalizePath (sel_path rd) in
            let newPath := newPathOf res oldPath newName in
            let s := renameRewrite oldPath newPath newName s in
            let s := reloadParent env (orRoot (getParentPath oldPath)) s in
            match activeTab s with
            | Some t => if Js.truthy t then stateOf (switchToTab t s) else s
            | None => s
            end
        end
    end.

(** ** Descriptions *)

(** [this.currentFile.split("/").slice(0, -1).join("/") || "/"] *)
Definition parentOfCurrentFile (currentFile : string) : string :=
  let joined := Js.join (removelast (Js.split currentFile)) in
  if Js.truthy joined then joined else "/".

(** [saveDescription()], with [description] the value of
    [#file-description]. *)
Definition saveDescription (env : Env) (description : string) (s : FileManager)
    : FileManager :=
  match currentFile s with
  | None => s
  | Some file =>
      if negb (Js.truthy file) then s
      else if negb (postDescription env file description) then s
      else
        let s := with_descriptions (<[file := description]> (descriptions s)) s in
        let s :=
          match JsMap.get (openFiles s) file with
          | Some fileData =>
              with_openFiles
                (JsMap.set (openFiles s) file
                   (mkFileData (fd_name fileData) (fd_content fileData) description
                      (fd_path fileData)))
                s
          | None => s
          end in
        match Dom.queryDataPath file (fileTree s) with
        | None => s
        | Some _ =>
            let parentPath := parentOfCurrentFile file in
            match Dom.queryFolder parentPath (fileTree s) with
            | None => s
            | Some (h, _) =>
                let s :=
                  with_folderCache (invalidateLoadedFolders parentPath (folderCache s)) s in
                restoreExpandedChildren parentPath
                  (loadFolderChildren env parentPath (Some parentPath) (h_level h) s)
            end
        end
  end.

(** ** The server's description store *)

Module Server.

(** [descriptions.json] as the routes see it: [None] when [fs.readFile] or
    [JSON.parse] throws, and the route goes on with [{}]. *)
Definition DescriptionsFile : Type := option (gmap string string).

Definition readDescriptions (file : DescriptionsFile) : gmap string string :=
  match file with Some d => d | None => ∅ end.

(** [pathNodes = oldPath.split("/"); pathNodes[pathNodes.length - 1] = newName;
    pathNodes.join("/")] *)
Definition renamedPath (oldPath newName : string) : string :=
  Js.join (removelast (Js.split oldPath) ++ [newName]).

(** [app.put("/api/rename")]. [renameOk] and [writeOk] tell whether
    [fs.rename] and [fs.writeFile] succeed; when either throws the route
    answers 500. The result is the [newPath] of a successful answer and the
    description file afterwards. *)
Definition rename (renameOk writeOk : bool) (oldPath newName : string)
    (file : DescriptionsFile) : option string * DescriptionsFile :=
  if negb renameOk then (None, file)
  else
    let descriptions := readDescriptions file in
    let newPath := renamedPath oldPath newName in
    match descriptions !! oldPath with
    | Some text =>
        if Js.truthy text
        then
          if writeOk
          then (Some newPath, Some (delete oldPath (<[newPath := text]> descriptions)))
          else (None, file)
        else (Some newPath, file)
    | None => (Some newPath, file)
    end.

(** [app.post("/api/description")]; [description] is [None] when the body
    has no such field. The keys are those of [slashRooted], as for
    [getDescription] below. *)
Definition setDescription (writeOk : bool) (filePath : string)
    (description : option string) (file : DescriptionsFile) : bool * DescriptionsFile :=
  let descriptions := readDescriptions file in
  let descriptions' :=
    match description with
    | Some text =>
        if Js.truthy text then <[filePath := text]> descriptions
        else delete filePath descriptions
    | None => delete filePath descriptions
    end in
  if writeOk then (true, Some descriptions') else (false, file).

(** [app.get("/api/description")] with a [path] in the query that is not
    empty: [{description: descriptions[filePath] || ""}]. Without a path, or
    with an empty one, the route answers with the whole object, which is
    [readDescriptions]. The object parsed from the file is a plain one, so
    for a key such as [__proto__] or [constructor] the lookup finds what
    [Object.prototype] holds; the finite map below is the object on the
    keys the client sends, which start with a slash ([slashRooted] further
    down). *)
Definition getDescription (filePath : string) (file : DescriptionsFile) : string :=
  match readDescriptions file !! filePath with
  | Some text => if Js.truthy text then text else ""
  | None => ""
  end.

End Server.

(** ** The specification's vocabulary

    These definitions follow the words of the specification, not the code;
    the theorems compare the code with them. *)

Module Spec.

(** "true iff [candidate == ancestor] or [candidate] starts with
    [ancestor + "/"] (root ancestor matches everything)" *)
Definition isDescendant (ancestor candidate : string) : bool :=
  String.eqb candidate ancestor
  || Js.startsWith candidate (ancestor +:+ "/")
  || String.eqb ancestor "/".

(** The segments of a path: the pieces between the slashes after the
    leading one; the root has none. *)
Definition segments (p : string) : list string :=
  match p with
  | String "/" EmptyString => []
  | String "/" rest => Js.split rest
  | _ => Js.split p
  end.

(** "always begins with [/]; root is exactly [/]; no trailing slash except
    for root; no empty segments" *)
Definition canonical (p : string) : bool :=
  Js.startsWith p "/"
  && (String.eqb p "/" || negb (Js.endsWithSlash p))
  && forallb Js.truthy (segments p).

(** The rewrite of a stored path [p] on a rename of [oldPath] to [newPath]:
    [newPath] for [oldPath] itself, the [oldPath] prefix replaced by
    [newPath] with the suffix kept for a proper descendant, [p] otherwise. *)
Definition rewrite (oldPath newPath p : string) : string :=
  if String.eqb p oldPath then newPath
  else
    match Js.stripPrefix (oldPath +:+ "/") p with
    | Some suffix => newPath +:+ "/" +:+ suffix
    | None => p
    end.

(** An [OpenFile] entry after the rename: the entry of [oldPath] itself takes
    the new name and the new path, an entry below [oldPath] keeps its name
    and has its path rewritten, every other entry is untouched. *)
Definition renamedFile (oldPath newPath newName path : string) (fd : FileData)
    : FileData :=
  if String.eqb path oldPath
  then mkFileData newName (fd_content fd) (fd_description fd) newPath
  else if Js.startsWith path (oldPath +:+ "/")
  then mkFileData (fd_name fd) (fd_content fd) (fd_description fd)
         (rewrite oldPath newPath path)
  else fd.

End Spec.

(** ** Invariants *)

(** Every promise still running loads or restores a folder at or below
    [parent]. *)
Definition tasksBelow (parent : string) (tasks : list Task) : Prop :=
  Forall (fun t => Spec.isDescendant parent (normalizePath (taskPath t)) = true) tasks.

(** The cache agrees with [cache0] outside the subtree of [parent], and the
    promises still running stay inside that subtree. *)
Definition frameOutside (parent : string) (cache0 : FolderCache) (s : FileManager) : Prop :=
  tasksBelow parent (pending s)
  /\ forall key, Spec.isDescendant parent key = false ->
       JsMap.get (folderCache s) key = JsMap.get cache0 key.

(** ** Sample states *)

Module Sample.

(** The cache of the prefix-invalidation example. *)
Definition cache_a : FolderCache :=
  [("/a", [mkItem "b" "/a/b" Folder (Some true); mkItem "bc" "/a/bc" Folder (Some false)]);
   ("/a/b", [mkItem "f.txt" "/a/b/f.txt" File None]);
   ("/a/bc", []);
   ("/x", [])].

(** [/docs] with [readme.txt] and the folder [sub], which holds [notes.txt];
    both folders are cached, both files are open. *)
Definition cache_docs : FolderCache :=
  [("/", [mkItem "docs" "/docs" Folder (Some true)]);
   ("/docs", [mkItem "readme.txt" "/docs/readme.txt" File None;
              mkItem "sub" "/docs/sub" Folder (Some true)]);
   ("/docs/sub", [mkItem "notes.txt" "/docs/sub/notes.txt" File None])].

Definition files_docs : OpenFiles :=
  [("/docs/readme.txt", mkFileData "readme.txt" "hello" "" "/docs/readme.txt");
   ("/docs/sub/notes.txt", mkFileData "notes.txt" "n" "" "/docs/sub/notes.txt");
   ("/other.txt", mkFileData "other.txt" "o" "" "/other.txt")].

Definition tree_docs : list Elem :=
  [FolderEl (mkHeader "/" true false 0)
     [FolderEl (mkHeader "/docs" true true 1)
        [FileEl "/docs/readme.txt";
         FolderEl (mkHeader "/docs/sub" true true 2) [FileEl "/docs/sub/notes.txt"]]]].

Definition tabs_docs : list Tab :=
  [mkTab "/docs/readme.txt" "readme.txt";
   mkTab "/docs/sub/notes.txt" "notes.txt";
   mkTab "/other.txt" "other.txt"].

(** The folder [/docs] is selected and [renameSelectedItem] has opened the
    rename dialog on it; the tab of [readme.txt] is the active one. *)
Definition state_docs : FileManager :=
  mkFileManager (Some "/docs") (Some "/docs/readme.txt") files_docs
    (Some "/docs/readme.txt") ∅ (Some (mkSelection "/docs" Folder))
    (Some (mkSelection "/docs" Folder)) cache_docs ["/docs"; "/docs/sub"]
    tree_docs tabs_docs [].

(** A server on which every request succeeds: the rename route answers as
    [Server.rename] does, and the tree shows the folder under its new name
    [name]. *)
Definition env_renamed (name : string) : Env :=
  mkEnv
    (fun path =>
       match path with
       | Some "/" | None =>
           Some (mkTree "uploads" "" Folder (Some true)
                   (Some [mkItem name ("/" +:+ name) Folder (Some true)]))
       | Some p =>
           if String.eqb p ("/" +:+ name)
           then Some (mkTree name p Folder (Some true)
                        (Some [mkItem "readme.txt" (p +:+ "/readme.txt") File None;
                               mkItem "sub" (p +:+ "/sub") Folder (Some true)]))
           else None
       end)
    (Some ∅)
    (fun oldPath newName => Some (fst (Server.rename true true oldPath newName None)))
    (fun _ _ => true).

(** A server whose rename route answers 500. *)
Definition env_rename_fails : Env :=
  mkEnv (fun _ => None) None (fun _ _ => None) (fun _ _ => true).

(** [/a] holds [f.txt] and the folder [sub]; [sub] was opened once, so its
    children are cached, and has been collapsed again. [f.txt] is open in the
    active tab. *)
Definition children_a : list Item :=
  [mkItem "f.txt" "/a/f.txt" File None; mkItem "sub" "/a/sub" Folder (Some true)].

Definition state_a : FileManager :=
  mkFileManager (Some "/a") (Some "/a/f.txt")
    [("/a/f.txt", mkFileData "f.txt" "text" "" "/a/f.txt")]
    (Some "/a/f.txt") ∅ (Some (mkSelection "/a/f.txt" File)) None
    [("/", [mkItem "a" "/a" Folder (Some true)]);
     ("/a", children_a);
     ("/a/sub", [mkItem "g.txt" "/a/sub/g.txt" File None])]
    ["/a"]
    [FolderEl (mkHeader "/" true false 0)
       [FolderEl (mkHeader "/a" true true 1)
          [FileEl "/a/f.txt";
           FolderEl (mkHeader "/a/sub" true false 2) [FileEl "/a/sub/g.txt"]]]]
    [mkTab "/a/f.txt" "f.txt"] [].

(** Every request succeeds; the tree is what [state_a] shows. *)
Definition env_a : Env :=
  mkEnv
    (fun path =>
       match path with
       | Some "/a" => Some (mkTree "a" "/a" Folder (Some true) (Some children_a))
       | Some "/a/sub" =>
           Some (mkTree "sub" "/a/sub" Folder (Some true)
                   (Some [mkItem "g.txt" "/a/sub/g.txt" File None]))
       | Some "/" | None =>
           Some (mkTree "uploads" "" Folder (Some true)
                   (Some [mkItem "a" "/a" Folder (Some true)]))
       | _ => None
       end)
    (Some ∅) (fun _ _ => None) (fun _ _ => true).

(** Right after [renderTree] in a full reload: only the root is cached, the
    page shows [/a] with nothing below it, and [/a/sub] and [/a] had been
    expanded before. *)
Definition state_reloading : FileManager :=
  mkFileManager (Some "/a") None [] None ∅ None None
    [("/", [mkItem "a" "/a" Folder (Some true)])]
    ["/a/sub"; "/a"]
    [FolderEl (mkHeader "/" true false 0) [FolderEl (mkHeader "/a" true true 1) []]]
    [] [].

(** [descriptions.json] with a description on the folder [/docs] and one on
    a file in it. *)
Definition descriptions_docs : Server.DescriptionsFile :=
  Some (<["/docs" := "manuals"]> (<["/docs/readme.txt" := "read me first"]> ∅)).

(** As [state_a], with [/a/sub] still expanded. *)
Definition state_a_sub_open : FileManager :=
  with_fileTree
    [FolderEl (mkHeader "/" true false 0)
       [FolderEl (mkHeader "/a" true true 1)
          [FileEl "/a/f.txt";
           FolderEl (mkHeader "/a/sub" true true 2) [FileEl "/a/sub/g.txt"]]]]
    (with_expandedFolders ["/a"; "/a/sub"] state_a).

End Sample.

(** * The other handlers of the client *)

(** ** More of the page *)

Module Page.

(** [tab.remove()] on the tab found by
    [document.querySelector('[data-file="p"]')]: the first one goes. *)
Fixpoint removeTab (p : string) (tabs : list Tab) : list Tab :=
  match tabs with
  | [] => []
  | t :: rest => if String.eqb (tab_file t) p then rest else t :: removeTab p rest
  end.

(** Every [data-path] of an element and of what it contains, in document
    order. *)
Fixpoint pathsEl (e : Elem) : list string :=
  match e with
  | FileEl q => [q]
  | FolderEl h kids => h_path h :: flat_map pathsEl kids
  | Placeholder _ => []
  end.

Definition paths (doc : list Elem) : list string := flat_map pathsEl doc.

End Page.

(** The answers of the routes that the handlers below call. [None] and
    [false] stand for a request that makes [apiGet] or [apiSend] throw. *)
Record FileEnv : Type := mkFileEnv {
  (** [GET /api/file-content?path=p]: the [content] field *)
  getFileContent : string -> option string;
  (** [GET /api/description?path=p]: the [description] field *)
  getFileDescription : string -> option string;
  (** [POST /api/folder {path, name}]; [path] is [this.currentPath], which
      can be [null] *)
  postFolder : option string -> string -> bool;
  (** [DELETE /api/item?path=p] *)
  deleteItem : string -> bool
}.

(** ** Tabs *)



(** [remaining[remaining.length - 1].dataset.file] over
    [document.querySelectorAll(".file-tab")] *)
Definition lastTabFile (tabs : list Tab) : option string :=
  match rev tabs with
  | [] => None
  | t :: _ => Some (tab_file t)
  end.

(** [closeTab(filePath)]. What [switchToTab] throws leaves [closeTab] as
    well; the lines after the call write the empty-tab notice only. *)
Definition closeTab (filePath : string) (s : FileManager) : Completion :=
  if negb (JsMap.has (openFiles s) filePath) then Returned s
  else
    let s1 := with_openFiles (JsMap.delete (openFiles s) filePath) s in
    let s2 := with_fileTabs (Page.removeTab filePath (fileTabs s1)) s1 in
    match activeTab s2 with
    | Some active =>
        if String.eqb active filePath
        then
          let s3 := with_currentFile None (with_activeTab None s2) in
          match lastTabFile (fileTabs s3) with
          | Some file => switchToTab file s3
          | None => Returned s3
          end
        else Returned s2
    | None => Returned s2
    end.

(** ** Folders *)

(** [toggleFolder(folderPath, childrenContainer)] through its await. The
    container is the one of the folder's own header. Were there no header,
    the write to [header.dataset] would throw after the set was changed. *)
Definition toggleFolder (env : Env) (folderPath : string) (s : FileManager) : FileManager :=
  let header := Dom.queryFolder folderPath (fileTree s) in
  if negb (JsSet.has (expandedFolders s) folderPath)
  then
    let s1 := with_expandedFolders (JsSet.add (expandedFolders s) folderPath) s in
    match header with
    | None => s1
    | Some (h, _) =>
        let s2 := with_fileTree (Dom.setExpandedAttr folderPath true (fileTree s1)) s1 in
        if JsMap.has (folderCache s2) folderPath
        then renderChildrenFromCache folderPath folderPath (h_level h) s2
        else if h_hasChildren h
        then loadFolderChildren env folderPath (Some folderPath) (h_level h) s2
        else s2
    end
  else
    let s1 := with_expandedFolders (JsSet.delete (expandedFolders s) folderPath) s in
    match header with
    | None => s1
    | Some _ => with_fileTree (Dom.setExpandedAttr folderPath false (fileTree s1)) s1
    end.

(** [selectFolder(folderPath)] *)
Definition selectFolder (folderPath : option string) (s : FileManager) : FileManager :=
  with_currentPath folderPath s.

(** [this.normalizePath(this.currentPath || "/")] *)
Definition currentFolder (s : FileManager) : string :=
  normalizePath (orRoot (currentPath s)).

(** [createFolder()], with [name] the trimmed value of
    [#folder-name-input]. *)
Definition createFolder (env : Env) (fenv : FileEnv) (name : string) (s : FileManager)
    : FileManager :=
  if negb (Js.truthy name) then s
  else if negb (postFolder fenv (currentPath s) name) then s
  else
    let parentPath := currentFolder s in
    let s := with_folderCache (invalidateLoadedFolders parentPath (folderCache s)) s in
    match Dom.queryFolder parentPath (fileTree s) with
    | Some (h, _) =>
        if JsSet.has (expandedFolders s) parentPath || String.eqb parentPath "/"
        then
          restoreExpandedChildren parentPath
            (loadFolderChildren env parentPath (Some parentPath) (h_level h) s)
        else s
    | None => refreshTreeAndDescriptions env s
    end.

(** [uploadFiles(e)] after its uploads: [fetch] does not throw on an answer
    that is not [ok] and what it throws is caught and logged, so whatever
    the uploads did, the handler goes on to reload the current folder. *)
Definition uploadFiles (env : Env) (s : FileManager) : FileManager :=
  reloadParent env (currentFolder s) s.

(** The condition under which [deleteSelectedItem] closes the tab of
    [filePath]. *)
Definition deletedWith (normPath filePath : string) : bool :=
  String.eqb filePath normPath
  || Js.startsWith filePath (normPath +:+ "/")
  || (String.eqb normPath "/" && Js.truthy filePath).

(** The loop of [deleteSelectedItem] over [Array.from(this.openFiles.keys())]:
    a [closeTab] that throws ends the loop. *)
Fixpoint closeTabs (normPath : string) (keys : list string) (s : FileManager)
    : Completion :=
  match keys with
  | [] => Returned s
  | filePath :: rest =>
      if deletedWith normPath filePath
      then
        let closed := closeTab filePath s in
        if threw closed then closed else closeTabs normPath rest closed
      else closeTabs normPath rest s
  end.

(** [deleteSelectedItem()], with [confirmed] the answer of [confirm(...)].
    The loop that closes the tabs stands inside the [try]: when a [closeTab]
    throws, the [catch] logs and the handler is over, with the tabs closed so
    far, nothing invalidated or reloaded and the selection as it was. *)
Definition deleteSelectedItem (env : Env) (fenv : FileEnv) (confirmed : bool)
    (s : FileManager) : FileManager :=
  match selectedItem s with
  | None => s
  | Some sel =>
      let normPath := normalizePath (sel_path sel) in
      if negb confirmed then s
      else if negb (deleteItem fenv normPath) then s
      else
        let closed := closeTabs normPath (JsMap.keys (openFiles s)) s in
        if threw closed then stateOf closed
        else
          let s := reloadParent env (orRoot (getParentPath normPath)) closed in
          setSelectedItem None File (with_selectedItem None s)
  end.

(** ** Vocabulary of the properties below *)

(** A file or folder name: not empty, without a slash. *)
Fixpoint noSlash (n : string) : bool :=
  match n with
  | EmptyString => true
  | String c r => negb (Js.isSlash c) && noSlash r
  end.

Definition isName (n : string) : bool := Js.truthy n && noSlash n.

(** The path of the entry [n] in the folder [p]. *)
Definition childPath (p n : string) : string :=
  (if String.eqb p "/" then "" else p) +:+ "/" +:+ n.

(** What the handlers of the tree leave alone: the open files, the active
    tab, the tabs of the page and the current file. *)
Definition tabState (s : FileManager)
    : OpenFiles * option string * list Tab * option string :=
  (openFiles s, activeTab s, fileTabs s, currentFile s).

(** The tabs of the page are the keys of [openFiles], in the same order, and
    no key occurs twice. *)
Definition tabsInSync (s : FileManager) : Prop :=
  List.NoDup (JsMap.keys (openFiles s))
  /\ map tab_file (fileTabs s) = JsMap.keys (openFiles s).

(** The active tab, when there is one, is an open file. *)
Definition activeIsOpen (s : FileManager) : Prop :=
  match activeTab s with
  | Some t => JsMap.has (openFiles s) t = true
  | None => True
  end.

(** Every listing cached in [c] is still the listing cached in [c']. *)
Definition keepsCached (c c' : FolderCache) : Prop :=
  forall k, JsMap.has c k = true -> JsMap.get c' k = JsMap.get c k.

(** Every [data-path] on the page is a fixed point of [normalizePath]. *)
Definition pageNormalized (doc : list Elem) : Prop :=
  Forall (fun p => normalizePath p = p) (Page.paths doc).

(** Every key of the cache and every path of a cached child descriptor is a
    fixed point of [normalizePath]. *)
Definition cacheNormalized (c : FolderCache) : Prop :=
  Forall
    (fun kv =>
       normalizePath (fst kv) = fst kv
       /\ Forall (fun item => normalizePath (item_path item) = item_path item) (snd kv))
    c.

(** The page and the cache hold normalised paths only. *)
Definition normalForms (s : FileManager) : Prop :=
  pageNormalized (fileTree s) /\ cacheNormalized (folderCache s).

(** A step from [s] to [s'] that keeps the normal forms. *)
Definition keepsNormalForms (s s' : FileManager) : Prop :=
  normalForms s -> normalForms s'.

(** A path that can be pasted between the double quotes of a CSS selector
    and be read back as it is: it holds no double quote, no backslash, no
    line feed, carriage return or form feed and no NUL. For such a path
    [querySelector('[data-path="p"]')] compares strings, as [Dom.queryFolder],
    [Dom.queryDataPath] and [Dom.queryTab] do. With a double quote or a line
    break the selector is not valid and [querySelector] throws; a backslash
    starts an escape and another string is looked for. *)
Definition selectorSafeChar (c : ascii) : bool :=
  let n := nat_of_ascii c in
  negb (Nat.eqb n 34 || Nat.eqb n 92 || Nat.eqb n 10 || Nat.eqb n 13
        || Nat.eqb n 12 || Nat.eqb n 0).

Fixpoint selectorSafe (p : string) : bool :=
  match p with
  | EmptyString => true
  | String c r => selectorSafeChar c && selectorSafe r
  end.

Definition selectorSafeOpt (p : option string) : bool :=
  match p with Some q => selectorSafe q | None => true end.

(** Every path that a handler may paste into a selector is safe there: the
    expanded folders of the set and of the page, the open files and their
    tabs, the selection and the current file. *)
Definition selectorSafeState (s : FileManager) : bool :=
  forallb selectorSafe (expandedFolders s)
  && forallb selectorSafe (Dom.expandedPaths (fileTree s))
  && forallb selectorSafe (JsMap.keys (openFiles s))
  && forallb selectorSafe (map tab_file (fileTabs s))
  && selectorSafeOpt (option_map sel_path (selectedItem s))
  && selectorSafeOpt (currentPath s)
  && selectorSafeOpt (currentFile s)
  && selectorSafeOpt (activeTab s).

(** The name of every open file gives a class that [classList.add] takes. *)
Definition namesAccepted (files : OpenFiles) : bool :=
  forallb (fun kv => classListAccepts (languageClass (fd_name (snd kv)))) files.

(** A path as the client sends it to the server: it starts with a slash.
    No such key is the empty string, for which [GET /api/description]
    answers with the whole object, or the name of a property that a plain
    object inherits, such as [__proto__] or [constructor]. *)
Definition slashRooted (p : string) : bool := Js.startsWith p "/".




(** ** Situations of the properties below *)

Module Scenario.

(** As [Sample.env_a], after [g.txt] has been deleted from [/a/sub] by
    somebody else: the folder is empty on the server. *)
Definition env_sub_emptied : Env :=
  mkEnv
    (fun path =>
       match path with
       | Some "/a" => Some (mkTree "a" "/a" Folder (Some true) (Some Sample.children_a))
       | Some "/a/sub" => Some (mkTree "sub" "/a/sub" Folder (Some false) (Some []))
       | Some "/" | None =>
           Some (mkTree "uploads" "" Folder (Some true)
                   (Some [mkItem "a" "/a" Folder (Some true)]))
       | _ => None
       end)
    (Some ∅) (fun _ _ => None) (fun _ _ => true).

(** Every file has the content ["text"] and no description; folders are
    created and items deleted without an error. *)
Definition fenv_ok : FileEnv :=
  mkFileEnv (fun _ => Some "text") (fun _ => Some "") (fun _ _ => true) (fun _ => true).


(** [Sample.state_a] with [g.txt] of [/a/sub] open in a second tab, the
    folder [/a/sub] selected. *)
Definition state_two_tabs : FileManager :=
  with_selectedItem (Some (mkSelection "/a/sub" Folder))
    (with_fileTabs [mkTab "/a/f.txt" "f.txt"; mkTab "/a/sub/g.txt" "g.txt"]
       (with_openFiles
          [("/a/f.txt", mkFileData "f.txt" "text" "" "/a/f.txt");
           ("/a/sub/g.txt", mkFileData "g.txt" "text" "" "/a/sub/g.txt")]
          Sample.state_a)).


(** [f.txt] of [/a] is the active tab; a second tab holds a file whose name
    has a blank after its first dot. The file [/a/f.txt] is selected. *)
Definition state_spaced_name : FileManager :=
  with_fileTabs [mkTab "/a/f.txt" "f.txt"; mkTab "/a/v1.0 final.txt" "v1.0 final.txt"]
    (with_openFiles
       [("/a/f.txt", mkFileData "f.txt" "text" "" "/a/f.txt");
        ("/a/v1.0 final.txt",
         mkFileData "v1.0 final.txt" "text" "" "/a/v1.0 final.txt")]
       Sample.state_a).





End Scenario.

(** * Properties *)

(** ** Strings *)

#[local] Arguments Ascii.eqb : simpl never.
#[local] Arguments Js.isSlash : simpl never.

Section StringFacts.

Implicit Types s t p r : string.

Lemma str_app_cons c s t : String c s +:+ t = String c (s +:+ t).
Proof. reflexivity. Qed.

Lemma str_app_empty_l s : "" +:+ s = s.
Proof. reflexivity. Qed.

Lemma str_app_empty_r s : s +:+ "" = s.
Proof. induction s as [|c s IH]; [reflexivity|]. now rewrite str_app_cons, IH. Qed.

Lemma str_app_assoc s t r : (s +:+ t) +:+ r = s +:+ (t +:+ r).
Proof. induction s as [|c s IH]; [reflexivity|]. now rewrite !str_app_cons, IH. Qed.

Lemma str_app_length s t : String.length (s +:+ t) = String.length s + String.length t.
Proof. induction s as [|c s IH]; [reflexivity|]. rewrite str_app_cons. simpl. now rewrite IH. Qed.

Lemma stripPrefix_app p r : Js.stripPrefix p (p +:+ r) = Some r.
Proof.
  induction p as [|c p IH]; [reflexivity|].
  rewrite str_app_cons. simpl. now rewrite Ascii.eqb_refl.
Qed.

Lemma stripPrefix_Some p s r : Js.stripPrefix p s = Some r -> s = p +:+ r.
Proof.
  revert s; induction p as [|c p IH]; intros s H; simpl in H.
  - now inversion H.
  - destruct s as [|b s]; [discriminate|].
    destruct (Ascii.eqb c b) eqn:E; [|discriminate].
    apply Ascii.eqb_eq in E; subst b.
    rewrite str_app_cons. f_equal. now apply IH.
Qed.

Lemma startsWith_true s p : Js.startsWith s p = true <-> exists r, s = p +:+ r.
Proof.
  unfold Js.startsWith. split.
  - destruct (Js.stripPrefix p s) as [r|] eqn:E; [|discriminate].
    intros _. exists r. now apply stripPrefix_Some.
  - intros [r ->]. now rewrite stripPrefix_app.
Qed.

Lemma startsWith_slash_cons c s :
  Js.startsWith (String c s) "/" = Js.isSlash c.
Proof.
  unfold Js.startsWith, Js.isSlash. simpl.
  rewrite (Ascii.eqb_sym "/"%char c). now destruct (Ascii.eqb c "/").
Qed.

(** The first occurrence of a prefix is the prefix itself. *)
Lemma findFirst_prefix p r : Js.findFirst p (p +:+ r) = Some ("", r).
Proof.
  destruct (p +:+ r) as [|c s] eqn:E; simpl; rewrite <- E, stripPrefix_app; reflexivity.
Qed.

End StringFacts.

(** ** Path normalisation *)

Section Normalize.

Implicit Types s t p : string.

Lemma endsWithSlash_cons c s :
  Js.endsWithSlash (String c s)
  = match s with EmptyString => Js.isSlash c | _ => Js.endsWithSlash s end.
Proof. destruct s; reflexivity. Qed.

Lemma stripLeading_head s : Js.startsWith (Js.stripLeadingSlashes s) "/" = false.
Proof.
  induction s as [|c s IH]; [reflexivity|]. simpl.
  destruct (Js.isSlash c) eqn:E; [exact IH|].
  now rewrite startsWith_slash_cons.
Qed.

Lemma stripLeading_id s : Js.startsWith s "/" = false -> Js.stripLeadingSlashes s = s.
Proof.
  destruct s as [|c s]; [reflexivity|].
  rewrite startsWith_slash_cons. simpl. now intros ->.
Qed.

Lemma stripTrailing_cons c s :
  Js.stripTrailingSlashes (String c s)
  = match Js.stripTrailingSlashes s with
    | EmptyString => if Js.isSlash c then "" else String c ""
    | r => String c r
    end.
Proof. reflexivity. Qed.

Lemma stripTrailing_end s : Js.endsWithSlash (Js.stripTrailingSlashes s) = false.
Proof.
  induction s as [|c s IH]; [reflexivity|].
  rewrite stripTrailing_cons.
  destruct (Js.stripTrailingSlashes s) as [|d r] eqn:E.
  - destruct (Js.isSlash c) eqn:Ec; [reflexivity|]. simpl. exact Ec.
  - rewrite endsWithSlash_cons. exact IH.
Qed.

Lemma stripTrailing_id s : Js.endsWithSlash s = false -> Js.stripTrailingSlashes s = s.
Proof.
  induction s as [|c s IH]; [reflexivity|].
  rewrite endsWithSlash_cons, stripTrailing_cons.
  destruct s as [|d r].
  - simpl. now intros ->.
  - intros H. now rewrite (IH H).
Qed.

Lemma stripTrailing_head s :
  Js.startsWith s "/" = false -> Js.startsWith (Js.stripTrailingSlashes s) "/" = false.
Proof.
  destruct s as [|c s]; [reflexivity|].
  rewrite startsWith_slash_cons, stripTrailing_cons. intros Hc.
  destruct (Js.stripTrailingSlashes s); rewrite ?Hc, startsWith_slash_cons; exact Hc.
Qed.

Lemma trimSlashes_head p : Js.startsWith (Js.trimSlashes p) "/" = false.
Proof. apply stripTrailing_head, stripLeading_head. Qed.

Lemma trimSlashes_end p : Js.endsWithSlash (Js.trimSlashes p) = false.
Proof. apply stripTrailing_end. Qed.

(** A string that neither starts nor ends with a slash is left alone, also
    behind one more leading slash. *)
Lemma trimSlashes_slash_app t :
  Js.startsWith t "/" = false -> Js.endsWithSlash t = false ->
  Js.trimSlashes ("/" +:+ t) = t.
Proof.
  intros Hh He. unfold Js.trimSlashes.
  change ("/" +:+ t) with (String "/" t). simpl.
  change (Js.isSlash "/") with true. simpl.
  now rewrite (stripLeading_id _ Hh), (stripTrailing_id _ He).
Qed.

(** [normalizePath] in one line: the root for an input without a segment,
    the trimmed input behind one slash otherwise. *)
Lemma normalizePath_eq p :
  normalizePath p
  = if String.eqb (Js.trimSlashes p) "" then "/" else "/" +:+ Js.trimSlashes p.
Proof.
  unfold normalizePath.
  destruct (String.eqb p "/") eqn:E1.
  { apply String.eqb_eq in E1; subst p. reflexivity. }
  unfold Js.truthy.
  destruct (String.eqb p "") eqn:E2.
  { apply String.eqb_eq in E2; subst p. reflexivity. }
  simpl. destruct (String.eqb (Js.trimSlashes p) ""); [reflexivity|].
  now rewrite trimSlashes_head.
Qed.

Lemma normalizePath_fixed t :
  t <> "" -> Js.startsWith t "/" = false -> Js.endsWithSlash t = false ->
  normalizePath ("/" +:+ t) = "/" +:+ t.
Proof.
  intros Hne Hh He. rewrite normalizePath_eq, (trimSlashes_slash_app _ Hh He).
  apply String.eqb_neq in Hne. now rewrite Hne.
Qed.

(** C6. [normalizePath] is idempotent: normalising a normalised path changes
    nothing, whatever the input string was. *)
Theorem normalizePath_idempotent p :
  normalizePath (normalizePath p) = normalizePath p.
Proof.
  rewrite (normalizePath_eq p).
  destruct (String.eqb (Js.trimSlashes p) "") eqn:E; [reflexivity|].
  apply normalizePath_fixed.
  - now apply String.eqb_neq.
  - apply trimSlashes_head.
  - apply trimSlashes_end.
Qed.

Example normalizePath_idempotent_examples :
  map (fun p => normalizePath (normalizePath p)) [""; "/"; "a/b/"; "/a//b"]
  = map normalizePath [""; "/"; "a/b/"; "/a//b"].
Proof. reflexivity. Qed.

(** *** Segments *)

Lemma split_cons s : exists seg segs, Js.split s = seg :: segs.
Proof.
  induction s as [|c s [seg [segs IH]]]; simpl; [eauto|].
  destruct (Js.isSlash c); [eauto|]. rewrite IH. eauto.
Qed.

Lemma split_head s :
  Js.truthy (hd "" (Js.split s)) = negb (String.eqb s "") && negb (Js.startsWith s "/").
Proof.
  destruct s as [|c s]; [reflexivity|].
  rewrite startsWith_slash_cons. simpl.
  destruct (Js.isSlash c); [reflexivity|].
  destruct (split_cons s) as [seg [segs ->]]. reflexivity.
Qed.

Lemma hasDoubleSlash_cons a b r :
  Js.hasDoubleSlash (String a (String b r))
  = (Js.isSlash a && Js.isSlash b) || Js.hasDoubleSlash (String b r).
Proof. reflexivity. Qed.

Lemma forallb_hd_tl (f : string -> bool) (l : list string) :
  l <> [] -> forallb f l = f (hd "" l) && forallb f (tl l).
Proof. destruct l; [congruence|reflexivity]. Qed.

Lemma split_not_nil s : Js.split s <> [].
Proof. destruct (split_cons s) as [seg [segs ->]]. discriminate. Qed.

Lemma split_tail s :
  forallb Js.truthy (tl (Js.split s))
  = negb (Js.endsWithSlash s) && negb (Js.hasDoubleSlash s).
Proof.
  induction s as [|c s IH]; [reflexivity|].
  rewrite endsWithSlash_cons.
  change (Js.split (String c s))
    with (if Js.isSlash c then "" :: Js.split s
          else match Js.split s with
               | seg :: segs => String c seg :: segs
               | [] => [String c ""]
               end).
  destruct (Js.isSlash c) eqn:Ec.
  - change (tl ("" :: Js.split s)) with (Js.split s).
    rewrite (forallb_hd_tl _ _ (split_not_nil s)), split_head, IH.
    destruct s as [|d r]; [reflexivity|].
    rewrite hasDoubleSlash_cons, startsWith_slash_cons, Ec.
    change (String.eqb (String d r) "") with false.
    destruct (Js.isSlash d), (Js.endsWithSlash (String d r)),
      (Js.hasDoubleSlash (String d r)); reflexivity.
  - destruct (split_cons s) as [seg [segs E]]. rewrite E in IH |- *.
    change (tl (String c seg :: segs)) with (tl (seg :: segs)). rewrite IH.
    destruct s as [|d r]; [reflexivity|].
    now rewrite hasDoubleSlash_cons, Ec.
Qed.

Lemma split_all_truthy s :
  forallb Js.truthy (Js.split s)
  = negb (String.eqb s "") && negb (Js.startsWith s "/")
    && negb (Js.endsWithSlash s) && negb (Js.hasDoubleSlash s).
Proof.
  pose proof (split_head s) as Hh. pose proof (split_tail s) as Ht.
  destruct (split_cons s) as [seg [segs E]]. rewrite E in Hh, Ht |- *.
  simpl in Hh, Ht |- *. rewrite Hh, Ht. now rewrite <- !andb_assoc.
Qed.

Lemma stripLeading_empty s :
  String.eqb (Js.stripLeadingSlashes s) "" = Js.onlySlashes s.
Proof.
  induction s as [|c s IH]; [reflexivity|]. simpl.
  now destruct (Js.isSlash c).
Qed.

Lemma stripTrailing_empty s :
  String.eqb (Js.stripTrailingSlashes s) "" = Js.onlySlashes s.
Proof.
  induction s as [|c s IH]; [reflexivity|].
  rewrite stripTrailing_cons. simpl Js.onlySlashes. rewrite <- IH.
  destruct (Js.stripTrailingSlashes s); simpl.
  - now destruct (Js.isSlash c).
  - now rewrite andb_false_r.
Qed.

Lemma trimSlashes_empty p : String.eqb (Js.trimSlashes p) "" = Js.onlySlashes p.
Proof.
  unfold Js.trimSlashes. rewrite stripTrailing_empty, <- (stripLeading_empty p).
  pose proof (stripLeading_head p) as Hh.
  destruct (Js.stripLeadingSlashes p) as [|c r]; [reflexivity|].
  rewrite startsWith_slash_cons in Hh. simpl. now rewrite Hh.
Qed.

(** The claim C3 fails on an input with an empty segment inside:
    [normalizePath] trims the two ends and keeps the interior. *)
Lemma normalizePath_not_canonical :
  normalizePath "a//b" = "/a//b" /\ Spec.canonical (normalizePath "a//b") = false.
Proof. split; reflexivity. Qed.

(** C3, amended. The result of [normalizePath] begins with a slash, is the
    root exactly when the input has nothing but slashes, and has no trailing
    slash unless it is the root; it is canonical, that is also free of empty
    segments, exactly when the trimmed input contains no doubled slash. *)
Theorem normalizePath_shape p :
  Js.startsWith (normalizePath p) "/" = true
  /\ String.eqb (normalizePath p) "/" = Js.onlySlashes p
  /\ String.eqb (normalizePath p) "/" || negb (Js.endsWithSlash (normalizePath p)) = true
  /\ Spec.canonical (normalizePath p) = negb (Js.hasDoubleSlash (Js.trimSlashes p)).
Proof.
  rewrite normalizePath_eq, <- trimSlashes_empty.
  pose proof (trimSlashes_head p) as Hh. pose proof (trimSlashes_end p) as He.
  destruct (Js.trimSlashes p) as [|c t] eqn:E; [repeat split; reflexivity|].
  change (String.eqb (String c t) "") with false. cbv iota.
  change ("/" +:+ String c t) with (String "/" (String c t)).
  assert (Hroot : String.eqb (String "/" (String c t)) "/" = false) by reflexivity.
  assert (Hend : Js.endsWithSlash (String "/" (String c t)) = false) by exact He.
  repeat split.
  - now rewrite Hroot, Hend.
  - unfold Spec.canonical. rewrite Hroot, Hend.
    change (Spec.segments (String "/" (String c t))) with (Js.split (String c t)).
    rewrite split_all_truthy, Hh, He. reflexivity.
Qed.

Lemma normalized_cases d :
  normalizePath d = d ->
  d = "/" \/ exists t, d = "/" +:+ t /\ t <> "" /\ Js.endsWithSlash t = false.
Proof.
  intros Hd. rewrite normalizePath_eq in Hd.
  destruct (String.eqb (Js.trimSlashes d) "") eqn:E; [now left|].
  right. exists (Js.trimSlashes d). split; [now symmetry|]. split.
  - now apply String.eqb_neq.
  - apply trimSlashes_end.
Qed.

End Normalize.

(** ** Sorting by depth *)

Section Sorting.

Context {A : Type} (key : A -> nat).
Implicit Types l : list A.

Lemma insertByKey_In x y l : In y (insertByKey key x l) <-> y = x \/ In y l.
Proof.
  induction l as [|z l IH]; simpl.
  - intuition.
  - destruct (key x <=? key z); simpl; [intuition|]. rewrite IH. intuition.
Qed.

Lemma insertByKey_sorted x l : sortedBy key l -> sortedBy key (insertByKey key x l).
Proof.
  induction l as [|z l IH]; simpl.
  - intros _. split; [intros y []|exact I].
  - intros [Hz Hl]. destruct (key x <=? key z) eqn:E; simpl.
    + apply Nat.leb_le in E. split; [|split; assumption].
      intros y [<-|Hy]; [exact E|]. specialize (Hz y Hy). lia.
    + apply Nat.leb_gt in E. split; [|apply IH, Hl].
      intros y Hy. apply insertByKey_In in Hy as [->|Hy]; [lia|auto].
Qed.

Lemma sortByKey_In x l : In x (sortByKey key l) <-> In x l.
Proof.
  induction l as [|z l IH]; simpl; [reflexivity|].
  rewrite insertByKey_In, IH. intuition.
Qed.

Lemma sortByKey_sorted l : sortedBy key (sortByKey key l).
Proof. induction l as [|z l IH]; simpl; [exact I|]. now apply insertByKey_sorted. Qed.

Lemma sortedBy_app_inv l1 x l2 :
  sortedBy key (l1 ++ x :: l2) -> forall y, In y l2 -> key x <= key y.
Proof.
  induction l1 as [|z l1 IH]; simpl; intros [H1 H2]; [exact H1|]. now apply IH.
Qed.

End Sorting.

(** ** Depth of a path *)

Section Depth.

Implicit Types a d r t : string.

Lemma split_app_slash a r : Js.split (a +:+ "/" +:+ r) = Js.split a ++ Js.split r.
Proof.
  induction a as [|c a IH]; [reflexivity|].
  rewrite str_app_cons. simpl Js.split. rewrite IH.
  destruct (Js.isSlash c); [reflexivity|].
  now destruct (split_cons a) as [seg [segs ->]].
Qed.






End Depth.

(** X1. [restoreExpandedChildren] sorts by the number of pieces between slashes:
    a path comes after every path of the list that it lies below. *)
Lemma restorePaths_ancestors_first parentPath expanded a d before after :
  restorePaths parentPath expanded = before ++ d :: after ->
  In a (restorePaths parentPath expanded) ->
  Js.startsWith d (a +:+ "/") = true ->
  In a before /\ ~ In a (d :: after).
Proof.
  intros Hsplit Ha Hpre.
  apply startsWith_true in Hpre as [r Hr]. rewrite str_app_assoc in Hr.
  assert (Hlt : length (Js.split a) < length (Js.split d)).
  { rewrite Hr, split_app_slash, List.length_app.
    destruct (split_cons r) as [seg [segs ->]]. simpl. lia. }
  assert (Hne : a <> d) by (intros ->; lia).
  assert (Hsorted : sortedBy (fun p => length (Js.split p)) (before ++ d :: after)).
  { rewrite <- Hsplit. apply sortByKey_sorted. }
  assert (Hafter : ~ In a (d :: after)).
  { intros [Heq|Hin]; [congruence|].
    pose proof (sortedBy_app_inv _ _ _ _ Hsorted a Hin). simpl in *. lia. }
  split; [|exact Hafter].
  rewrite Hsplit in Ha. apply in_app_or in Ha as [Ha|Ha]; [exact Ha|contradiction].
Qed.

(** ** Cache invalidation *)

Section Invalidate.

Context {V : Type}.
Implicit Types m : JsMap V.

Lemma keys_filter (g : string -> bool) m (k : string) :
  In k (JsMap.keys (List.filter (fun kv => g (fst kv)) m))
  <-> In k (JsMap.keys m) /\ g k = true.
Proof.
  unfold JsMap.keys. rewrite !in_map_iff. split.
  - intros [[k' v] [<- H]]. apply filter_In in H as [H1 H2]. simpl in *.
    split; [|exact H2]. now exists (k', v).
  - intros [[[k' v] [<- H1]] H2]. exists (k', v). split; [reflexivity|].
    apply filter_In. now split.
Qed.

Lemma get_filter (g : string -> bool) m (k : string) :
  g k = true -> JsMap.get (List.filter (fun kv => g (fst kv)) m) k = JsMap.get m k.
Proof.
  intros Hg. induction m as [|[k' v] m IH]; [reflexivity|]. simpl.
  destruct (g k') eqn:E; simpl; destruct (String.eqb k' k) eqn:Ek; auto.
  apply String.eqb_eq in Ek; subst k'. congruence.
Qed.

End Invalidate.

(** [invalidateLoadedFolders] keeps, in their order and with their values,
    the entries whose key is not the normalised path or below it. *)
Lemma invalidate_filter (path : string) (cache : FolderCache) :
  invalidateLoadedFolders path cache
  = List.filter (fun kv => negb (Spec.isDescendant (normalizePath path) (fst kv))) cache.
Proof.
  unfold invalidateLoadedFolders, Spec.isDescendant.
  destruct (String.eqb (normalizePath path) "/") eqn:E.
  - induction cache as [|kv cache IH]; [reflexivity|]. simpl.
    rewrite orb_true_r. exact IH.
  - apply filter_ext. intros kv. now rewrite orb_false_r.
Qed.

(** C5. For a path [p] in canonical form, [invalidate(p)] removes exactly the
    cached keys [k] with [isDescendant(p, k)]: the other entries stay as they
    were, in their order; invalidating the root leaves no key at all. *)
Theorem invalidate_removes_descendants (p : string) (cache : FolderCache)
    (Hp : normalizePath p = p) :
  invalidateLoadedFolders p cache
    = List.filter (fun kv => negb (Spec.isDescendant p (fst kv))) cache
  /\ (forall k, In k (JsMap.keys (invalidateLoadedFolders p cache))
                <-> In k (JsMap.keys cache) /\ Spec.isDescendant p k = false)
  /\ invalidateLoadedFolders "/" cache = [].
Proof.
  assert (E : invalidateLoadedFolders p cache
              = List.filter (fun kv => negb (Spec.isDescendant p (fst kv))) cache).
  { rewrite invalidate_filter, Hp. reflexivity. }
  split; [exact E|]. split; [|reflexivity].
  intros k. rewrite E, (keys_filter (fun k => negb (Spec.isDescendant p k))).
  now rewrite negb_true_iff.
Qed.

Lemma invalidate_removes_descendants_witness :
  invalidateLoadedFolders "/a" Sample.cache_a
    = List.filter (fun kv => negb (Spec.isDescendant "/a" (fst kv))) Sample.cache_a
  /\ (forall k, In k (JsMap.keys (invalidateLoadedFolders "/a" Sample.cache_a))
                <-> In k (JsMap.keys Sample.cache_a) /\ Spec.isDescendant "/a" k = false)
  /\ invalidateLoadedFolders "/" Sample.cache_a = [].
Proof. apply (invalidate_removes_descendants "/a" Sample.cache_a). reflexivity. Defined.

(** The claim C2 fails: [/a/bc] starts with [/a/], it is a child of [/a] and
    goes with it. *)
Lemma invalidate_a_removes_a_bc :
  JsMap.keys Sample.cache_a = ["/a"; "/a/b"; "/a/bc"; "/x"]
  /\ JsMap.keys (invalidateLoadedFolders "/a" Sample.cache_a) = ["/x"]
  /\ JsMap.has (invalidateLoadedFolders "/a" Sample.cache_a) "/a/bc" = false.
Proof. repeat split. Qed.

(** C2, amended. From a cache with exactly the keys [/a], [/a/b], [/a/bc] and
    [/x], [invalidate("/a")] removes [/a], [/a/b] and [/a/bc]; [/x] is the
    one key that stays. *)
Theorem invalidate_a_keeps_x (cache : FolderCache)
    (Hkeys : forall k, In k (JsMap.keys cache) <-> In k ["/a"; "/a/b"; "/a/bc"; "/x"]) :
  forall k, In k (JsMap.keys (invalidateLoadedFolders "/a" cache)) <-> k = "/x".
Proof.
  intros k. rewrite invalidate_filter.
  rewrite (keys_filter (fun k => negb (Spec.isDescendant (normalizePath "/a") k))).
  rewrite Hkeys. simpl. split.
  - intros [[<-|[<-|[<-|[<-|[]]]]] H]; try discriminate H. reflexivity.
  - intros ->. split; [auto|reflexivity].
Qed.

Lemma invalidate_a_keeps_x_witness :
  In "/x" (JsMap.keys (invalidateLoadedFolders "/a" Sample.cache_a)) <-> "/x" = "/x".
Proof.
  apply (invalidate_a_keeps_x Sample.cache_a).
  intros k. reflexivity.
Defined.

(** ** The rewrites of a rename *)

Section MapFacts.

Context {V : Type}.
Implicit Types m acc : JsMap V.

Lemma set_fresh m k (v : V) :
  ~ In k (JsMap.keys m) -> JsMap.set m k v = m ++ [(k, v)].
Proof.
  induction m as [|[k' v'] m IH]; [reflexivity|]. simpl. intros H.
  destruct (String.eqb k' k) eqn:E.
  - apply String.eqb_eq in E. tauto.
  - rewrite IH; [reflexivity|tauto].
Qed.

Lemma keys_app m1 m2 : JsMap.keys (m1 ++ m2) = JsMap.keys m1 ++ JsMap.keys m2.
Proof. apply map_app. Qed.

(** A loop of [set] calls on keys that are new and pairwise distinct appends
    the entries in the order of the loop. *)
Lemma fold_set_fresh {A : Type} (step : JsMap V -> A -> JsMap V)
    (fk : A -> string) (fv : A -> V) :
  (forall acc x, step acc x = JsMap.set acc (fk x) (fv x)) ->
  forall (l : list A) acc,
    List.NoDup (JsMap.keys acc ++ map fk l) ->
    fold_left step l acc = acc ++ map (fun x => (fk x, fv x)) l.
Proof.
  intros Hstep. induction l as [|x l IH]; intros acc Hnd; simpl.
  - now rewrite app_nil_r.
  - rewrite Hstep, set_fresh.
    + rewrite IH.
      * now rewrite <- List.app_assoc.
      * rewrite keys_app, <- List.app_assoc. exact Hnd.
    + simpl in Hnd. apply NoDup_remove_2 in Hnd.
      intros Hin. apply Hnd, in_or_app. now left.
Qed.

End MapFacts.

Section RenameFacts.

Implicit Types oldPath newPath newName path : string.

Lemma getSubstitution_other matched before after c rest :
  Ascii.eqb c "$" = false ->
  Js.getSubstitution matched before after (String c rest)
  = String c (Js.getSubstitution matched before after rest).
Proof.
  destruct c as [[] [] [] [] [] [] [] []]; intros H;
    first [reflexivity | discriminate H].
Qed.

Lemma getSubstitution_noDollar matched before after template :
  Js.noDollar template = true ->
  Js.getSubstitution matched before after template = template.
Proof.
  induction template as [|c rest IH]; [reflexivity|].
  change (Js.noDollar (String c rest))
    with (negb (Ascii.eqb c "$") && Js.noDollar rest).
  intros H. apply andb_prop in H as [Hc Hrest]. apply negb_true_iff in Hc.
  now rewrite (getSubstitution_other _ _ _ _ _ Hc), (IH Hrest).
Qed.

(** Without a dollar sign in [newPath], [path.replace(oldPath, newPath)] on a
    path that starts with [oldPath] swaps the prefix and keeps the rest. *)
Lemma replace_prefix oldPath newPath rest :
  Js.noDollar newPath = true ->
  Js.replace (oldPath +:+ rest) oldPath newPath = newPath +:+ rest.
Proof.
  intros H. unfold Js.replace.
  now rewrite findFirst_prefix, (getSubstitution_noDollar _ _ _ _ H), str_app_empty_l.
Qed.

Lemma replace_descendant oldPath newPath path :
  Js.noDollar newPath = true ->
  Js.startsWith path (oldPath +:+ "/") = true ->
  Js.replace path oldPath newPath = Spec.rewrite oldPath newPath path.
Proof.
  intros Hd Hs. unfold Spec.rewrite.
  apply startsWith_true in Hs as [suffix ->].
  rewrite stripPrefix_app.
  destruct (String.eqb ((oldPath +:+ "/") +:+ suffix) oldPath) eqn:E.
  - apply String.eqb_eq in E. apply (f_equal String.length) in E.
    rewrite !str_app_length in E. simpl in E. lia.
  - rewrite str_app_assoc. now apply replace_prefix.
Qed.

Lemma rewrite_other oldPath newPath path :
  String.eqb path oldPath = false ->
  Js.startsWith path (oldPath +:+ "/") = false ->
  Spec.rewrite oldPath newPath path = path.
Proof.
  intros E1 E2. unfold Spec.rewrite, Js.startsWith in *. rewrite E1.
  now destruct (Js.stripPrefix (oldPath +:+ "/") path).
Qed.

Lemma rewrite_exact oldPath newPath : Spec.rewrite oldPath newPath oldPath = newPath.
Proof. unfold Spec.rewrite. now rewrite String.eqb_refl. Qed.

(** When the new path has no dollar sign and no two keys are rewritten to the
    same path, the [OpenFile] map is rewritten entry by entry, in place. *)
Lemma renameOpenFiles_map oldPath newPath newName (files : OpenFiles) :
  Js.noDollar newPath = true ->
  List.NoDup (map (Spec.rewrite oldPath newPath) (JsMap.keys files)) ->
  renameOpenFiles oldPath newPath newName files
  = map (fun kv => (Spec.rewrite oldPath newPath (fst kv),
                    Spec.renamedFile oldPath newPath newName (fst kv) (snd kv)))
      files.
Proof.
  intros Hd Hnd. unfold renameOpenFiles.
  rewrite (fold_set_fresh _ (fun kv => Spec.rewrite oldPath newPath (fst kv))
             (fun kv => Spec.renamedFile oldPath newPath newName (fst kv) (snd kv))).
  - reflexivity.
  - intros acc [path fd]. unfold Spec.renamedFile. simpl.
    destruct (String.eqb path oldPath) eqn:E1.
    { apply String.eqb_eq in E1; subst path. now rewrite rewrite_exact. }
    destruct (Js.startsWith path (oldPath +:+ "/")) eqn:E2.
    + now rewrite (replace_descendant _ _ _ Hd E2).
    + now rewrite (rewrite_other _ _ _ E1 E2).
  - simpl. unfold JsMap.keys in Hnd. now rewrite List.map_map in Hnd.
Qed.

(** X2. Under the same conditions the cache is rewritten in place: every key,
    and the paths of the child descriptors in the entries below [oldPath];
    the descriptors of the entry of [oldPath] itself are stored as they were. *)
Lemma renameCache_map oldPath newPath (cache : FolderCache) :
  Js.noDollar newPath = true ->
  List.NoDup (map (Spec.rewrite oldPath newPath) (JsMap.keys cache)) ->
  renameCache oldPath newPath cache
  = map (fun kv =>
           (Spec.rewrite oldPath newPath (fst kv),
            if String.eqb (fst kv) oldPath then snd kv
            else if Js.startsWith (fst kv) (oldPath +:+ "/")
            then map (fun item =>
                        mkItem (item_name item)
                          (Js.replace (item_path item) oldPath newPath)
                          (item_type item) (item_hasChildren item)) (snd kv)
            else snd kv))
      cache.
Proof.
  intros Hd Hnd. unfold renameCache.
  rewrite (fold_set_fresh _ (fun kv => Spec.rewrite oldPath newPath (fst kv))
             (fun kv =>
                if String.eqb (fst kv) oldPath then snd kv
                else if Js.startsWith (fst kv) (oldPath +:+ "/")
                then map (fun item =>
                            mkItem (item_name item)
                              (Js.replace (item_path item) oldPath newPath)
                              (item_type item) (item_hasChildren item)) (snd kv)
                else snd kv)).
  - reflexivity.
  - intros acc [path data]. simpl.
    destruct (String.eqb path oldPath) eqn:E1.
    { apply String.eqb_eq in E1; subst path. now rewrite rewrite_exact. }
    destruct (Js.startsWith path (oldPath +:+ "/")) eqn:E2.
    + now rewrite (replace_descendant _ _ _ Hd E2).
    + now rewrite (rewrite_other _ _ _ E1 E2).
  - simpl. unfold JsMap.keys in Hnd. now rewrite List.map_map in Hnd.
Qed.

(** The example of the specification: [/docs] becomes [/documents], the two
    open files below it follow, their names stay, the third file is not
    touched. *)
Example rename_docs_to_documents :
  renameOpenFiles "/docs" "/documents" "documents" Sample.files_docs
  = [("/documents/readme.txt",
      mkFileData "readme.txt" "hello" "" "/documents/readme.txt");
     ("/documents/sub/notes.txt",
      mkFileData "notes.txt" "n" "" "/documents/sub/notes.txt");
     ("/other.txt", mkFileData "other.txt" "o" "" "/other.txt")].
Proof. reflexivity. Qed.

(** C1, where the code departs from it. On the entry keyed by [oldPath]
    itself [confirmRename] moves the key and stores the child descriptors as
    they are: under [/documents] the children still carry [/docs/...], while
    the entry of the subfolder has its descriptors rewritten. The invalidation
    of the parent that follows in the same handler then drops both rewritten
    entries. *)
Theorem renameCache_exact_key_keeps_child_paths :
  renameCache "/docs" "/documents" Sample.cache_docs
  = [("/", [mkItem "docs" "/docs" Folder (Some true)]);
     ("/documents", [mkItem "readme.txt" "/docs/readme.txt" File None;
                     mkItem "sub" "/docs/sub" Folder (Some true)]);
     ("/documents/sub", [mkItem "notes.txt" "/documents/sub/notes.txt" File None])]
  /\ invalidateLoadedFolders (orRoot (getParentPath "/docs"))
       (renameCache "/docs" "/documents" Sample.cache_docs) = [].
Proof. split; reflexivity. Qed.

(** C7, where the code departs from it. The folder [/docs] is renamed to
    [a$$b]: the server answers [/a$$b], and [path.replace(oldPath, newPath)]
    reads [$$] in its replacement text as one dollar sign, so the open files
    below the folder are keyed under [/a$b], a folder that does not exist. *)
Theorem renameOpenFiles_dollar_in_new_name :
  putRename (Sample.env_renamed "a$$b") "/docs" "a$$b" = Some (Some "/a$$b")
  /\ JsMap.keys (openFiles (confirmRename (Sample.env_renamed "a$$b") "a$$b" Sample.state_docs))
     = ["/a$b/readme.txt"; "/a$b/sub/notes.txt"; "/other.txt"]
  /\ map (Spec.rewrite "/docs" "/a$$b") (JsMap.keys (openFiles Sample.state_docs))
     = ["/a$$b/readme.txt"; "/a$$b/sub/notes.txt"; "/other.txt"].
Proof. repeat split; vm_compute; reflexivity. Qed.

End RenameFacts.

(** ** What the handlers do to the cache *)

Section CacheFrame.

Implicit Types s : FileManager.

Lemma get_set {V : Type} (m : JsMap V) k k' (v : V) :
  JsMap.get (JsMap.set m k v) k' = if String.eqb k k' then Some v else JsMap.get m k'.
Proof.
  induction m as [|[k0 v0] m IH]; simpl.
  - reflexivity.
  - destruct (String.eqb k0 k) eqn:E; simpl.
    + apply String.eqb_eq in E; subst k0. now destruct (String.eqb k k').
    + rewrite IH. destruct (String.eqb k0 k') eqn:E'; [|reflexivity].
      apply String.eqb_eq in E'; subst k0. now rewrite String.eqb_sym, E.
Qed.

Lemma keys_set {V : Type} (m : JsMap V) k (v : V) k' :
  In k' (JsMap.keys (JsMap.set m k v)) <-> k' = k \/ In k' (JsMap.keys m).
Proof.
  induction m as [|[k0 v0] m IH]; simpl.
  - intuition.
  - destruct (String.eqb k0 k) eqn:E; simpl.
    + apply String.eqb_eq in E; subst k0. intuition.
    + rewrite IH. intuition.
Qed.

(** Rendering and the loads that [restoreExpandedChildren] starts write the
    page and the list of running promises, nothing else. *)
Lemma loadFolderChildren_begin_shape folderPath container level s :
  exists T, fst (loadFolderChildren_begin folderPath container level s) = with_fileTree T s.
Proof.
  unfold loadFolderChildren_begin. destruct container as [c|].
  - destruct (JsMap.has (folderCache s) (normalizePath folderPath)); eexists; reflexivity.
  - exists (fileTree s). now destruct s.
Qed.

(** [loadFolderChildren] writes the page and at most the cache entry of the
    folder it loads. *)
Lemma loadFolderChildren_shape env folderPath container level s :
  exists T C,
    loadFolderChildren env folderPath container level s
      = with_fileTree T (with_folderCache C s)
    /\ (C = folderCache s
        \/ exists children,
             C = JsMap.set (folderCache s) (normalizePath folderPath) children).
Proof.
  unfold loadFolderChildren.
  destruct (loadFolderChildren_begin_shape folderPath container level s) as [T HT].
  destruct (loadFolderChildren_begin folderPath container level s) as [s1 sent].
  simpl in HT. subst s1.
  assert (Hsame : exists T0 C,
            with_fileTree T s = with_fileTree T0 (with_folderCache C s)
            /\ (C = folderCache s
                \/ exists children,
                     C = JsMap.set (folderCache s) (normalizePath folderPath) children)).
  { exists T, (folderCache s). split; [now destruct s|now left]. }
  destruct sent, container as [c|]; try exact Hsame.
  unfold loadFolderChildren_resume.
  destruct (getTree env (Some (normalizePath folderPath))) as [folder|].
  - eexists; eexists. split; [reflexivity|]. right. eexists. reflexivity.
  - eexists; exists (folderCache s). split; [now destruct s|now left].
Qed.

(** *** The promises a handler leaves behind *)

Lemma stripTrailing_app (x y : string) :
  Js.stripTrailingSlashes (x +:+ y)
  = match Js.stripTrailingSlashes y with
    | EmptyString => Js.stripTrailingSlashes x
    | y' => x +:+ y'
    end.
Proof.
  induction x as [|c x IH].
  - rewrite str_app_empty_l. now destruct (Js.stripTrailingSlashes y).
  - rewrite str_app_cons, !stripTrailing_cons, IH.
    destruct (Js.stripTrailingSlashes y) as [|d y']; [reflexivity|].
    rewrite !str_app_cons. now destruct (x +:+ String d y') eqn:E;
      [destruct x; discriminate E|].
Qed.

(** Normalising a path that lies below a normalised folder gives that folder
    or a path below it. *)
Lemma normalizePath_below q p :
  normalizePath q = q -> q <> "/" -> Js.startsWith p (q +:+ "/") = true ->
  Spec.isDescendant q (normalizePath p) = true.
Proof.
  intros Hq Hroot Hpre.
  destruct (normalized_cases q Hq) as [->|[t [Hqt [Ht Het]]]]; [congruence|].
  assert (Hth : Js.startsWith t "/" = false).
  { pose proof (trimSlashes_head q) as H. rewrite normalizePath_eq in Hq.
    destruct (String.eqb (Js.trimSlashes q) "") eqn:E; [congruence|].
    rewrite <- Hq in Hqt. change ("/" +:+ Js.trimSlashes q) with (String "/" (Js.trimSlashes q)) in Hqt.
    change ("/" +:+ t) with (String "/" t) in Hqt. injection Hqt as <-. exact H. }
  apply startsWith_true in Hpre as [rest ->].
  rewrite normalizePath_eq. unfold Js.trimSlashes.
  rewrite Hqt. change ((("/" +:+ t) +:+ "/") +:+ rest) with (String "/" ((t +:+ "/") +:+ rest)).
  simpl Js.stripLeadingSlashes. change (Js.isSlash "/") with true. cbv iota.
  rewrite str_app_assoc.
  rewrite stripLeading_id.
  2:{ destruct t as [|c t']; [congruence|]. rewrite str_app_cons, startsWith_slash_cons.
      now rewrite startsWith_slash_cons in Hth. }
  rewrite stripTrailing_app.
  change ("/" +:+ rest) with (String "/" rest). rewrite stripTrailing_cons.
  change (Js.isSlash "/") with true.
  unfold Spec.isDescendant.
  destruct (Js.stripTrailingSlashes rest) as [|c rest'] eqn:Er.
  - rewrite (stripTrailing_id _ Het).
    destruct t as [|c t']; [congruence|].
    change (String.eqb (String c t') "") with false. cbv iota.
    now rewrite String.eqb_refl.
  - assert (Hne : String.eqb (t +:+ String "/" (String c rest')) "" = false)
      by (destruct t; reflexivity).
    rewrite Hne.
    replace ("/" +:+ t +:+ String "/" (String c rest'))
      with ((("/" +:+ t) +:+ "/") +:+ String c rest')
      by (now rewrite !str_app_assoc).
    unfold Js.startsWith. rewrite stripPrefix_app. now rewrite orb_true_r.
Qed.

Lemma isDescendant_trans a b c :
  a <> "" -> Spec.isDescendant a b = true -> Spec.isDescendant b c = true ->
  Spec.isDescendant a c = true.
Proof.
  intros Ha Hab Hbc. unfold Spec.isDescendant in *.
  destruct (String.eqb a "/") eqn:Eroot; [now rewrite orb_true_r|].
  rewrite orb_false_r in Hab |- *.
  apply orb_prop in Hab as [Hab|Hab].
  { apply String.eqb_eq in Hab. subst b. now rewrite Eroot, orb_false_r in Hbc. }
  apply startsWith_true in Hab as [x ->].
  apply orb_prop in Hbc as [Hbc|Hbc].
  2:{ apply String.eqb_eq in Hbc. apply (f_equal String.length) in Hbc.
      rewrite !str_app_length in Hbc. destruct a; [congruence|].
      simpl in Hbc. lia. }
  apply orb_prop in Hbc as [Hbc|Hbc].
  - apply String.eqb_eq in Hbc. subst c.
    unfold Js.startsWith. rewrite stripPrefix_app. now rewrite orb_true_r.
  - apply startsWith_true in Hbc as [y ->].
    rewrite !str_app_assoc, <- (str_app_assoc a "/").
    unfold Js.startsWith. rewrite stripPrefix_app. now rewrite orb_true_r.
Qed.

Lemma restorePaths_In parentPath expanded p :
  In p (restorePaths parentPath expanded) ->
  Js.startsWith p
    (if negb (String.eqb (normalizePath parentPath) "/")
     then normalizePath parentPath +:+ "/" else "/") = true.
Proof.
  unfold restorePaths. rewrite sortByKey_In, filter_In.
  intros [_ H]. now apply andb_prop in H as [H _].
Qed.

(** The paths that [restoreExpandedChildren(path)] goes through normalise to
    paths below every folder that [path] lies in. *)
Lemma restorePaths_below parent path expanded p :
  normalizePath parent = parent ->
  Spec.isDescendant parent (normalizePath path) = true ->
  In p (restorePaths path expanded) ->
  Spec.isDescendant parent (normalizePath p) = true.
Proof.
  intros Hparent Hpath Hin. apply restorePaths_In in Hin.
  assert (Hne : parent <> "").
  { intros ->. discriminate Hparent. }
  destruct (String.eqb (normalizePath path) "/") eqn:Eroot; simpl in Hin.
  - apply String.eqb_eq in Eroot. rewrite Eroot in Hpath.
    unfold Spec.isDescendant in *.
    apply orb_prop in Hpath as [Hpath|Hpath]; [|now rewrite Hpath, orb_true_r].
    apply orb_prop in Hpath as [Hpath|Hpath].
    + apply String.eqb_eq in Hpath. subst parent. now rewrite orb_true_r.
    + apply startsWith_true in Hpath as [r Hr].
      apply (f_equal String.length) in Hr. rewrite !str_app_length in Hr.
      destruct parent; [congruence|]. simpl in Hr. lia.
  - apply (isDescendant_trans parent (normalizePath path)); [exact Hne|exact Hpath|].
    apply normalizePath_below.
    + apply normalizePath_idempotent.
    + now apply String.eqb_neq.
    + exact Hin.
Qed.

(** What [restoreExpandedChildren] adds to the running promises. *)
Lemma restoreExpandedChildren_spawns parentPath s :
  exists T new,
    restoreExpandedChildren parentPath s
      = with_pending (pending s ++ new) (with_fileTree T s)
    /\ Forall (fun t => In (taskPath t) (restorePaths parentPath (expandedFolders s))) new.
Proof.
  unfold restoreExpandedChildren.
  generalize (restorePaths parentPath (expandedFolders s)). intros paths.
  assert (H : forall s0,
            exists T new,
              fold_left
                (fun s1 path =>
                   match Dom.queryFolder path (fileTree s1) with
                   | Some (h, _) =>
                       if h_hasChildren h then spawnLoad path (h_level h) s1 else s1
                   | None => s1
                   end) paths s0
              = with_pending (pending s0 ++ new) (with_fileTree T s0)
              /\ Forall (fun t => In (taskPath t) paths) new).
  { induction paths as [|path paths IH]; intros s0.
    { exists (fileTree s0), []. split; [|constructor].
      rewrite List.app_nil_r. now destruct s0. }
    simpl.
    assert (Hstep : exists T0 new0,
              match Dom.queryFolder path (fileTree s0) with
              | Some (h, _) =>
                  if h_hasChildren h then spawnLoad path (h_level h) s0 else s0
              | None => s0
              end = with_pending (pending s0 ++ new0) (with_fileTree T0 s0)
              /\ Forall (fun t => taskPath t = path) new0).
    { assert (Hsame : exists T0 new0,
                s0 = with_pending (pending s0 ++ new0) (with_fileTree T0 s0)
                /\ Forall (fun t => taskPath t = path) new0).
      { exists (fileTree s0), []. split; [|constructor].
        rewrite List.app_nil_r. now destruct s0. }
      destruct (Dom.queryFolder path (fileTree s0)) as [[h kids]|]; [|exact Hsame].
      destruct (h_hasChildren h); [|exact Hsame].
      unfold spawnLoad.
      destruct (loadFolderChildren_begin_shape path (Some path) (h_level h) s0) as [T0 HT].
      destruct (loadFolderChildren_begin path (Some path) (h_level h) s0) as [s1 sent].
      simpl in HT. subst s1.
      destruct sent; eexists; eexists; (split; [reflexivity|]); repeat constructor. }
    destruct Hstep as [T0 [new0 [-> Hnew0]]].
    destruct (IH (with_pending (pending s0 ++ new0) (with_fileTree T0 s0)))
      as [T [new [-> Hnew]]].
    exists T, (new0 ++ new). split.
    - simpl. now rewrite List.app_assoc.
    - apply Forall_app. split.
      + eapply List.Forall_impl; [|exact Hnew0]. intros t <-. now left.
      + eapply List.Forall_impl; [|exact Hnew]. intros t Ht. now right. }
  apply H.
Qed.

(** The synchronous part of [restoreExpandedChildren] starts loads and
    leaves the cache as it is. *)
Lemma restoreExpandedChildren_cache parentPath s :
  folderCache (restoreExpandedChildren parentPath s) = folderCache s.
Proof.
  destruct (restoreExpandedChildren_spawns parentPath s) as [T [new [-> _]]].
  reflexivity.
Qed.

(** A promise that settles: what it writes and what it starts. *)
Lemma runTask_spawns env t s :
  exists T C new,
    runTask env t s
      = with_pending (pending s ++ new) (with_fileTree T (with_folderCache C s))
    /\ (C = folderCache s
        \/ exists children,
             C = JsMap.set (folderCache s) (normalizePath (taskPath t)) children)
    /\ Forall (fun t' => In (taskPath t') (restorePaths (taskPath t) (expandedFolders s)))
         new.
Proof.
  assert (Hrestore : forall s0 C,
            (exists T0, s0 = with_fileTree T0 (with_folderCache C s)) ->
            exists T new,
              restoreExpandedChildren (taskPath t) s0
                = with_pending (pending s ++ new) (with_fileTree T (with_folderCache C s))
              /\ Forall (fun t' => In (taskPath t')
                                     (restorePaths (taskPath t) (expandedFolders s))) new).
  { intros s0 C [T0 ->].
    destruct (restoreExpandedChildren_spawns (taskPath t)
                (with_fileTree T0 (with_folderCache C s))) as [T [new [-> Hnew]]].
    exists T, new. split; [reflexivity|exact Hnew]. }
  destruct t as [path container level|path]; simpl.
  - unfold loadFolderChildren_resume.
    destruct (getTree env (Some (normalizePath path))) as [folder|].
    + destruct (Hrestore
                  (renderChildrenFromCache (normalizePath path) container level
                     (with_folderCache
                        (JsMap.set (folderCache s) (normalizePath path)
                           (normalizeChildren
                              (match tree_children folder with
                               | Some l => l
                               | None => []
                               end))) s))
                  (JsMap.set (folderCache s) (normalizePath path)
                     (normalizeChildren
                        (match tree_children folder with
                         | Some l => l
                         | None => []
                         end)))) as [T [new [Heq Hnew]]].
      { eexists. reflexivity. }
      simpl in Heq. rewrite Heq.
      exists T. eexists. exists new. split; [reflexivity|]. split; [|exact Hnew].
      right. eexists. reflexivity.
    + destruct (Hrestore
                  (with_fileTree
                     (Dom.setContainer container [Placeholder "error"] (fileTree s)) s)
                  (folderCache s)) as [T [new [Heq Hnew]]].
      { eexists. now destruct s. }
      simpl in Heq. rewrite Heq.
      exists T, (folderCache s), new. split; [reflexivity|]. split; [now left|exact Hnew].
  - destruct (Hrestore s (folderCache s)) as [T [new [Heq Hnew]]].
    { exists (fileTree s). now destruct s. }
    simpl in Heq. rewrite Heq.
    exists T, (folderCache s), new. split; [reflexivity|]. split; [now left|exact Hnew].
Qed.

(** The invalidation of a folder followed by its reload, as [createFolder],
    [uploadFiles], [deleteSelectedItem], [confirmRename] and
    [saveDescription] do it when the folder's header is on the page. *)
Lemma reload_spawns env parentPath level s :
  exists T C new,
    restoreExpandedChildren parentPath
      (loadFolderChildren env parentPath (Some parentPath) level
         (with_folderCache (invalidateLoadedFolders parentPath (folderCache s)) s))
    = with_pending (pending s ++ new) (with_fileTree T (with_folderCache C s))
    /\ (C = invalidateLoadedFolders parentPath (folderCache s)
        \/ exists children,
             C = JsMap.set (invalidateLoadedFolders parentPath (folderCache s))
                   (normalizePath parentPath) children)
    /\ Forall (fun t => In (taskPath t) (restorePaths parentPath (expandedFolders s))) new.
Proof.
  destruct (loadFolderChildren_shape env parentPath (Some parentPath) level
              (with_folderCache (invalidateLoadedFolders parentPath (folderCache s)) s))
    as [T [C [-> HC]]].
  destruct (restoreExpandedChildren_spawns parentPath
              (with_fileTree T
                 (with_folderCache C
                    (with_folderCache
                       (invalidateLoadedFolders parentPath (folderCache s)) s))))
    as [T' [new [-> Hnew]]].
  exists T', C, new. split; [reflexivity|]. split; [exact HC|exact Hnew].
Qed.

Lemma tasksBelow_spawned parent path expanded new :
  normalizePath parent = parent ->
  Spec.isDescendant parent (normalizePath path) = true ->
  Forall (fun t => In (taskPath t) (restorePaths path expanded)) new ->
  tasksBelow parent new.
Proof.
  intros Hparent Hpath Hnew. unfold tasksBelow.
  eapply List.Forall_impl; [|exact Hnew].
  intros t Ht. now apply (restorePaths_below parent path expanded).
Qed.

(** The frame around the subtree of [parent] is kept by every promise that
    settles. *)
Lemma settles_frame env parent cache0 s s' :
  normalizePath parent = parent ->
  frameOutside parent cache0 s -> settles env s s' -> frameOutside parent cache0 s'.
Proof.
  intros Hparent [Htasks Hcache] Hstep.
  destruct Hstep as [s before after t Hpending].
  rewrite Hpending in Htasks. unfold tasksBelow in Htasks.
  apply Forall_app in Htasks as [Hbefore Hrest].
  apply Forall_cons in Hrest as [Ht Hafter].
  destruct (runTask_spawns env t (with_pending (before ++ after) s))
    as [T [C [new [-> [HC Hnew]]]]].
  split.
  - simpl. unfold tasksBelow. apply Forall_app. split.
    + apply Forall_app. now split.
    + now apply (tasksBelow_spawned parent (taskPath t) (expandedFolders s)).
  - intros key Hkey. simpl. rewrite <- (Hcache key Hkey).
    destruct HC as [-> | [children ->]]; [reflexivity|].
    simpl. rewrite get_set.
    destruct (String.eqb (normalizePath (taskPath t)) key) eqn:E; [|reflexivity].
    apply String.eqb_eq in E. congruence.
Qed.

Lemma settles_star_frame env parent cache0 s s' :
  normalizePath parent = parent ->
  frameOutside parent cache0 s -> settles_star env s s' -> frameOutside parent cache0 s'.
Proof.
  intros Hparent Hs Hstar. induction Hstar as [s|s1 s2 s3 Hstep _ IH]; [exact Hs|].
  apply IH. now apply (settles_frame env parent cache0 s1).
Qed.

(** C8. When the rename request fails, [confirmRename] leaves the client as
    it was: the cache, the expanded set, the open files, the active tab, the
    selection, the descriptions, and the page as well. *)
Theorem confirmRename_failure_touches_nothing env newName s
    (Hfail : forall rd, renameData s = Some rd ->
                        putRename env (sel_path rd) newName = None) :
  confirmRename env newName s = s.
Proof.
  unfold confirmRename.
  destruct (negb (Js.truthy newName)); [reflexivity|].
  destruct (renameData s) as [rd|] eqn:E; [|reflexivity].
  now rewrite (Hfail rd eq_refl).
Qed.

Lemma confirmRename_failure_touches_nothing_witness :
  confirmRename Sample.env_rename_fails "documents" Sample.state_docs = Sample.state_docs.
Proof.
  apply (confirmRename_failure_touches_nothing Sample.env_rename_fails "documents"
           Sample.state_docs).
  intros rd _. reflexivity.
Defined.

(** The claim C4 fails: with [f.txt] and the header of its folder [/a] on the
    page, saving the description invalidates [/a] with everything cached
    below it and fetches [/a] alone; the cached listing of [/a/sub] is gone. *)
Lemma saveDescription_drops_cached_subfolder :
  JsMap.keys (folderCache Sample.state_a) = ["/"; "/a"; "/a/sub"]
  /\ JsMap.keys (folderCache (saveDescription Sample.env_a "note" Sample.state_a))
     = ["/"; "/a"].
Proof. split; vm_compute; reflexivity. Qed.

(** A successful [saveDescription] writes the description into the local
    map and into the open file's entry, and it leaves every cache entry
    outside the subtree of the file's parent folder as it was, also once the
    loads it has started are over. With the file or the parent's header off
    the page the cache is not touched at all; otherwise nothing that was
    cached at or below the parent is left, but for the parent itself. *)
Lemma saveDescription_frame_outside env description s file
    (Hfile : currentFile s = Some file)
    (Hname : Js.truthy file = true)
    (Hpost : postDescription env file description = true) :
  let s' := saveDescription env description s in
  let parent := normalizePath (parentOfCurrentFile file) in
  descriptions s' = <[file := description]> (descriptions s)
  /\ (forall fd, JsMap.get (openFiles s) file = Some fd ->
        JsMap.get (openFiles s') file
        = Some (mkFileData (fd_name fd) (fd_content fd) description (fd_path fd)))
  /\ (forall key, Spec.isDescendant parent key = false ->
        JsMap.get (folderCache s') key = JsMap.get (folderCache s) key)
  /\ (pending s = [] ->
      forall env' s'', settles_star env' s' s'' ->
      forall key, Spec.isDescendant parent key = false ->
        JsMap.get (folderCache s'') key = JsMap.get (folderCache s) key)
  /\ (Dom.queryDataPath file (fileTree s) = None
      \/ Dom.queryFolder (parentOfCurrentFile file) (fileTree s) = None ->
      folderCache s' = folderCache s)
  /\ (Dom.queryDataPath file (fileTree s) <> None ->
      Dom.queryFolder (parentOfCurrentFile file) (fileTree s) <> None ->
      forall key, In key (JsMap.keys (folderCache s')) ->
        Spec.isDescendant parent key = true -> key = parent).
Proof.
  intros s' parent.
  assert (Hparent : normalizePath parent = parent) by apply normalizePath_idempotent.
  assert (Hself : Spec.isDescendant parent parent = true).
  { unfold Spec.isDescendant. now rewrite String.eqb_refl. }
  (* the frame, with the promises, implies the two statements about keys outside *)
  assert (Hframe : frameOutside parent (folderCache s) s' ->
            (forall key, Spec.isDescendant parent key = false ->
               JsMap.get (folderCache s') key = JsMap.get (folderCache s) key)
            /\ (forall env' s'', settles_star env' s' s'' ->
                forall key, Spec.isDescendant parent key = false ->
                  JsMap.get (folderCache s'') key = JsMap.get (folderCache s) key)).
  { intros Hf. split; [apply Hf|]. intros env' s'' Hstar.
    apply (settles_star_frame env' parent (folderCache s) s' s'' Hparent Hf Hstar). }
  assert (Hgoal :
    descriptions s' = <[file := description]> (descriptions s)
    /\ (forall fd, JsMap.get (openFiles s) file = Some fd ->
          JsMap.get (openFiles s') file
          = Some (mkFileData (fd_name fd) (fd_content fd) description (fd_path fd)))
    /\ (forall key, Spec.isDescendant parent key = false ->
          JsMap.get (folderCache s') key = JsMap.get (folderCache s) key)
    /\ (tasksBelow parent (pending s) -> tasksBelow parent (pending s'))
    /\ (Dom.queryDataPath file (fileTree s) = None
        \/ Dom.queryFolder (parentOfCurrentFile file) (fileTree s) = None ->
        folderCache s' = folderCache s)
    /\ (Dom.queryDataPath file (fileTree s) <> None ->
        Dom.queryFolder (parentOfCurrentFile file) (fileTree s) <> None ->
        forall key, In key (JsMap.keys (folderCache s')) ->
          Spec.isDescendant parent key = true -> key = parent)).
  2:{ destruct Hgoal as [H1 [H2 [H3 [H4 [H5 H6]]]]].
      repeat split; try assumption.
      intros Hnone env' s'' Hstar.
      assert (Hf : frameOutside parent (folderCache s) s').
      { split; [|exact H3]. apply H4. rewrite Hnone. constructor. }
      destruct (Hframe Hf) as [_ Hsettled]. exact (Hsettled env' s'' Hstar). }
  clear Hframe. subst s'. unfold saveDescription.
  rewrite Hfile, Hname, Hpost. cbv beta iota zeta. simpl negb. cbv iota.
  set (s1 := with_descriptions (<[file:=description]> (descriptions s)) s).
  set (s2 := match JsMap.get (openFiles s1) file with
             | Some fileData =>
                 with_openFiles
                   (JsMap.set (openFiles s1) file
                      (mkFileData (fd_name fileData) (fd_content fileData) description
                         (fd_path fileData))) s1
             | None => s1
             end).
  assert (Hd2 : descriptions s2 = <[file:=description]> (descriptions s)).
  { subst s2. now destruct (JsMap.get (openFiles s1) file). }
  assert (Ho2 : forall fd, JsMap.get (openFiles s) file = Some fd ->
            JsMap.get (openFiles s2) file
            = Some (mkFileData (fd_name fd) (fd_content fd) description (fd_path fd))).
  { intros fd Hfd. subst s2. change (openFiles s1) with (openFiles s).
    rewrite Hfd. simpl. now rewrite get_set, String.eqb_refl. }
  assert (Hc2 : folderCache s2 = folderCache s).
  { subst s2. now destruct (JsMap.get (openFiles s1) file). }
  assert (Ht2 : fileTree s2 = fileTree s).
  { subst s2. now destruct (JsMap.get (openFiles s1) file). }
  assert (Hp2 : pending s2 = pending s).
  { subst s2. now destruct (JsMap.get (openFiles s1) file). }
  rewrite Ht2. clearbody s2. clear s1.
  destruct (Dom.queryDataPath file (fileTree s)) as [ty|] eqn:Eel.
  2:{ repeat split; auto; congruence. }
  destruct (Dom.queryFolder (parentOfCurrentFile file) (fileTree s)) as [[h kids]|] eqn:Ehd.
  2:{ repeat split; auto; congruence. }
  destruct (reload_spawns env (parentOfCurrentFile file) (h_level h) s2)
    as [T [C [new [-> [HC Hnew]]]]].
  simpl. rewrite Hc2 in HC. fold parent in HC.
  repeat split; auto.
  - intros key Hkey.
    assert (Hinv : JsMap.get (invalidateLoadedFolders (parentOfCurrentFile file)
                                (folderCache s)) key
                   = JsMap.get (folderCache s) key).
    { rewrite invalidate_filter.
      apply (get_filter (fun k => negb (Spec.isDescendant parent k))).
      now rewrite Hkey. }
    destruct HC as [-> | [children ->]]; [exact Hinv|].
    rewrite get_set, Hinv.
    destruct (String.eqb parent key) eqn:E; [|reflexivity].
    apply String.eqb_eq in E. congruence.
  - intros Hbelow. rewrite Hp2. unfold tasksBelow. apply Forall_app. split; [exact Hbelow|].
    now apply (tasksBelow_spawned parent (parentOfCurrentFile file) (expandedFolders s2)).
  - intros [H|H]; discriminate H.
  - intros _ _ key Hin Hdesc.
    assert (Hinv : ~ In key (JsMap.keys (invalidateLoadedFolders
                                            (parentOfCurrentFile file) (folderCache s)))).
    { intros Hk. rewrite invalidate_filter in Hk.
      apply (keys_filter (fun k => negb (Spec.isDescendant parent k))) in Hk as [_ H].
      rewrite Hdesc in H. discriminate H. }
    destruct HC as [-> | [children ->]]; [contradiction|].
    apply keys_set in Hin as [Hin|Hin]; [exact Hin|contradiction].
Qed.

(** [invalidateLoadedFolders] takes the folder itself out of the cache. *)
Lemma invalidate_drops_self path (cache : FolderCache) :
  JsMap.has (invalidateLoadedFolders path cache) (normalizePath path) = false.
Proof.
  unfold JsMap.has.
  destruct (JsMap.get (invalidateLoadedFolders path cache) (normalizePath path))
    as [v|] eqn:E; [exfalso|reflexivity].
  assert (Hin : In (normalizePath path)
                  (JsMap.keys (invalidateLoadedFolders path cache))).
  { revert E. generalize (invalidateLoadedFolders path cache). intros m.
    induction m as [|[k v0] m IH]; simpl; [discriminate|].
    destruct (String.eqb k (normalizePath path)) eqn:Ek.
    - apply String.eqb_eq in Ek. now left.
    - intros H. right. now apply IH. }
  rewrite invalidate_filter in Hin.
  apply (keys_filter
           (fun k => negb (Spec.isDescendant (normalizePath path) k))) in Hin as [_ H].
  unfold Spec.isDescendant in H. now rewrite String.eqb_refl in H.
Qed.

(** What [loadFolderChildren] leaves in the cache for a folder that was not
    cached: the answer of the server, or nothing when the request fails. *)
Lemma loadFolderChildren_miss env folderPath container level s :
  JsMap.has (folderCache s) (normalizePath folderPath) = false ->
  folderCache (loadFolderChildren env folderPath (Some container) level s)
  = match getTree env (Some (normalizePath folderPath)) with
    | Some folder =>
        JsMap.set (folderCache s) (normalizePath folderPath)
          (normalizeChildren
             (match tree_children folder with Some l => l | None => [] end))
    | None => folderCache s
    end.
Proof.
  intros Hmiss. unfold loadFolderChildren, loadFolderChildren_begin. rewrite Hmiss.
  unfold loadFolderChildren_resume.
  now destruct (getTree env (Some (normalizePath folderPath))).
Qed.

(** [saveDescription] with the file and the header of its folder on the
    page: the state in which the folder is invalidated and loaded again. *)
Lemma saveDescription_reload env description s file ty h kids :
  currentFile s = Some file ->
  Js.truthy file = true ->
  postDescription env file description = true ->
  Dom.queryDataPath file (fileTree s) = Some ty ->
  Dom.queryFolder (parentOfCurrentFile file) (fileTree s) = Some (h, kids) ->
  exists s2,
    folderCache s2 = folderCache s
    /\ expandedFolders s2 = expandedFolders s
    /\ pending s2 = pending s
    /\ saveDescription env description s
       = restoreExpandedChildren (parentOfCurrentFile file)
           (loadFolderChildren env (parentOfCurrentFile file)
              (Some (parentOfCurrentFile file)) (h_level h)
              (with_folderCache
                 (invalidateLoadedFolders (parentOfCurrentFile file) (folderCache s2))
                 s2)).
Proof.
  intros Hfile Hname Hpost Hel Hhd. unfold saveDescription.
  rewrite Hfile, Hname, Hpost. cbv beta iota zeta. simpl negb. cbv iota.
  set (s1 := with_descriptions (<[file:=description]> (descriptions s)) s).
  set (s2 := match JsMap.get (openFiles s1) file with
             | Some fileData =>
                 with_openFiles
                   (JsMap.set (openFiles s1) file
                      (mkFileData (fd_name fileData) (fd_content fileData) description
                         (fd_path fileData))) s1
             | None => s1
             end).
  assert (Ht2 : fileTree s2 = fileTree s).
  { subst s2. now destruct (JsMap.get (openFiles s1) file). }
  exists s2. rewrite Ht2, Hel, Hhd.
  repeat split; subst s2; now destruct (JsMap.get (openFiles s1) file).
Qed.

(** C4, amended. A successful [saveDescription], in a state whose paths the
    selectors take as they are, writes the description into the local map
    and into the open file's entry, and it leaves every cache entry outside
    the subtree of the file's parent folder as it was, also once the loads
    it has started are over. With the file or the parent's header off the
    page the cache is not touched at all. Otherwise the parent and all that
    was cached below it are invalidated and the children of the parent are
    requested again: when the server answers, its answer is what the cache
    holds for the parent afterwards, and when the request fails the parent
    stays out of the cache. Nothing else at or below the parent is in the
    cache when the handler ends; the loads it has started and not awaited
    are loads of expanded folders below the parent. *)
Theorem saveDescription_cache_frame env description s file
    (Hfile : currentFile s = Some file)
    (Hname : Js.truthy file = true)
    (Hpost : postDescription env file description = true)
    (Hsafe : selectorSafeState s = true) :
  let s' := saveDescription env description s in
  let parent := normalizePath (parentOfCurrentFile file) in
  descriptions s' = <[file := description]> (descriptions s)
  /\ (forall fd, JsMap.get (openFiles s) file = Some fd ->
        JsMap.get (openFiles s') file
        = Some (mkFileData (fd_name fd) (fd_content fd) description (fd_path fd)))
  /\ (forall key, Spec.isDescendant parent key = false ->
        JsMap.get (folderCache s') key = JsMap.get (folderCache s) key)
  /\ (pending s = [] ->
      forall env' s'', settles_star env' s' s'' ->
      forall key, Spec.isDescendant parent key = false ->
        JsMap.get (folderCache s'') key = JsMap.get (folderCache s) key)
  /\ (Dom.queryDataPath file (fileTree s) = None
      \/ Dom.queryFolder (parentOfCurrentFile file) (fileTree s) = None ->
      folderCache s' = folderCache s /\ pending s' = pending s)
  /\ (Dom.queryDataPath file (fileTree s) <> None ->
      Dom.queryFolder (parentOfCurrentFile file) (fileTree s) <> None ->
      (forall key, In key (JsMap.keys (folderCache s')) ->
         Spec.isDescendant parent key = true -> key = parent)
      /\ match getTree env (Some parent) with
         | Some folder =>
             JsMap.get (folderCache s') parent
             = Some (normalizeChildren
                       (match tree_children folder with Some l => l | None => [] end))
         | None => JsMap.has (folderCache s') parent = false
         end
      /\ exists started,
           pending s' = pending s ++ started
           /\ Forall
                (fun t =>
                   In (taskPath t)
                     (restorePaths (parentOfCurrentFile file) (expandedFolders s)))
                started).
Proof.
  intros s' parent.
  destruct (saveDescription_frame_outside env description s file Hfile Hname Hpost)
    as [H1 [H2 [H3 [H4 [H5 H6]]]]].
  fold s' parent in H1, H2, H3, H4, H5, H6.
  split; [exact H1|]. split; [exact H2|]. split; [exact H3|]. split; [exact H4|].
  split.
  - intros Hoff. split; [now apply H5|].
    subst s'. unfold saveDescription.
    rewrite Hfile, Hname, Hpost. cbv beta iota zeta. simpl negb. cbv iota.
    set (s1 := with_descriptions (<[file:=description]> (descriptions s)) s).
    set (s2 := match JsMap.get (openFiles s1) file with
               | Some fileData =>
                   with_openFiles
                     (JsMap.set (openFiles s1) file
                        (mkFileData (fd_name fileData) (fd_content fileData) description
                           (fd_path fileData))) s1
               | None => s1
               end).
    assert (Ht2 : fileTree s2 = fileTree s).
    { subst s2. now destruct (JsMap.get (openFiles s1) file). }
    assert (Hp2 : pending s2 = pending s).
    { subst s2. now destruct (JsMap.get (openFiles s1) file). }
    rewrite Ht2.
    destruct (Dom.queryDataPath file (fileTree s)) as [ty|]; [|exact Hp2].
    destruct (Dom.queryFolder (parentOfCurrentFile file) (fileTree s)) as [[h kids]|];
      [|exact Hp2].
    destruct Hoff as [Hoff|Hoff]; discriminate Hoff.
  - intros Hel Hhd. split; [now apply H6|].
    destruct (Dom.queryDataPath file (fileTree s)) as [ty|] eqn:Eel; [|congruence].
    destruct (Dom.queryFolder (parentOfCurrentFile file) (fileTree s))
      as [[h kids]|] eqn:Ehd; [|congruence].
    destruct (saveDescription_reload env description s file ty h kids
                Hfile Hname Hpost Eel Ehd) as [s2 [Hc2 [He2 [Hp2 Heq]]]].
    fold s' in Heq. split.
    + rewrite Heq, restoreExpandedChildren_cache, loadFolderChildren_miss
        by apply invalidate_drops_self.
      fold parent. cbn [folderCache with_folderCache].
      destruct (getTree env (Some parent)) as [folder|].
      * now rewrite get_set, String.eqb_refl.
      * apply invalidate_drops_self.
    + destruct (reload_spawns env (parentOfCurrentFile file) (h_level h) s2)
        as [T [C [new [Hspawn [_ Hnew]]]]].
      exists new. rewrite Heq, Hspawn. cbn [pending with_pending].
      rewrite Hp2. split; [reflexivity|]. now rewrite <- He2.
Qed.

Lemma saveDescription_cache_frame_witness :
  descriptions (saveDescription Scenario.env_sub_emptied "note" Sample.state_a)
  = <["/a/f.txt" := "note"]> (descriptions Sample.state_a)
  /\ JsMap.get (folderCache (saveDescription Scenario.env_sub_emptied "note" Sample.state_a))
       "/"
     = JsMap.get (folderCache Sample.state_a) "/"
  /\ JsMap.get (folderCache (saveDescription Scenario.env_sub_emptied "note" Sample.state_a))
       "/a"
     = Some Sample.children_a.
Proof.
  destruct (saveDescription_cache_frame Scenario.env_sub_emptied "note" Sample.state_a
              "/a/f.txt" eq_refl eq_refl eq_refl eq_refl)
    as [Hd [_ [Hframe [_ [_ Hon]]]]].
  split; [exact Hd|]. split; [apply Hframe; reflexivity|].
  destruct Hon as [_ [Hfetched _]].
  - vm_compute. discriminate.
  - vm_compute. discriminate.
  - exact Hfetched.
Defined.

(** With [/a/sub] still expanded the handler leaves its reload running:
    the listing of [/a/sub] is out of the cache until that request is
    answered. *)
Example saveDescription_reloads_expanded_subfolder :
  let s' := saveDescription Sample.env_a "note" Sample.state_a_sub_open in
  pending s' = [AwaitFetch "/a/sub" "/a/sub" 2]
  /\ JsMap.keys (folderCache s') = ["/"; "/a"]
  /\ exists s'',
       settles Sample.env_a s' s''
       /\ pending s'' = []
       /\ JsMap.keys (folderCache s'') = ["/"; "/a"; "/a/sub"].
Proof.
  split; [vm_compute; reflexivity|]. split; [vm_compute; reflexivity|].
  eexists. split.
  - apply (settles_task Sample.env_a _ [] [] (AwaitFetch "/a/sub" "/a/sub" 2)).
    vm_compute. reflexivity.
  - split; vm_compute; reflexivity.
Qed.

End CacheFrame.

(** ** Re-expansion after a full reload *)

Section Reexpand.

Variable env : Env.
Implicit Types paths : list string.
Implicit Types s : FileManager.







End Reexpand.



(** The example of the specification: with [/a] and [/a/b] expanded before
    the reload (here [/a/sub]), the loop asks for the children of [/a], and
    only then turns to the folder below it, which that answer has put on the
    page. *)
Example reexpand_a_then_sub :
  snd (reexpand Sample.env_a (sortByKey depth ["/a/sub"; "/a"]) Sample.state_reloading)
  = [Visit "/a"; Fetch "/a"; Visit "/a/sub"; Fetch "/a/sub"].
Proof. vm_compute. reflexivity. Qed.

(** ** The rename route and the descriptions *)

Section ServerRename.

Implicit Types file : Server.DescriptionsFile.

(** The route moves the description of [oldPath] and touches no other key. *)
Lemma rename_other_keys writeOk oldPath newName file newPath file' key :
  Server.rename true writeOk oldPath newName file = (Some newPath, file') ->
  key <> oldPath -> key <> newPath ->
  Server.readDescriptions file' !! key = Server.readDescriptions file !! key.
Proof.
  unfold Server.rename. simpl.
  destruct (Server.readDescriptions file !! oldPath) as [text|] eqn:E.
  - destruct (Js.truthy text); [destruct writeOk|]; intros H Ho Hn;
      inversion H; subst; try reflexivity.
    simpl. now rewrite lookup_delete_ne, lookup_insert_ne.
  - intros H _ _. now inversion H.
Qed.

Lemma str_app_neq (s t : string) : t <> "" -> s +:+ t <> s.
Proof.
  intros Ht H. apply (f_equal String.length) in H. rewrite str_app_length in H.
  destruct t; [congruence|]. simpl in H. lia.
Qed.

(** Joining pieces with slashes and splitting again gives at least as many
    pieces. *)
Lemma split_join_length (l : list string) :
  length l <= length (Js.split (Js.join l)).
Proof.
  induction l as [|x [|y r] IH].
  - simpl. lia.
  - change (Js.join [x]) with x. destruct (split_cons x) as [seg [segs ->]].
    simpl. lia.
  - change (Js.join (x :: y :: r)) with (x +:+ "/" +:+ Js.join (y :: r)).
    rewrite split_app_slash, List.length_app.
    destruct (split_cons x) as [seg [segs ->]]. simpl in *. lia.
Qed.

(** The path of a sibling with something below it is never the old path. *)
Lemma renamedPath_below_neq oldPath newName suffix :
  Server.renamedPath oldPath newName +:+ "/" +:+ suffix <> oldPath.
Proof.
  intros E. apply (f_equal (fun p => length (Js.split p))) in E.
  rewrite split_app_slash, List.length_app in E.
  pose proof (split_join_length (removelast (Js.split oldPath) ++ [newName])) as Hlen.
  fold (Server.renamedPath oldPath newName) in Hlen.
  rewrite List.length_app in Hlen. simpl in Hlen.
  destruct (split_cons suffix) as [seg [segs Hs]]. rewrite Hs in E. simpl in E.
  assert (Hrl : length (removelast (Js.split oldPath)) + 1 = length (Js.split oldPath)).
  { destruct (split_cons oldPath) as [seg0 [segs0 ->]].
    rewrite (app_removelast_last "" (l := seg0 :: segs0)) at 2 by discriminate.
    rewrite List.length_app. reflexivity. }
  lia.
Qed.

(** The claim C10 fails where a description is left under the new path: the
    routes never remove the descriptions of what is deleted, so a
    [/documents/readme.txt] of earlier days may have left one. After [/docs]
    has become [/documents], the new path of [readme.txt] answers with that
    old text, not with the empty description. *)
Lemma rename_descendant_new_path_not_empty :
  let file := Some (<["/docs/readme.txt" := "A"]> (<["/documents/readme.txt" := "B"]> ∅)) in
  let answer := Server.rename true true "/docs" "documents" file in
  fst answer = Some "/documents"
  /\ Server.getDescription "/docs/readme.txt" (snd answer) = "A"
  /\ Server.getDescription "/documents/readme.txt" (snd answer) = "B"
  /\ Server.getDescription "/documents/readme.txt" (snd answer) <> "".
Proof. vm_compute. repeat split. discriminate. Qed.

(** C10. The rename route, called on a path that starts with a slash,
    re-keys the description stored under [oldPath] itself and no other. A
    description stored for a path [d] below the renamed folder stays under
    [d]: after the rename the old key still answers with the text, and the
    path that [d] has become answers with what was stored under it before
    the rename, which is the empty description when nothing was. *)
Theorem rename_leaves_descendant_descriptions
    writeOk oldPath newName suffix text file newPath file'
    (Hpath : slashRooted oldPath = true)
    (Hok : Server.rename true writeOk oldPath newName file = (Some newPath, file'))
    (Hstored : Server.readDescriptions file !! (oldPath +:+ "/" +:+ suffix) = Some text)
    (Htext : Js.truthy text = true)
    (Hbelow : newPath <> oldPath +:+ "/" +:+ suffix) :
  newPath = Server.renamedPath oldPath newName
  /\ (forall moved, Server.readDescriptions file !! oldPath = Some moved ->
        Js.truthy moved = true -> newPath <> oldPath ->
        Server.readDescriptions file' !! newPath = Some moved
        /\ Server.readDescriptions file' !! oldPath = None)
  /\ (forall key, key <> oldPath -> key <> newPath ->
        Server.readDescriptions file' !! key = Server.readDescriptions file !! key)
  /\ Server.readDescriptions file' !! (oldPath +:+ "/" +:+ suffix) = Some text
  /\ Server.getDescription (oldPath +:+ "/" +:+ suffix) file' = text
  /\ Server.getDescription (newPath +:+ "/" +:+ suffix) file'
     = Server.getDescription (newPath +:+ "/" +:+ suffix) file
  /\ (Server.readDescriptions file !! (newPath +:+ "/" +:+ suffix) = None ->
      Server.getDescription (newPath +:+ "/" +:+ suffix) file' = "").
Proof.
  assert (Hnewpath : newPath = Server.renamedPath oldPath newName).
  { revert Hok. unfold Server.rename. simpl.
    destruct (Server.readDescriptions file !! oldPath) as [t|].
    - destruct (Js.truthy t); [destruct writeOk|]; intros H; now inversion H.
    - intros H; now inversion H. }
  assert (Hkeep : Server.readDescriptions file' !! (oldPath +:+ "/" +:+ suffix)
                  = Some text).
  { rewrite (rename_other_keys _ _ _ _ _ _ _ Hok); [exact Hstored| |congruence].
    apply str_app_neq. discriminate. }
  assert (Hnew : Server.readDescriptions file' !! (newPath +:+ "/" +:+ suffix)
                 = Server.readDescriptions file !! (newPath +:+ "/" +:+ suffix)).
  { apply (rename_other_keys _ _ _ _ _ _ _ Hok).
    - rewrite Hnewpath. apply renamedPath_below_neq.
    - apply str_app_neq. discriminate. }
  split; [exact Hnewpath|]. split; [|split; [|split; [|split; [|split]]]].
  - intros moved Hmoved Htruthy Hrenamed.
    revert Hok. unfold Server.rename. simpl. rewrite Hmoved, Htruthy.
    destruct writeOk; intros Hok; inversion Hok; subst. simpl. split.
    + rewrite lookup_delete_ne by (intros E; apply Hrenamed; now symmetry).
      apply lookup_insert_eq.
    + apply lookup_delete_eq.
  - intros key Ho Hn. now apply (rename_other_keys _ _ _ _ _ _ _ Hok).
  - exact Hkeep.
  - unfold Server.getDescription. now rewrite Hkeep, Htext.
  - unfold Server.getDescription. now rewrite Hnew.
  - intros Hfresh. unfold Server.getDescription. now rewrite Hnew, Hfresh.
Qed.

Lemma rename_leaves_descendant_descriptions_witness :
  Server.getDescription "/docs/readme.txt"
    (snd (Server.rename true true "/docs" "documents" Sample.descriptions_docs))
  = "read me first"
  /\ Server.getDescription "/documents/readme.txt"
       (snd (Server.rename true true "/docs" "documents" Sample.descriptions_docs))
     = "".
Proof.
  destruct (rename_leaves_descendant_descriptions true "/docs" "documents" "readme.txt"
              "read me first" Sample.descriptions_docs "/documents"
              (snd (Server.rename true true "/docs" "documents" Sample.descriptions_docs)))
    as [_ [_ [_ [_ [Hold [_ Hnew]]]]]].
  - reflexivity.
  - vm_compute. reflexivity.
  - vm_compute. reflexivity.
  - reflexivity.
  - discriminate.
  - split; [exact Hold|]. apply Hnew. vm_compute. reflexivity.
Defined.

(** The description of the folder itself does follow the rename. *)
Example rename_moves_folder_description :
  Server.getDescription "/documents"
    (snd (Server.rename true true "/docs" "documents" Sample.descriptions_docs))
  = "manuals".
Proof. vm_compute. reflexivity. Qed.

End ServerRename.

(** ** Sanity checks of the primitives *)

Example normalize_examples :
  map normalizePath [""; "/"; "a/b/"; "/a//b"; "///"; "//x//"]
  = ["/"; "/"; "/a/b"; "/a//b"; "/"; "/x"].
Proof. reflexivity. Qed.

Example replace_examples :
  map (fun r => Js.replace "/docs/readme.txt" "/docs" r)
      ["/documents"; "/a$$b"; "/x$&"; "/plain$"]
  = ["/documents/readme.txt"; "/a$b/readme.txt"; "/x/docs/readme.txt"; "/plain$/readme.txt"].
Proof. reflexivity. Qed.

Example parent_examples :
  map getParentPath ["/"; "/a"; "/a/b"; "a/b/c/"] = [None; Some "/"; Some "/a"; Some "/a/b"].
Proof. reflexivity. Qed.

(** * Properties of the rest of the code *)

(** ** Parents, names and ancestors *)

Section PathAlgebra.

Implicit Types p q n t : string.

Lemma join_cons2 x y (l : list string) :
  Js.join (x :: y :: l) = x +:+ "/" +:+ Js.join (y :: l).
Proof. reflexivity. Qed.

Lemma join_split t : Js.join (Js.split t) = t.
Proof.
  induction t as [|c t IH]; [reflexivity|]. simpl Js.split.
  destruct (split_cons t) as [seg [segs E]]. rewrite E in IH |- *.
  destruct (Js.isSlash c) eqn:Ec.
  - apply Ascii.eqb_eq in Ec. subst c. now rewrite join_cons2, IH.
  - destruct segs as [|y l].
    + change (Js.join [seg]) with seg in IH. now subst.
    + rewrite join_cons2 in IH |- *. rewrite <- IH. reflexivity.
Qed.

Lemma join_snoc (l : list string) x :
  l <> [] -> Js.join (l ++ [x]) = Js.join l +:+ "/" +:+ x.
Proof.
  induction l as [|y l IH]; [congruence|]. intros _.
  destruct l as [|z l]; [reflexivity|].
  change ((y :: z :: l) ++ [x]) with (y :: (z :: l) ++ [x]).
  change ((z :: l) ++ [x]) with (z :: l ++ [x]) at 1.
  rewrite !join_cons2. change (z :: l ++ [x]) with ((z :: l) ++ [x]).
  rewrite IH by discriminate. now rewrite !str_app_assoc.
Qed.

Lemma split_noSlash n : noSlash n = true -> Js.split n = [n].
Proof.
  induction n as [|c n IH]; [reflexivity|]. simpl.
  intros H. apply andb_prop in H as [Hc Hn]. apply negb_true_iff in Hc.
  now rewrite Hc, (IH Hn).
Qed.

Lemma split_segments_noSlash t : Forall (fun x => noSlash x = true) (Js.split t).
Proof.
  induction t as [|c t IH]; [repeat constructor|]. simpl.
  destruct (Js.isSlash c) eqn:Ec; [constructor; [reflexivity|exact IH]|].
  destruct (Js.split t) as [|seg segs]; [repeat constructor; simpl; now rewrite Ec|].
  inversion IH; subst. constructor; [|assumption]. simpl. now rewrite Ec.
Qed.

Lemma filterBoolean_all (l : list string) :
  forallb Js.truthy l = true -> Js.filterBoolean l = l.
Proof.
  induction l as [|x l IH]; [reflexivity|]. simpl.
  intros H. apply andb_prop in H as [Hx Hl]. now rewrite Hx, (IH Hl).
Qed.

(** A canonical path is the root or a slash followed by segments none of
    which is empty. *)
Lemma canonical_iff p :
  Spec.canonical p = true
  <-> p = "/" \/ exists t, p = "/" +:+ t /\ forallb Js.truthy (Js.split t) = true.
Proof.
  split.
  - unfold Spec.canonical. intros H.
    apply andb_prop in H as [H Hseg]. apply andb_prop in H as [Hstart Hend].
    destruct p as [|c p]; [discriminate|].
    rewrite startsWith_slash_cons in Hstart. apply Ascii.eqb_eq in Hstart. subst c.
    destruct p as [|d p]; [now left|]. right. exists (String d p). now split.
  - intros [->|[t [-> Ht]]]; [reflexivity|].
    pose proof Ht as Hall. rewrite split_all_truthy in Hall.
    apply andb_prop in Hall as [Hall _]. apply andb_prop in Hall as [Hall Hend].
    apply andb_prop in Hall as [Hne _].
    destruct t as [|d t]; [discriminate|].
    unfold Spec.canonical. change ("/" +:+ String d t) with (String "/" (String d t)).
    rewrite startsWith_slash_cons.
    change (Spec.segments (String "/" (String d t))) with (Js.split (String d t)).
    rewrite Ht. change (Js.endsWithSlash (String "/" (String d t)))
      with (Js.endsWithSlash (String d t)).
    now rewrite Hend.
Qed.

Lemma canonical_normalized p : Spec.canonical p = true -> normalizePath p = p.
Proof.
  intros H. apply canonical_iff in H as [->|[t [-> Ht]]]; [reflexivity|].
  rewrite split_all_truthy in Ht.
  apply andb_prop in Ht as [Ht _]. apply andb_prop in Ht as [Ht Hend].
  apply andb_prop in Ht as [Hne Hstart].
  apply normalizePath_fixed.
  - intros ->. discriminate.
  - now apply negb_true_iff.
  - now apply negb_true_iff.
Qed.

(** The segments of a child: those of the folder, then the name. *)
Lemma childPath_segments p n :
  Spec.canonical p = true -> isName n = true ->
  exists l,
    childPath p n = "/" +:+ Js.join (l ++ [n])
    /\ Js.split (Js.join (l ++ [n])) = l ++ [n]
    /\ forallb Js.truthy (l ++ [n]) = true
    /\ (p = "/" /\ l = [] \/ p <> "/" /\ l <> [] /\ p = "/" +:+ Js.join l).
Proof.
  intros Hp Hn. unfold isName in Hn. apply andb_prop in Hn as [Hne Hns].
  apply canonical_iff in Hp as [->|[t [-> Ht]]].
  - exists []. simpl. rewrite (split_noSlash _ Hns). simpl. rewrite Hne.
    repeat split; auto.
  - assert (Hroot : String.eqb ("/" +:+ t) "/" = false).
    { destruct t; [discriminate Ht|reflexivity]. }
    exists (Js.split t). unfold childPath. rewrite Hroot.
    assert (Hl : Js.split t <> []) by apply split_not_nil.
    rewrite (join_snoc _ _ Hl), join_split, split_app_slash, (split_noSlash _ Hns).
    rewrite forallb_app, Ht. simpl. rewrite Hne.
    repeat split; auto. right. repeat split; auto.
    intros E. now rewrite E in Hroot.
Qed.

Lemma childPath_canonical p n :
  Spec.canonical p = true -> isName n = true -> Spec.canonical (childPath p n) = true.
Proof.
  intros Hp Hn. destruct (childPath_segments p n Hp Hn) as [l [-> [Hs [Hall _]]]].
  apply canonical_iff. right. eexists. split; [reflexivity|]. now rewrite Hs.
Qed.

Lemma child_parts p n :
  Spec.canonical p = true -> isName n = true ->
  exists l,
    Js.filterBoolean (Js.split (normalizePath (childPath p n))) = l ++ [n]
    /\ (p = "/" /\ l = []
        \/ p <> "/" /\ l <> [] /\ p = "/" +:+ Js.join l
           /\ Js.filterBoolean (Js.split (normalizePath p)) = l).
Proof.
  intros Hp Hn.
  rewrite (canonical_normalized _ (childPath_canonical p n Hp Hn)).
  destruct (childPath_segments p n Hp Hn) as [l [-> [Hs [Hall Hl]]]].
  exists l. split.
  - change ("/" +:+ Js.join (l ++ [n])) with ("" +:+ "/" +:+ Js.join (l ++ [n])).
    rewrite split_app_slash, Hs. simpl. now apply filterBoolean_all.
  - destruct Hl as [Hl|[Hroot [Hne Hpl]]]; [now left|]. right.
    repeat split; auto.
    rewrite (canonical_normalized _ Hp).
    apply canonical_iff in Hp as [->|[t [Hpt Ht]]]; [congruence|].
    assert (Htl : t = Js.join l).
    { rewrite Hpt in Hpl. change ("/" +:+ t) with (String "/" t) in Hpl.
      change ("/" +:+ Js.join l) with (String "/" (Js.join l)) in Hpl. congruence. }
    rewrite Hpt. change ("/" +:+ t) with ("" +:+ "/" +:+ t).
    rewrite split_app_slash. simpl.
    rewrite forallb_app in Hall. apply andb_prop in Hall as [Hall _].
    rewrite (filterBoolean_all _ Ht).
    (* the segments of [t] are [l]: both are all non-empty pieces of the
       same joined string, and [l] was taken as the split of [t] *)
    unfold isName in Hn. apply andb_prop in Hn as [_ Hns].
    subst t.
    rewrite (join_snoc _ _ Hne), split_app_slash, (split_noSlash _ Hns) in Hs.
    now apply app_inv_tail in Hs.
Qed.

Lemma child_not_root p n :
  Spec.canonical p = true -> isName n = true ->
  String.eqb (normalizePath (childPath p n)) "/" = false.
Proof.
  intros Hp Hn.
  rewrite (canonical_normalized _ (childPath_canonical p n Hp Hn)).
  unfold childPath, isName in *. apply andb_prop in Hn as [Hne _].
  destruct n; [discriminate|].
  destruct (String.eqb p "/"); [reflexivity|].
  apply String.eqb_neq. intros E. apply (f_equal String.length) in E.
  rewrite !str_app_length in E. simpl in E. lia.
Qed.

Lemma getParentPath_child p n :
  Spec.canonical p = true -> isName n = true ->
  getParentPath (childPath p n) = Some p.
Proof.
  intros Hp Hn. destruct (child_parts p n Hp Hn) as [l [Hparts Hl]].
  unfold getParentPath.
  rewrite (child_not_root p n Hp Hn), Hparts, removelast_last.
  destruct Hl as [[-> ->]|[_ [Hne [-> _]]]]; [reflexivity|].
  now destruct l.
Qed.

(** X3. The entry [n] of the folder [p] has a canonical path, [p] as its parent
    and [n] as its name. *)
Theorem parent_and_name_of_child p n
    (Hp : Spec.canonical p = true) (Hn : isName n = true) :
  Spec.canonical (childPath p n) = true
  /\ getParentPath (childPath p n) = Some p
  /\ getNameFromPath (childPath p n) = n.
Proof.
  split; [now apply childPath_canonical|].
  split; [now apply getParentPath_child|].
  destruct (child_parts p n Hp Hn) as [l [Hparts _]].
  unfold getNameFromPath. now rewrite Hparts, last_last.
Qed.

Lemma parent_and_name_of_child_witness :
  getParentPath (childPath "/a" "b.txt") = Some "/a"
  /\ getNameFromPath (childPath "/a" "b.txt") = "b.txt".
Proof.
  destruct (parent_and_name_of_child "/a" "b.txt" eq_refl eq_refl) as [_ H]. exact H.
Defined.

Lemma ancestorsFrom_snoc current (l : list string) x :
  ancestorsFrom current (l ++ [x])
  = ancestorsFrom current l ++ [current +:+ "/" +:+ Js.join (l ++ [x])].
Proof.
  revert current. induction l as [|y l IH]; intros current; [reflexivity|].
  change ((y :: l) ++ [x]) with (y :: (l ++ [x])).
  change (ancestorsFrom current (y :: (l ++ [x])))
    with ((current +:+ "/" +:+ y)
            :: ancestorsFrom (current +:+ "/" +:+ y) (l ++ [x])).
  rewrite IH.
  change (ancestorsFrom current (y :: l))
    with ((current +:+ "/" +:+ y) :: ancestorsFrom (current +:+ "/" +:+ y) l).
  rewrite <- app_comm_cons. do 3 f_equal.
  destruct (l ++ [x]) as [|z r] eqn:E; [now destruct l|].
  now rewrite join_cons2, !str_app_assoc.
Qed.

(** X4. [_getAncestorPaths] lists the folders above a path from the top down,
    the root left out: above an entry of the root there is nothing, above an
    entry of another folder there is what is above the folder, then the
    folder. *)
Theorem ancestors_of_child p n
    (Hp : Spec.canonical p = true) (Hn : isName n = true) :
  _getAncestorPaths (childPath p n)
  = if String.eqb p "/" then [] else _getAncestorPaths p ++ [p].
Proof.
  destruct (child_parts p n Hp Hn) as [l [Hparts Hl]].
  unfold _getAncestorPaths at 1.
  rewrite (child_not_root p n Hp Hn), Hparts, removelast_last.
  destruct Hl as [[-> ->]|[Hroot [Hne [Hpl Hpparts]]]]; [reflexivity|].
  apply String.eqb_neq in Hroot. rewrite Hroot.
  unfold _getAncestorPaths. rewrite (canonical_normalized _ Hp), Hroot.
  rewrite (canonical_normalized _ Hp) in Hpparts. rewrite Hpparts.
  rewrite (app_removelast_last "" Hne) at 1.
  rewrite ancestorsFrom_snoc, <- (app_removelast_last "" Hne).
  now rewrite <- Hpl.
Qed.

Lemma ancestors_of_child_witness :
  _getAncestorPaths (childPath "/a/b" "c.txt") = _getAncestorPaths "/a/b" ++ ["/a/b"].
Proof. apply (ancestors_of_child "/a/b" "c.txt"); reflexivity. Defined.

Lemma split_snoc_name x n :
  noSlash n = true -> Js.split (x +:+ "/" +:+ n) = Js.split x ++ [n].
Proof. intros Hn. now rewrite split_app_slash, (split_noSlash _ Hn). Qed.

(** X5. The folder that [saveDescription] reloads, cut out of [currentFile] by
    [split], [slice] and [join], is the parent that [getParentPath] gives. *)
Theorem parentOfCurrentFile_is_parent p n
    (Hp : Spec.canonical p = true) (Hn : isName n = true) :
  parentOfCurrentFile (childPath p n) = p
  /\ getParentPath (childPath p n) = Some (parentOfCurrentFile (childPath p n)).
Proof.
  assert (H : parentOfCurrentFile (childPath p n) = p).
  { unfold isName in Hn. apply andb_prop in Hn as [_ Hns].
    unfold parentOfCurrentFile, childPath.
    rewrite (split_snoc_name _ _ Hns), removelast_last, join_split.
    destruct (String.eqb p "/") eqn:E; [now apply String.eqb_eq in E|].
    apply canonical_iff in Hp as [->|[t [-> _]]]; [discriminate|reflexivity]. }
  split; [exact H|]. rewrite H. now apply getParentPath_child.
Qed.

Lemma parentOfCurrentFile_is_parent_witness :
  parentOfCurrentFile (childPath "/" "f.txt") = "/"
  /\ getParentPath (childPath "/" "f.txt") = Some (parentOfCurrentFile (childPath "/" "f.txt")).
Proof. apply (parentOfCurrentFile_is_parent "/" "f.txt"); reflexivity. Defined.

(** X6. The rename route answers with the path of the sibling that carries the
    new name. The client's own fallback for an answer without [newPath]
    agrees with it below a folder and gives [//name] for an entry of the
    root, whose parent is ["/"] already. *)
Theorem renamedPath_is_sibling p n m
    (Hp : Spec.canonical p = true) (Hn : isName n = true) (Hm : isName m = true) :
  Server.renamedPath (childPath p n) m = childPath p m
  /\ newPathOf (Some (childPath p m)) (childPath p n) m = childPath p m
  /\ newPathOf None (childPath p n) m = p +:+ "/" +:+ m.
Proof.
  unfold isName in Hn, Hm.
  apply andb_prop in Hn as [Hne Hns]. apply andb_prop in Hm as [Hme Hms].
  assert (Hparent : getParentPath (childPath p n) = Some p).
  { apply getParentPath_child; [exact Hp|]. unfold isName. now rewrite Hne, Hns. }
  repeat split.
  - unfold Server.renamedPath, childPath.
    rewrite (split_snoc_name _ _ Hns), removelast_last.
    rewrite join_snoc by apply split_not_nil. now rewrite join_split.
  - unfold newPathOf.
    assert (Ht : Js.truthy (childPath p m) = true).
    { unfold childPath. now destruct (String.eqb p "/"), p. }
    now rewrite Ht.
  - unfold newPathOf. now rewrite Hparent.
Qed.

Lemma renamedPath_is_sibling_witness :
  Server.renamedPath (childPath "/" "docs") "documents" = "/documents"
  /\ newPathOf None (childPath "/" "docs") "documents" = "//documents".
Proof.
  destruct (renamedPath_is_sibling "/" "docs" "documents" eq_refl eq_refl eq_refl)
    as [H1 [_ H3]].
  split; [exact H1|exact H3].
Defined.

End PathAlgebra.

(** ** Writes to the page *)

Section PageFacts.

Lemma Elem_nested_ind (Q : Elem -> Prop) :
  (forall q, Q (FileEl q)) ->
  (forall cls, Q (Placeholder cls)) ->
  (forall h kids, Forall Q kids -> Q (FolderEl h kids)) ->
  forall e, Q e.
Proof.
  intros Hfile Hplace Hfolder. fix IH 1. intros [q|h kids|cls].
  - apply Hfile.
  - apply Hfolder. revert kids. fix IHkids 1. intros [|k kids].
    + constructor.
    + constructor; [apply IH|apply IHkids].
  - apply Hplace.
Qed.

Lemma updFirst_paths (P : string -> Prop) (f : Elem -> option Elem) (l l' : list Elem) :
  Forall
    (fun e => forall e', f e = Some e' ->
                         Forall P (Page.pathsEl e) -> Forall P (Page.pathsEl e')) l ->
  Dom.updFirst f l = Some l' ->
  Forall P (Page.paths l) -> Forall P (Page.paths l').
Proof.
  intros HQ. revert l'.
  induction HQ as [|e l He HQ IH]; intros l' Hupd HP; simpl in Hupd; [discriminate|].
  unfold Page.paths in *. simpl in HP. apply Forall_app in HP as [HPe HPl].
  destruct (f e) as [e1|] eqn:Hf.
  - injection Hupd as <-. simpl. apply Forall_app. split; [now apply He|exact HPl].
  - destruct (Dom.updFirst f l) as [l1|] eqn:Hl; [|discriminate].
    injection Hupd as <-. simpl. apply Forall_app. split; [exact HPe|now apply IH].
Qed.

(** A write through a header keeps a property of the paths of the page when
    it keeps it on the header and on its container. *)
Lemma updateFolder_paths (P : string -> Prop) p g :
  (forall h kids,
     P (h_path h) -> Forall P (Page.paths kids) ->
     P (h_path (fst (g h kids))) /\ Forall P (Page.paths (snd (g h kids)))) ->
  forall doc,
    Forall P (Page.paths doc) -> Forall P (Page.paths (Dom.updateFolder p g doc)).
Proof.
  intros Hg.
  assert (HE : forall e e',
            Dom.updateFolderEl p g e = Some e' ->
            Forall P (Page.pathsEl e) -> Forall P (Page.pathsEl e')).
  { induction e as [q|cls|h kids IHkids] using Elem_nested_ind;
      intros e' Hupd HP; simpl in Hupd; try discriminate.
    destruct (String.eqb (h_path h) p).
    - injection Hupd as <-. simpl in HP. apply Forall_cons in HP as [Hh Hkids].
      specialize (Hg h kids Hh Hkids). destruct (g h kids) as [h' kids'].
      simpl in *. constructor; tauto.
    - destruct (Dom.updFirst (Dom.updateFolderEl p g) kids) as [kids'|] eqn:E;
        [|discriminate].
      injection Hupd as <-. simpl in *. apply Forall_cons in HP as [Hh Hkids].
      constructor; [exact Hh|].
      apply (updFirst_paths P (Dom.updateFolderEl p g) kids kids' IHkids E Hkids). }
  intros doc HP. unfold Dom.updateFolder.
  destruct (Dom.updFirst (Dom.updateFolderEl p g) doc) as [doc'|] eqn:E; [|exact HP].
  apply (updFirst_paths P (Dom.updateFolderEl p g) doc doc'); [|exact E|exact HP].
  apply List.Forall_forall. intros e _. apply HE.
Qed.

Lemma firstSome_updFirst p g (l : list Elem) :
  Forall
    (fun e =>
       (Dom.findFolderEl p e = None -> Dom.updateFolderEl p g e = None)
       /\ (forall h kids,
             Dom.findFolderEl p e = Some (h, kids) ->
             exists e',
               Dom.updateFolderEl p g e = Some e'
               /\ Dom.findFolderEl p e' = Some (g h kids))) l ->
  (Dom.firstSome (Dom.findFolderEl p) l = None ->
   Dom.updFirst (Dom.updateFolderEl p g) l = None)
  /\ (forall h kids,
        Dom.firstSome (Dom.findFolderEl p) l = Some (h, kids) ->
        exists l',
          Dom.updFirst (Dom.updateFolderEl p g) l = Some l'
          /\ Dom.firstSome (Dom.findFolderEl p) l' = Some (g h kids)).
Proof.
  intros HQ. induction HQ as [|e l [HeN HeS] HQ [IHN IHS]]; simpl.
  - split; [reflexivity|discriminate].
  - destruct (Dom.findFolderEl p e) as [[h0 kids0]|] eqn:Hfind.
    + split; [discriminate|]. intros h kids [= <- <-].
      destruct (HeS h0 kids0 eq_refl) as [e' [-> Hfound]].
      eexists. split; [reflexivity|]. simpl. now rewrite Hfound.
    + rewrite (HeN eq_refl). split.
      * intros Hnone. now rewrite (IHN Hnone).
      * intros h kids Hsome. destruct (IHS h kids Hsome) as [l' [-> Hfound]].
        eexists. split; [reflexivity|]. simpl. now rewrite Hfind.
Qed.

(** Reading a header back after a write through it: the write has reached
    the header that [querySelector] finds, which is still the first of its
    path when the write keeps [data-path]. *)
Lemma queryFolder_updateFolder p g doc h kids :
  (forall h0 kids0, h_path (fst (g h0 kids0)) = h_path h0) ->
  Dom.queryFolder p doc = Some (h, kids) ->
  Dom.queryFolder p (Dom.updateFolder p g doc) = Some (g h kids).
Proof.
  intros Hg.
  assert (HE : forall e,
            (Dom.findFolderEl p e = None -> Dom.updateFolderEl p g e = None)
            /\ (forall h kids,
                  Dom.findFolderEl p e = Some (h, kids) ->
                  exists e',
                    Dom.updateFolderEl p g e = Some e'
                    /\ Dom.findFolderEl p e' = Some (g h kids))).
  { induction e as [q|cls|h0 kids0 IHkids] using Elem_nested_ind; simpl;
      try (split; [reflexivity|discriminate]).
    destruct (String.eqb (h_path h0) p) eqn:E.
    - split; [discriminate|]. intros h1 kids1 [= <- <-].
      eexists. split; [reflexivity|].
      specialize (Hg h0 kids0). destruct (g h0 kids0) as [h' kids']. simpl in *.
      now rewrite Hg, E.
    - destruct (firstSome_updFirst p g kids0 IHkids) as [HN HS]. split.
      + intros Hnone. now rewrite (HN Hnone).
      + intros h1 kids1 Hsome. destruct (HS h1 kids1 Hsome) as [l' [-> Hfound]].
        eexists. split; [reflexivity|]. simpl. now rewrite E. }
  intros Hquery. unfold Dom.queryFolder, Dom.updateFolder in *.
  destruct (firstSome_updFirst p g doc) as [_ HS].
  { apply List.Forall_forall. intros e _. apply HE. }
  now destruct (HS h kids Hquery) as [l' [-> Hfound]].
Qed.

Lemma queryFolder_setContainer p (kids' : list Elem) doc h kids :
  Dom.queryFolder p doc = Some (h, kids) ->
  Dom.queryFolder p (Dom.setContainer p kids' doc) = Some (h, kids').
Proof.
  intros H. unfold Dom.setContainer.
  now rewrite (queryFolder_updateFolder p (fun h _ => (h, kids')) doc h kids
                 (fun _ _ => eq_refl) H).
Qed.

Lemma queryFolder_setExpandedAttr p b doc h kids :
  Dom.queryFolder p doc = Some (h, kids) ->
  Dom.queryFolder p (Dom.setExpandedAttr p b doc)
  = Some (mkHeader (h_path h) (h_hasChildren h) b (h_level h), kids).
Proof.
  intros H. unfold Dom.setExpandedAttr.
  now rewrite (queryFolder_updateFolder p
                 (fun h kids => (mkHeader (h_path h) (h_hasChildren h) b (h_level h), kids))
                 doc h kids (fun _ _ => eq_refl) H).
Qed.

Lemma queryFolder_loading p doc h kids :
  Dom.queryFolder p doc = Some (h, kids) ->
  Dom.queryFolder p
    (Dom.updateFolder p
       (fun h kids =>
          (h, match kids with [] => [Placeholder "loading"] | _ => kids end))
       doc)
  = Some (h, match kids with [] => [Placeholder "loading"] | _ => kids end).
Proof.
  intros H.
  now rewrite (queryFolder_updateFolder p
                 (fun h kids =>
                    (h, match kids with [] => [Placeholder "loading"] | _ => kids end))
                 doc h kids (fun _ _ => eq_refl) H).
Qed.

End PageFacts.

(** ** Invalidation and loading *)

Section CacheAlgebra.

Implicit Types s : FileManager.
Implicit Types c : FolderCache.

Lemma filter_filter_andb {A : Type} (f g : A -> bool) (l : list A) :
  List.filter f (List.filter g l) = List.filter (fun x => g x && f x) l.
Proof.
  induction l as [|x l IH]; [reflexivity|]. simpl.
  destruct (g x); simpl; [destruct (f x)|]; now rewrite ?IH.
Qed.

Lemma invalidate_commutes p q c :
  invalidateLoadedFolders p (invalidateLoadedFolders q c)
  = invalidateLoadedFolders q (invalidateLoadedFolders p c).
Proof.
  rewrite !invalidate_filter, !filter_filter_andb.
  apply filter_ext. intros kv. apply andb_comm.
Qed.

(** X7. Invalidating twice is invalidating once, and two invalidations can be
    done in either order. *)
Theorem invalidate_idempotent_commutes p q c :
  invalidateLoadedFolders p (invalidateLoadedFolders p c) = invalidateLoadedFolders p c
  /\ invalidateLoadedFolders p (invalidateLoadedFolders q c)
     = invalidateLoadedFolders q (invalidateLoadedFolders p c).
Proof.
  split; [|apply invalidate_commutes].
  rewrite !invalidate_filter, !filter_filter_andb.
  apply filter_ext. intros kv. now destruct (Spec.isDescendant _ _).
Qed.

Lemma normalizePath_not_empty p : normalizePath p <> "".
Proof.
  rewrite normalizePath_eq. now destruct (String.eqb (Js.trimSlashes p) "").
Qed.

(** X8. Invalidating a folder covers the invalidation of anything at or below
    it. *)
Theorem invalidate_absorbs p q c
    (Hbelow : Spec.isDescendant (normalizePath p) (normalizePath q) = true) :
  invalidateLoadedFolders p (invalidateLoadedFolders q c) = invalidateLoadedFolders p c
  /\ invalidateLoadedFolders q (invalidateLoadedFolders p c) = invalidateLoadedFolders p c.
Proof.
  assert (H : invalidateLoadedFolders p (invalidateLoadedFolders q c)
              = invalidateLoadedFolders p c).
  { rewrite !invalidate_filter, filter_filter_andb. apply filter_ext. intros kv.
    destruct (Spec.isDescendant (normalizePath q) (fst kv)) eqn:E; [|reflexivity].
    rewrite (isDescendant_trans _ _ _ (normalizePath_not_empty p) Hbelow E).
    reflexivity. }
  split; [exact H|].
  rewrite (invalidate_commutes q p c). exact H.
Qed.

Lemma invalidate_absorbs_witness :
  invalidateLoadedFolders "/a" (invalidateLoadedFolders "/a/b" Sample.cache_a)
  = invalidateLoadedFolders "/a" Sample.cache_a.
Proof. apply (invalidate_absorbs "/a" "/a/b" Sample.cache_a). reflexivity. Defined.

Lemma has_get {V : Type} (m : JsMap V) k :
  JsMap.has m k = true <-> exists v, JsMap.get m k = Some v.
Proof.
  unfold JsMap.has. destruct (JsMap.get m k) as [v|].
  - split; [eauto|reflexivity].
  - split; [discriminate|]. intros [v H]. discriminate H.
Qed.

Lemma keepsCached_refl c : keepsCached c c.
Proof. intros k _. reflexivity. Qed.


Lemma keepsCached_set c k (v : list Item) :
  JsMap.has c k = false -> keepsCached c (JsMap.set c k v).
Proof.
  intros Hk k' Hk'. rewrite get_set.
  destruct (String.eqb k k') eqn:E; [|reflexivity].
  apply String.eqb_eq in E. congruence.
Qed.

(** X9. A folder that is cached is served from the cache: the answer of the
    server plays no part, and neither the cache nor the running promises
    change. *)
Theorem loadFolderChildren_cached env env' folderPath container level s
    (Hcached : JsMap.has (folderCache s) (normalizePath folderPath) = true) :
  loadFolderChildren env folderPath container level s
  = loadFolderChildren env' folderPath container level s
  /\ folderCache (loadFolderChildren env folderPath container level s) = folderCache s
  /\ pending (loadFolderChildren env folderPath container level s) = pending s.
Proof.
  unfold loadFolderChildren, loadFolderChildren_begin.
  destruct container as [c0|]; [|now repeat split].
  rewrite Hcached. now repeat split.
Qed.

Lemma loadFolderChildren_cached_witness :
  folderCache (loadFolderChildren Sample.env_rename_fails "/a/sub" (Some "/a/sub") 2
                 Sample.state_a)
  = folderCache Sample.state_a.
Proof.
  destruct (loadFolderChildren_cached Sample.env_rename_fails Sample.env_a
              "/a/sub" (Some "/a/sub") 2 Sample.state_a eq_refl) as [_ [H _]].
  exact H.
Defined.

Lemma normalizeChildren_normalized (children : list Item) :
  Forall (fun item => normalizePath (item_path item) = item_path item)
    (normalizeChildren children).
Proof.
  unfold normalizeChildren. induction children as [|c l IH]; constructor; [|exact IH].
  simpl. apply normalizePath_idempotent.
Qed.

(** X10. A folder that is not cached is requested once. The answer is stored
    under the normalised path of the folder with every child path
    normalised, no other entry of the cache changes, and the container of
    the folder shows the children as they are rendered from the new cache. *)
Theorem loadFolderChildren_stores env folderPath container level s folder
    (Hmiss : JsMap.has (folderCache s) (normalizePath folderPath) = false)
    (Hanswer : getTree env (Some (normalizePath folderPath)) = Some folder) :
  let s' := loadFolderChildren env folderPath (Some container) level s in
  let children :=
    normalizeChildren (match tree_children folder with Some l => l | None => [] end) in
  JsMap.get (folderCache s') (normalizePath folderPath) = Some children
  /\ Forall (fun item => normalizePath (item_path item) = item_path item) children
  /\ (forall k, k <> normalizePath folderPath ->
        JsMap.get (folderCache s') k = JsMap.get (folderCache s) k)
  /\ (forall h kids,
        Dom.queryFolder container (fileTree s) = Some (h, kids) ->
        Dom.queryFolder container (fileTree s')
        = Some (h, map (renderItem (renderFuel (folderCache s')) (folderCache s')
                          (expandedFolders s') (S level)) children)).
Proof.
  intros s' children. subst s'.
  unfold loadFolderChildren, loadFolderChildren_begin. rewrite Hmiss.
  unfold loadFolderChildren_resume. rewrite Hanswer.
  fold children. unfold renderChildrenFromCache.
  cbn [folderCache fileTree expandedFolders with_fileTree with_folderCache].
  rewrite normalizePath_idempotent.
  split; [now rewrite get_set, String.eqb_refl|].
  split; [apply normalizeChildren_normalized|]. split.
  - intros k Hk. rewrite get_set.
    destruct (String.eqb (normalizePath folderPath) k) eqn:E; [|reflexivity].
    apply String.eqb_eq in E. congruence.
  - intros h kids Hquery. rewrite get_set, String.eqb_refl.
    apply (queryFolder_setContainer container _ _ h
             (match kids with [] => [Placeholder "loading"] | _ => kids end)).
    now apply queryFolder_loading.
Qed.

Lemma loadFolderChildren_stores_witness :
  JsMap.get
    (folderCache (loadFolderChildren Sample.env_a "/a/" (Some "/a") 1 Sample.state_reloading))
    "/a"
  = Some Sample.children_a.
Proof.
  destruct (loadFolderChildren_stores Sample.env_a "/a/" "/a" 1 Sample.state_reloading
              (mkTree "a" "/a" Folder (Some true) (Some Sample.children_a))
              eq_refl eq_refl) as [H _].
  exact H.
Defined.

(** X11. When the request fails the cache is as it was and the container of the
    folder shows the error placeholder; without a container nothing happens
    at all. *)
Theorem loadFolderChildren_fails env folderPath container level s
    (Hmiss : JsMap.has (folderCache s) (normalizePath folderPath) = false)
    (Hfail : getTree env (Some (normalizePath folderPath)) = None) :
  let s' := loadFolderChildren env folderPath (Some container) level s in
  folderCache s' = folderCache s
  /\ (forall h kids,
        Dom.queryFolder container (fileTree s) = Some (h, kids) ->
        Dom.queryFolder container (fileTree s') = Some (h, [Placeholder "error"]))
  /\ loadFolderChildren env folderPath None level s = s.
Proof.
  intros s'. subst s'.
  unfold loadFolderChildren, loadFolderChildren_begin. rewrite Hmiss.
  unfold loadFolderChildren_resume. rewrite Hfail.
  cbn [folderCache fileTree with_fileTree].
  split; [reflexivity|]. split; [|reflexivity].
  intros h kids Hquery.
  apply (queryFolder_setContainer container _ _ h
           (match kids with [] => [Placeholder "loading"] | _ => kids end)).
  now apply queryFolder_loading.
Qed.

Lemma loadFolderChildren_fails_witness :
  Dom.queryFolder "/a"
    (fileTree (loadFolderChildren Sample.env_rename_fails "/a" (Some "/a") 1
                 Sample.state_reloading))
  = Some (mkHeader "/a" true true 1, [Placeholder "error"]).
Proof.
  destruct (loadFolderChildren_fails Sample.env_rename_fails "/a" "/a" 1
              Sample.state_reloading eq_refl eq_refl) as [_ [H _]].
  apply (H (mkHeader "/a" true true 1) []). reflexivity.
Defined.

(** [loadFolderChildren] never replaces a listing that is cached. *)
Lemma loadFolderChildren_keeps env folderPath container level s :
  keepsCached (folderCache s)
    (folderCache (loadFolderChildren env folderPath container level s)).
Proof.
  unfold loadFolderChildren, loadFolderChildren_begin.
  destruct container as [c0|]; [|apply keepsCached_refl].
  destruct (JsMap.has (folderCache s) (normalizePath folderPath)) eqn:E;
    [apply keepsCached_refl|].
  unfold loadFolderChildren_resume.
  destruct (getTree env (Some (normalizePath folderPath))); [|apply keepsCached_refl].
  simpl. now apply keepsCached_set.
Qed.

End CacheAlgebra.

(** ** What the handlers of the tree leave alone *)

(** The handlers that load and render folders are followed through a
    relation [R] between the state before and the state after. Whatever [R]
    is, it holds across them as soon as it holds across a write to the page,
    to the running promises, to the expanded set, to the selection and to
    the current folder, and across the caching of a folder that was not
    cached. The writes to the page are those of the code: the children of a
    folder rendered from the cache, the two placeholders, and the
    [data-expanded] attribute of a header. *)
Section TreeHandlers.

Variable R : FileManager -> FileManager -> Prop.

Hypothesis R_refl : forall s, R s s.
Hypothesis R_trans : forall s1 s2 s3, R s1 s2 -> R s2 s3 -> R s1 s3.
Hypothesis R_render :
  forall p c level s, R s (renderChildrenFromCache p c level s).
Hypothesis R_loading :
  forall c s,
    R s (with_fileTree
           (Dom.updateFolder c
              (fun h kids =>
                 (h, match kids with [] => [Placeholder "loading"] | _ => kids end))
              (fileTree s))
           s).
Hypothesis R_error :
  forall c s,
    R s (with_fileTree (Dom.setContainer c [Placeholder "error"] (fileTree s)) s).
Hypothesis R_attr :
  forall p b s, R s (with_fileTree (Dom.setExpandedAttr p b (fileTree s)) s).
Hypothesis R_pending : forall P s, R s (with_pending P s).
Hypothesis R_expanded : forall E s, R s (with_expandedFolders E s).
Hypothesis R_selection : forall x s, R s (with_selectedItem x s).
Hypothesis R_currentPath : forall x s, R s (with_currentPath x s).
Hypothesis R_cache_new :
  forall p l s,
    JsMap.has (folderCache s) (normalizePath p) = false ->
    R s (with_folderCache
           (JsMap.set (folderCache s) (normalizePath p) (normalizeChildren l)) s).

Implicit Types s : FileManager.

Lemma R_fold {A : Type} (f : FileManager -> A -> FileManager) (l : list A) :
  (forall s a, R s (f s a)) -> forall s, R s (fold_left f l s).
Proof.
  intros Hf. induction l as [|a l IH]; intros s; simpl; [apply R_refl|].
  eapply R_trans; [apply Hf|apply IH].
Qed.

Lemma R_loadFolderChildren_begin folderPath container level s :
  R s (fst (loadFolderChildren_begin folderPath container level s)).
Proof.
  unfold loadFolderChildren_begin. destruct container as [c|]; [|apply R_refl].
  destruct (JsMap.has (folderCache s) (normalizePath folderPath));
    [apply R_render|apply R_loading].
Qed.

Lemma R_loadFolderChildren env folderPath container level s :
  R s (loadFolderChildren env folderPath container level s).
Proof.
  unfold loadFolderChildren, loadFolderChildren_begin.
  destruct container as [c|]; [|apply R_refl].
  destruct (JsMap.has (folderCache s) (normalizePath folderPath)) eqn:E;
    [apply R_render|].
  eapply R_trans; [apply R_loading|].
  unfold loadFolderChildren_resume.
  destruct (getTree env (Some (normalizePath folderPath))) as [folder|];
    [|apply R_error].
  eapply R_trans; [apply R_cache_new; exact E|apply R_render].
Qed.

Lemma R_spawnLoad path level s : R s (spawnLoad path level s).
Proof.
  unfold spawnLoad.
  pose proof (R_loadFolderChildren_begin path (Some path) level s) as H.
  destruct (loadFolderChildren_begin path (Some path) level s) as [s1 [|]];
    simpl in H; (eapply R_trans; [exact H|apply R_pending]).
Qed.

Lemma R_restoreExpandedChildren parentPath s :
  R s (restoreExpandedChildren parentPath s).
Proof.
  unfold restoreExpandedChildren. apply R_fold. intros s0 path.
  destruct (Dom.queryFolder path (fileTree s0)) as [[h kids]|]; [|apply R_refl].
  destruct (h_hasChildren h); [apply R_spawnLoad|apply R_refl].
Qed.

Lemma R_ensureAncestorsExpanded env targetPath s :
  R s (ensureAncestorsExpanded env targetPath s).
Proof.
  unfold ensureAncestorsExpanded. apply R_fold. intros s0 anc.
  destruct (Dom.queryFolder anc (fileTree s0)) as [[h kids]|]; [|apply R_refl].
  eapply R_trans; [apply R_expanded|].
  eapply R_trans; [apply (R_attr anc true)|].
  match goal with
  | |- R _ (if ?b then _ else _) => destruct b
  end; [apply R_loadFolderChildren|apply R_refl].
Qed.

Lemma R_setSelectedItem path type s : R s (setSelectedItem path type s).
Proof.
  unfold setSelectedItem.
  destruct path as [p|]; (eapply R_trans; [apply R_selection|apply R_currentPath]).
Qed.

Lemma R_reexpand env paths s : R s (fst (reexpand env paths s)).
Proof.
  revert s. induction paths as [|path rest IH]; intros s; [apply R_refl|].
  simpl.
  assert (Hturn : R s (fst (reexpandTurn env path s))).
  { unfold reexpandTurn.
    destruct (Dom.queryFolder path (fileTree s)) as [[h kids]|]; [|apply R_refl].
    match goal with
    | |- R _ (fst (if ?b then _ else _)) => destruct b
    end; [apply R_loadFolderChildren|apply R_refl]. }
  destruct (reexpandTurn env path s) as [s1 sent]. simpl in Hturn.
  specialize (IH s1). destruct (reexpand env rest s1) as [s2 events].
  simpl in *. eapply R_trans; eassumption.
Qed.

Lemma R_restoreSelection env prevSelected s :
  R s (restoreSelection env prevSelected s).
Proof.
  unfold restoreSelection. destruct prevSelected as [p|]; [|apply R_refl].
  destruct (Dom.queryDataPath p (fileTree s)); [apply R_setSelectedItem|].
  eapply R_trans; [apply R_ensureAncestorsExpanded|].
  destruct (Dom.queryDataPath p (fileTree (ensureAncestorsExpanded env p s)));
    [apply R_setSelectedItem|apply R_refl].
Qed.

(** The state of a full reload right after [renderTree]. *)
Lemma R_loadTree_after_render env s tree :
  getTree env None = Some tree ->
  R (renderTree
       (mkTree (tree_name tree) (normalizePath (tree_path tree)) (tree_type tree)
          (tree_hasChildren tree) (tree_children tree))
       (match tree_children tree with
        | Some children =>
            with_folderCache
              (JsMap.set (folderCache s) (normalizePath (tree_path tree))
                 (normalizeChildren children))
              (with_expandedFolders (JsSet.ofList (Dom.expandedPaths (fileTree s))) s)
        | None => with_expandedFolders (JsSet.ofList (Dom.expandedPaths (fileTree s))) s
        end))
    (loadTree env s).
Proof.
  intros Htree. unfold loadTree, loadTreeTrace. rewrite Htree.
  match goal with
  | |- R ?s1 _ => set (rendered := s1)
  end.
  change (R rendered
            (fst (let '(s0, events) :=
                    reexpand env (sortByKey depth (Dom.expandedPaths (fileTree s)))
                      rendered in
                  let s3 :=
                    restoreSelection env
                      (prevSelectedOf
                         (with_expandedFolders
                            (JsSet.ofList (Dom.expandedPaths (fileTree s))) s)) s0 in
                  (if 0 <? length (expandedFolders s3)
                   then restoreExpandedChildren "/" s3 else s3, events)))).
  pose proof (R_reexpand env (sortByKey depth (Dom.expandedPaths (fileTree s))) rendered)
    as Hloop.
  destruct (reexpand env (sortByKey depth (Dom.expandedPaths (fileTree s))) rendered)
    as [s0 events].
  simpl in Hloop. simpl fst.
  eapply R_trans; [exact Hloop|].
  eapply R_trans; [apply R_restoreSelection|].
  match goal with
  | |- R _ (if ?b then _ else _) => destruct b
  end; [apply R_restoreExpandedChildren|apply R_refl].
Qed.

(** The handlers as wholes. They also invalidate, render the answer of
    [GET /api/tree], show the error placeholder, store the descriptions and
    close tabs, and a promise that settles caches the answer it was waiting
    for whether or not the folder has been cached in the meantime. *)
Hypothesis R_root :
  forall tree s,
    R s (renderTree
           (mkTree (tree_name tree) (normalizePath (tree_path tree)) (tree_type tree)
              (tree_hasChildren tree) (tree_children tree))
           (match tree_children tree with
            | Some children =>
                with_folderCache
                  (JsMap.set (folderCache s) (normalizePath (tree_path tree))
                     (normalizeChildren children))
                  s
            | None => s
            end)).
Hypothesis R_failed : forall s, R s (with_fileTree [Placeholder "error"] s).
Hypothesis R_invalidate :
  forall p s, R s (with_folderCache (invalidateLoadedFolders p (folderCache s)) s).
Hypothesis R_descriptions : forall d s, R s (with_descriptions d s).
Hypothesis R_openFiles : forall x s, R s (with_openFiles x s).
Hypothesis R_closeTab : forall p s, R s (closeTab p s).
Hypothesis R_cache_any :
  forall p l s,
    R s (with_folderCache
           (JsMap.set (folderCache s) (normalizePath p) (normalizeChildren l)) s).

Lemma R_loadTree env s : R s (loadTree env s).
Proof.
  destruct (getTree env None) as [tree|] eqn:Htree.
  - eapply R_trans; [|apply R_loadTree_after_render; exact Htree].
    eapply R_trans;
      [apply (R_expanded (JsSet.ofList (Dom.expandedPaths (fileTree s))))|].
    apply (R_root tree
             (with_expandedFolders (JsSet.ofList (Dom.expandedPaths (fileTree s))) s)).
  - unfold loadTree, loadTreeTrace. rewrite Htree. simpl.
    eapply R_trans; [apply R_expanded|apply R_failed].
Qed.

Lemma R_refresh env s : R s (refreshTreeAndDescriptions env s).
Proof.
  unfold refreshTreeAndDescriptions, loadDescriptions.
  eapply R_trans; [apply (R_loadTree env)|].
  destruct (getDescriptions env); [apply R_descriptions|apply R_refl].
Qed.

Lemma R_reload env parentPath level s :
  R s (restoreExpandedChildren parentPath
         (loadFolderChildren env parentPath (Some parentPath) level
            (with_folderCache (invalidateLoadedFolders parentPath (folderCache s)) s))).
Proof.
  eapply R_trans; [apply R_invalidate|].
  eapply R_trans; [apply R_loadFolderChildren|apply R_restoreExpandedChildren].
Qed.

Lemma R_reloadParent env parentPath s : R s (reloadParent env parentPath s).
Proof.
  unfold reloadParent.
  change (fileTree (with_folderCache (invalidateLoadedFolders parentPath (folderCache s)) s))
    with (fileTree s).
  destruct (Dom.queryFolder parentPath (fileTree s)) as [[h kids]|].
  - apply R_reload.
  - eapply R_trans; [apply R_invalidate|apply R_refresh].
Qed.

Lemma R_toggleFolder env folderPath s : R s (toggleFolder env folderPath s).
Proof.
  unfold toggleFolder.
  destruct (negb (JsSet.has (expandedFolders s) folderPath)).
  - eapply R_trans; [apply (R_expanded (JsSet.add (expandedFolders s) folderPath))|].
    destruct (Dom.queryFolder folderPath (fileTree s)) as [[h kids]|]; [|apply R_refl].
    eapply R_trans; [apply (R_attr folderPath true)|].
    match goal with
    | |- R _ (if ?b then _ else _) => destruct b
    end; [apply R_render|].
    destruct (h_hasChildren h); [apply R_loadFolderChildren|apply R_refl].
  - eapply R_trans; [apply (R_expanded (JsSet.delete (expandedFolders s) folderPath))|].
    destruct (Dom.queryFolder folderPath (fileTree s)) as [[h kids]|]; [|apply R_refl].
    apply (R_attr folderPath false).
Qed.

Lemma R_createFolder env fenv name s : R s (createFolder env fenv name s).
Proof.
  unfold createFolder.
  destruct (negb (Js.truthy name)); [apply R_refl|].
  destruct (negb (postFolder fenv (currentPath s) name)); [apply R_refl|].
  change (fileTree (with_folderCache
                      (invalidateLoadedFolders (currentFolder s) (folderCache s)) s))
    with (fileTree s).
  destruct (Dom.queryFolder (currentFolder s) (fileTree s)) as [[h kids]|].
  - match goal with
    | |- R _ (if ?b then _ else _) => destruct b
    end; [apply R_reload|apply R_invalidate].
  - eapply R_trans; [apply R_invalidate|apply R_refresh].
Qed.

Lemma R_closeTabs normPath (keys : list string) s :
  R s (closeTabs normPath keys s).
Proof.
  revert s. induction keys as [|filePath rest IH]; intros s; simpl; [apply R_refl|].
  destruct (deletedWith normPath filePath); [|apply IH].
  destruct (threw (closeTab filePath s)); [apply R_closeTab|].
  eapply R_trans; [apply (R_closeTab filePath)|apply IH].
Qed.

Lemma R_deleteSelectedItem env fenv confirmed s :
  R s (deleteSelectedItem env fenv confirmed s).
Proof.
  unfold deleteSelectedItem.
  destruct (selectedItem s) as [sel|]; [|apply R_refl].
  destruct (negb confirmed); [apply R_refl|].
  destruct (negb (deleteItem fenv (normalizePath (sel_path sel)))); [apply R_refl|].
  cbv zeta.
  pose proof (R_closeTabs (normalizePath (sel_path sel)) (JsMap.keys (openFiles s)) s)
    as Hclosed.
  destruct (threw (closeTabs (normalizePath (sel_path sel)) (JsMap.keys (openFiles s)) s));
    [exact Hclosed|].
  eapply R_trans; [exact Hclosed|].
  eapply R_trans; [apply R_reloadParent|].
  eapply R_trans; [apply R_selection|apply R_setSelectedItem].
Qed.

Lemma R_saveDescription env description s : R s (saveDescription env description s).
Proof.
  unfold saveDescription.
  destruct (currentFile s) as [file|]; [|apply R_refl].
  destruct (negb (Js.truthy file)); [apply R_refl|].
  destruct (negb (postDescription env file description)); [apply R_refl|].
  eapply R_trans; [apply (R_descriptions (<[file := description]> (descriptions s)))|].
  cbv zeta.
  set (s1 := with_descriptions (<[file:=description]> (descriptions s)) s).
  set (s2 := match JsMap.get (openFiles s1) file with
             | Some fileData =>
                 with_openFiles
                   (JsMap.set (openFiles s1) file
                      (mkFileData (fd_name fileData) (fd_content fileData) description
                         (fd_path fileData)))
                   s1
             | None => s1
             end).
  assert (H12 : R s1 s2).
  { subst s2. destruct (JsMap.get (openFiles s1) file); [apply R_openFiles|apply R_refl]. }
  eapply R_trans; [exact H12|].
  destruct (Dom.queryDataPath file (fileTree s2)); [|apply R_refl].
  destruct (Dom.queryFolder (parentOfCurrentFile file) (fileTree s2)) as [[h kids]|];
    [|apply R_refl].
  apply R_reload.
Qed.

Lemma R_runTask env t s : R s (runTask env t s).
Proof.
  destruct t as [path container level|path]; simpl.
  - eapply R_trans; [|apply R_restoreExpandedChildren].
    unfold loadFolderChildren_resume.
    destruct (getTree env (Some (normalizePath path))) as [folder|]; [|apply R_error].
    eapply R_trans; [apply R_cache_any|apply R_render].
  - apply R_restoreExpandedChildren.
Qed.

Lemma R_settles_star env s s' : settles_star env s s' -> R s s'.
Proof.
  intros Hstar. induction Hstar as [s|s1 s2 s3 Hstep _ IH]; [apply R_refl|].
  eapply R_trans; [|exact IH].
  destruct Hstep as [s before after t Hpending].
  eapply R_trans; [apply (R_pending (before ++ after))|apply R_runTask].
Qed.

End TreeHandlers.

Section Reloads.

Implicit Types s : FileManager.

Lemma tabState_loadTree env s : tabState (loadTree env s) = tabState s.
Proof.
  destruct (getTree env None) as [tree|] eqn:Htree.
  - assert (H : (fun s s' => tabState s' = tabState s)
                  (renderTree
                     (mkTree (tree_name tree) (normalizePath (tree_path tree))
                        (tree_type tree) (tree_hasChildren tree) (tree_children tree))
                     (match tree_children tree with
                      | Some children =>
                          with_folderCache
                            (JsMap.set (folderCache s) (normalizePath (tree_path tree))
                               (normalizeChildren children))
                            (with_expandedFolders
                               (JsSet.ofList (Dom.expandedPaths (fileTree s))) s)
                      | None =>
                          with_expandedFolders
                            (JsSet.ofList (Dom.expandedPaths (fileTree s))) s
                      end))
                  (loadTree env s)).
    { apply R_loadTree_after_render; try exact Htree;
        intros; cbv beta in *; (reflexivity || congruence). }
    cbv beta in H. rewrite H.
    unfold renderTree.
    destruct (tree_type tree), (tree_children tree) as [[|c cs]|]; simpl;
      try reflexivity;
      match goal with
      | |- context [JsMap.get ?c ?k] => destruct (JsMap.get c k) as [[|c' cs']|]
      end; reflexivity.
  - unfold loadTree, loadTreeTrace. rewrite Htree. reflexivity.
Qed.

Lemma tabState_reload env parentPath level s :
  tabState
    (restoreExpandedChildren parentPath
       (loadFolderChildren env parentPath (Some parentPath) level
          (with_folderCache (invalidateLoadedFolders parentPath (folderCache s)) s)))
  = tabState s.
Proof.
  destruct (reload_spawns env parentPath level s) as [T [C [new [-> _]]]].
  reflexivity.
Qed.

Lemma tabState_refresh env s : tabState (refreshTreeAndDescriptions env s) = tabState s.
Proof.
  unfold refreshTreeAndDescriptions, loadDescriptions.
  destruct (getDescriptions env); [|apply tabState_loadTree].
  change (tabState (loadTree env s) = tabState s). apply tabState_loadTree.
Qed.

Lemma tabState_reloadParent env parentPath s :
  tabState (reloadParent env parentPath s) = tabState s.
Proof.
  unfold reloadParent.
  change (fileTree (with_folderCache (invalidateLoadedFolders parentPath (folderCache s)) s))
    with (fileTree s).
  destruct (Dom.queryFolder parentPath (fileTree s)) as [[h kids]|].
  - apply tabState_reload.
  - now rewrite tabState_refresh.
Qed.

Lemma tabState_toggleFolder env folderPath s :
  tabState (toggleFolder env folderPath s) = tabState s.
Proof.
  unfold toggleFolder.
  destruct (negb (JsSet.has (expandedFolders s) folderPath)).
  - destruct (Dom.queryFolder folderPath (fileTree s)) as [[h kids]|]; [|reflexivity].
    match goal with
    | |- context [if ?b then _ else _] => destruct b
    end; [reflexivity|].
    destruct (h_hasChildren h); [|reflexivity].
    match goal with
    | |- tabState (loadFolderChildren ?e ?p ?c ?l ?s0) = _ =>
        destruct (loadFolderChildren_shape e p c l s0) as [T [C [-> _]]]
    end.
    reflexivity.
  - destruct (Dom.queryFolder folderPath (fileTree s)) as [[h kids]|]; reflexivity.
Qed.

(** X12. Loading, reloading and toggling folders never touch the open files, the
    tabs of the page, the active tab or the current file; nor does the
    creation of a folder or an upload. *)
Theorem tree_handlers_keep_tabs env fenv path name s :
  tabState (loadTree env s) = tabState s
  /\ tabState (refreshTreeAndDescriptions env s) = tabState s
  /\ tabState (toggleFolder env path s) = tabState s
  /\ tabState (createFolder env fenv name s) = tabState s
  /\ tabState (uploadFiles env s) = tabState s.
Proof.
  split; [apply tabState_loadTree|].
  split; [apply tabState_refresh|].
  split; [apply tabState_toggleFolder|].
  split; [|apply tabState_reloadParent].
  unfold createFolder.
  destruct (negb (Js.truthy name)); [reflexivity|].
  destruct (negb (postFolder fenv (currentPath s) name)); [reflexivity|].
  change (fileTree (with_folderCache
                      (invalidateLoadedFolders (currentFolder s) (folderCache s)) s))
    with (fileTree s).
  destruct (Dom.queryFolder (currentFolder s) (fileTree s)) as [[h kids]|].
  - match goal with
    | |- context [if ?b then _ else _] => destruct b
    end; [apply tabState_reload|reflexivity].
  - now rewrite tabState_refresh.
Qed.




End Reloads.

(** ** The re-expansion loop of a full reload *)

Section ReexpandFetch.

Variable env : Env.
Implicit Types s : FileManager.








End ReexpandFetch.





(** ** Tabs *)

Section Tabs.

Implicit Types s : FileManager.
Implicit Types m : OpenFiles.

Lemma has_In_keys {V : Type} (m : JsMap V) k :
  JsMap.has m k = true <-> In k (JsMap.keys m).
Proof.
  unfold JsMap.has. induction m as [|[k' v] m IH]; simpl.
  - split; [discriminate|tauto].
  - destruct (String.eqb k' k) eqn:E.
    + apply String.eqb_eq in E. subst k'. split; [now left|reflexivity].
    + rewrite IH. apply String.eqb_neq in E. split; [now right|].
      intros [H|H]; [contradiction|exact H].
Qed.

Lemma has_false_keys {V : Type} (m : JsMap V) k :
  JsMap.has m k = false <-> ~ In k (JsMap.keys m).
Proof.
  rewrite <- has_In_keys. destruct (JsMap.has m k); split; congruence.
Qed.

Lemma keys_delete {V : Type} (m : JsMap V) k :
  JsMap.keys (JsMap.delete m k)
  = List.filter (fun y => negb (String.eqb y k)) (JsMap.keys m).
Proof.
  unfold JsMap.delete, JsMap.keys. induction m as [|[k' v] m IH]; [reflexivity|].
  simpl. destruct (String.eqb k' k); simpl; now rewrite IH.
Qed.

Lemma get_delete {V : Type} (m : JsMap V) k q :
  JsMap.get (JsMap.delete m k) q = if String.eqb q k then None else JsMap.get m q.
Proof.
  unfold JsMap.delete. induction m as [|[k' v] m IH]; simpl.
  - now destruct (String.eqb q k).
  - destruct (String.eqb k' k) eqn:E; simpl.
    + rewrite IH. apply String.eqb_eq in E. subst k'.
      rewrite (String.eqb_sym k q). now destruct (String.eqb q k).
    + destruct (String.eqb k' q) eqn:E'; [|exact IH].
      apply String.eqb_eq in E'. subst k'. now rewrite E.
Qed.

Lemma delete_absent {V : Type} (m : JsMap V) k :
  JsMap.has m k = false -> JsMap.delete m k = m.
Proof.
  rewrite has_false_keys. unfold JsMap.delete, JsMap.keys.
  induction m as [|[k' v] m IH]; [reflexivity|]. simpl. intros H.
  destruct (String.eqb k' k) eqn:E.
  - apply String.eqb_eq in E. tauto.
  - simpl. rewrite IH; [reflexivity|tauto].
Qed.

Lemma filter_absent (l : list string) k :
  ~ In k l -> List.filter (fun y => negb (String.eqb y k)) l = l.
Proof.
  induction l as [|x l IH]; [reflexivity|]. simpl. intros H.
  destruct (String.eqb x k) eqn:E.
  - apply String.eqb_eq in E. tauto.
  - simpl. rewrite IH; [reflexivity|tauto].
Qed.

(** Removing the first tab of a path removes every tab of that path when no
    path has two tabs. *)
Lemma removeTab_filter p (tabs : list Tab) :
  List.NoDup (map tab_file tabs) ->
  map tab_file (Page.removeTab p tabs)
  = List.filter (fun y => negb (String.eqb y p)) (map tab_file tabs).
Proof.
  induction tabs as [|t tabs IH]; [reflexivity|]. simpl. intros Hnd.
  apply List.NoDup_cons_iff in Hnd as [Hnotin Hnd].
  destruct (String.eqb (tab_file t) p) eqn:E; simpl.
  - apply String.eqb_eq in E. subst p. now rewrite filter_absent.
  - now rewrite IH.
Qed.

Lemma removeTab_absent p (tabs : list Tab) :
  ~ In p (map tab_file tabs) -> Page.removeTab p tabs = tabs.
Proof.
  induction tabs as [|t tabs IH]; [reflexivity|]. simpl. intros H.
  destruct (String.eqb (tab_file t) p) eqn:E.
  - apply String.eqb_eq in E. tauto.
  - rewrite IH; [reflexivity|tauto].
Qed.


Lemma queryTab_In p (tabs : list Tab) :
  In p (map tab_file tabs) -> exists t, Dom.queryTab p tabs = Some t.
Proof.
  unfold Dom.queryTab. induction tabs as [|t tabs IH]; simpl; [tauto|].
  intros [H|H].
  - rewrite H, String.eqb_refl. eauto.
  - destruct (String.eqb (tab_file t) p); eauto.
Qed.

Lemma lastTabFile_In (tabs : list Tab) file :
  lastTabFile tabs = Some file -> In file (map tab_file tabs).
Proof.
  unfold lastTabFile. destruct (rev tabs) as [|t r] eqn:E; [discriminate|].
  intros [= <-]. apply in_map. apply in_rev. rewrite E. now left.
Qed.

Lemma lastTabFile_snoc (tabs : list Tab) t :
  lastTabFile (tabs ++ [t]) = Some (tab_file t).
Proof. unfold lastTabFile. now rewrite rev_unit. Qed.

(** What [switchToTab] does when the tab is on the page: the state it
    leaves, and whether it throws. *)
Lemma switchToTab_found p s :
  In p (map tab_file (fileTabs s)) ->
  switchToTab p s
  = match JsMap.get (openFiles s) p with
    | Some fileData =>
        mkCompletion (with_currentFile (Some p) (with_activeTab (Some p) s))
          (negb (classListAccepts (languageClass (fd_name fileData))))
    | None => Returned s
    end.
Proof.
  intros Hin. unfold switchToTab, JsMap.has.
  cbn [openFiles with_currentFile with_activeTab].
  destruct (JsMap.get (openFiles s) p) as [fileData|]; [|reflexivity].
  cbn [negb]. destruct (queryTab_In p (fileTabs s) Hin) as [t ->].
  now destruct (classListAccepts (languageClass (fd_name fileData))).
Qed.

Lemma switchToTab_state_found p s :
  In p (map tab_file (fileTabs s)) ->
  stateOf (switchToTab p s)
  = if JsMap.has (openFiles s) p
    then with_currentFile (Some p) (with_activeTab (Some p) s)
    else s.
Proof.
  intros Hin. rewrite (switchToTab_found p s Hin). unfold JsMap.has.
  now destruct (JsMap.get (openFiles s) p).
Qed.

(** The state that [closeTab] leaves, whether it returns or throws: the call
    of [switchToTab] is made on the path of a tab that is on the page, so it
    gets past [scrollIntoView] and writes [activeTab] and [currentFile]. *)
Lemma closeTab_eq p s :
  stateOf (closeTab p s)
  = if negb (JsMap.has (openFiles s) p) then s
    else
      let s2 :=
        with_fileTabs (Page.removeTab p (fileTabs s))
          (with_openFiles (JsMap.delete (openFiles s) p) s) in
      match activeTab s with
      | Some active =>
          if String.eqb active p
          then
            match lastTabFile (fileTabs s2) with
            | Some file =>
                if JsMap.has (openFiles s2) file
                then with_currentFile (Some file) (with_activeTab (Some file) s2)
                else with_currentFile None (with_activeTab None s2)
            | None => with_currentFile None (with_activeTab None s2)
            end
          else s2
      | None => s2
      end.
Proof.
  unfold closeTab. destruct (negb (JsMap.has (openFiles s) p)); [reflexivity|].
  cbn [activeTab fileTabs openFiles with_fileTabs with_openFiles with_currentFile
       with_activeTab].
  destruct (activeTab s) as [active|]; [|reflexivity].
  destruct (String.eqb active p); [|reflexivity].
  destruct (lastTabFile (Page.removeTab p (fileTabs s))) as [file|] eqn:E;
    [|reflexivity].
  rewrite switchToTab_state_found; [reflexivity|].
  now apply lastTabFile_In.
Qed.

(** [closeTab] throws exactly when it was the active tab that was closed and
    the name of the file of the last tab that remains gives a class that
    [classList.add] refuses. *)
Lemma closeTab_threw p s :
  threw (closeTab p s)
  = JsMap.has (openFiles s) p
    && match activeTab s with
       | Some active =>
           String.eqb active p
           && match lastTabFile (Page.removeTab p (fileTabs s)) with
              | Some file =>
                  match JsMap.get (JsMap.delete (openFiles s) p) file with
                  | Some fileData =>
                      negb (classListAccepts (languageClass (fd_name fileData)))
                  | None => false
                  end
              | None => false
              end
       | None => false
       end.
Proof.
  unfold closeTab. destruct (JsMap.has (openFiles s) p); [|reflexivity].
  cbn [negb andb activeTab fileTabs openFiles with_fileTabs with_openFiles
       with_currentFile with_activeTab].
  destruct (activeTab s) as [active|]; [|reflexivity].
  destruct (String.eqb active p); [|reflexivity].
  destruct (lastTabFile (Page.removeTab p (fileTabs s))) as [file|] eqn:E;
    [|reflexivity].
  rewrite switchToTab_found; [|now apply lastTabFile_In].
  cbn [openFiles with_fileTabs with_openFiles with_currentFile with_activeTab andb].
  now destruct (JsMap.get (JsMap.delete (openFiles s) p) file).
Qed.

Lemma closeTab_openFiles p s :
  openFiles (closeTab p s) = JsMap.delete (openFiles s) p.
Proof.
  rewrite closeTab_eq. destruct (JsMap.has (openFiles s) p) eqn:E; simpl.
  - destruct (activeTab s) as [active|]; [|reflexivity].
    destruct (String.eqb active p); [|reflexivity].
    destruct (lastTabFile (Page.removeTab p (fileTabs s))) as [file|]; [|reflexivity].
    now destruct (JsMap.has (JsMap.delete (openFiles s) p) file).
  - now rewrite delete_absent.
Qed.

Lemma closeTab_fileTabs p s :
  fileTabs (closeTab p s)
  = if JsMap.has (openFiles s) p then Page.removeTab p (fileTabs s) else fileTabs s.
Proof.
  rewrite closeTab_eq. destruct (JsMap.has (openFiles s) p) eqn:E; simpl;
    [|reflexivity].
  destruct (activeTab s) as [active|]; [|reflexivity].
  destruct (String.eqb active p); [|reflexivity].
  destruct (lastTabFile (Page.removeTab p (fileTabs s))) as [file|]; [|reflexivity].
  now destruct (JsMap.has (JsMap.delete (openFiles s) p) file).
Qed.

Lemma closeTab_sync p s : tabsInSync s -> tabsInSync (closeTab p s).
Proof.
  intros [Hnd Htabs]. unfold tabsInSync.
  rewrite closeTab_openFiles, closeTab_fileTabs, keys_delete. split.
  - now apply List.NoDup_filter.
  - destruct (JsMap.has (openFiles s) p) eqn:E.
    + rewrite removeTab_filter, Htabs; [reflexivity|now rewrite Htabs].
    + rewrite filter_absent; [exact Htabs|now apply has_false_keys].
Qed.

(** In a state whose tabs are those of the open files, [switchToTab] finds
    the tab of every open file. *)
Lemma switchToTab_sync p s :
  tabsInSync s ->
  switchToTab p s
  = match JsMap.get (openFiles s) p with
    | Some fileData =>
        mkCompletion (with_currentFile (Some p) (with_activeTab (Some p) s))
          (negb (classListAccepts (languageClass (fd_name fileData))))
    | None => Returned s
    end.
Proof.
  intros [_ Htabs].
  destruct (JsMap.has (openFiles s) p) eqn:E.
  - apply switchToTab_found. rewrite Htabs. now apply has_In_keys.
  - unfold switchToTab. rewrite E. unfold JsMap.has in E.
    now destruct (JsMap.get (openFiles s) p).
Qed.








Lemma has_delete_other {V : Type} (m : JsMap V) k q :
  q <> k -> JsMap.has (JsMap.delete m k) q = JsMap.has m q.
Proof.
  intros H. unfold JsMap.has. rewrite get_delete.
  apply String.eqb_neq in H. now rewrite H.
Qed.

Lemma closeTab_active p s :
  activeIsOpen s -> activeIsOpen (closeTab p s).
Proof.
  intros Hactive. rewrite closeTab_eq.
  destruct (JsMap.has (openFiles s) p) eqn:Hopen; [|exact Hactive]. simpl.
  unfold activeIsOpen in Hactive.
  destruct (activeTab s) as [active|] eqn:Ha; [|unfold activeIsOpen; simpl; now rewrite Ha].
  destruct (String.eqb active p) eqn:E.
  - destruct (lastTabFile (Page.removeTab p (fileTabs s))) as [file|];
      [|exact I].
    destruct (JsMap.has (JsMap.delete (openFiles s) p) file) eqn:Hfile; [|exact I].
    exact Hfile.
  - unfold activeIsOpen. simpl. rewrite Ha. apply String.eqb_neq in E.
    now rewrite has_delete_other.
Qed.


(** X15. In a state whose tabs are those of the open files, and for a path
    that the selector of the tab takes as it is, [switchToTab] never fails
    on a missing tab. On a path that is not open it returns and changes
    nothing. On an open file it makes that file the active tab and the
    current file, and then throws exactly when the name of the file gives a
    class that [classList.add] refuses, that is when the piece of the name
    after its first dot holds whitespace; the two fields are written by
    then, so the invariants of the tabs hold whether it throws or not. *)
Theorem switchToTab_in_sync p s
    (Hsync : tabsInSync s) (Hsafe : selectorSafe p = true) :
  (JsMap.has (openFiles s) p = false -> switchToTab p s = Returned s)
  /\ (forall fileData,
        JsMap.get (openFiles s) p = Some fileData ->
        stateOf (switchToTab p s)
        = with_currentFile (Some p) (with_activeTab (Some p) s)
        /\ threw (switchToTab p s)
           = negb (classListAccepts (languageClass (fd_name fileData)))
        /\ tabsInSync (switchToTab p s)
        /\ activeIsOpen (switchToTab p s)).
Proof.
  rewrite (switchToTab_sync p s Hsync). split.
  - unfold JsMap.has. now destruct (JsMap.get (openFiles s) p).
  - intros fileData Hget. rewrite Hget. cbn [stateOf threw].
    split; [reflexivity|]. split; [reflexivity|]. split; [exact Hsync|].
    unfold activeIsOpen, JsMap.has. cbn [activeTab openFiles with_currentFile with_activeTab].
    now rewrite Hget.
Qed.





End Tabs.


Lemma state_two_tabs_sync : tabsInSync Scenario.state_two_tabs.
Proof.
  split; [|reflexivity]. simpl.
  apply List.NoDup_cons; [|apply List.NoDup_cons; [|constructor]].
  - intros [H|[]]. discriminate H.
  - intros [].
Defined.

Lemma switchToTab_in_sync_witness :
  threw (switchToTab "/a/v1.0 final.txt" Scenario.state_spaced_name) = true
  /\ activeTab (switchToTab "/a/v1.0 final.txt" Scenario.state_spaced_name)
     = Some "/a/v1.0 final.txt"
  /\ threw (switchToTab "/a/sub/g.txt" Scenario.state_two_tabs) = false.
Proof.
  assert (Hsync : tabsInSync Scenario.state_spaced_name).
  { split; [|reflexivity]. simpl.
    apply List.NoDup_cons; [|apply List.NoDup_cons; [|constructor]].
    - intros [H|[]]. discriminate H.
    - intros []. }
  destruct (switchToTab_in_sync "/a/v1.0 final.txt" Scenario.state_spaced_name
              Hsync eq_refl) as [_ Hopen].
  destruct (Hopen (mkFileData "v1.0 final.txt" "text" "" "/a/v1.0 final.txt") eq_refl)
    as [Hstate [Hthrew _]].
  destruct (switchToTab_in_sync "/a/sub/g.txt" Scenario.state_two_tabs
              state_two_tabs_sync eq_refl) as [_ Hopen2].
  destruct (Hopen2 (mkFileData "g.txt" "text" "" "/a/sub/g.txt") eq_refl)
    as [_ [Hthrew2 _]].
  split; [rewrite Hthrew; reflexivity|].
  split; [rewrite Hstate; reflexivity|].
  rewrite Hthrew2. reflexivity.
Defined.





(** ** Deleting the selected item *)

Section Delete.

Implicit Types s : FileManager.

Lemma tabsInSync_tabState s1 s2 :
  tabState s1 = tabState s2 -> tabsInSync s2 -> tabsInSync s1.
Proof.
  unfold tabState, tabsInSync. intros [= Hfiles Hactive Htabs Hcurrent].
  now rewrite Hfiles, Htabs.
Qed.

Lemma activeIsOpen_tabState s1 s2 :
  tabState s1 = tabState s2 -> activeIsOpen s2 -> activeIsOpen s1.
Proof.
  unfold tabState, activeIsOpen. intros [= Hfiles Hactive Htabs Hcurrent].
  now rewrite Hfiles, Hactive.
Qed.

Lemma has_filter {V : Type} (g : string -> bool) (m : JsMap V) k :
  JsMap.has (List.filter (fun kv => g (fst kv)) m) k = JsMap.has m k && g k.
Proof.
  destruct (g k) eqn:Hg.
  - unfold JsMap.has. rewrite get_filter by exact Hg. now rewrite andb_true_r.
  - rewrite andb_false_r. apply has_false_keys. rewrite keys_filter.
    intros [_ H]. congruence.
Qed.

(** For a path that is not empty, the test of [deleteSelectedItem] is the
    descendant test. *)
Lemma deletedWith_isDescendant normPath filePath :
  Js.truthy filePath = true ->
  deletedWith normPath filePath = Spec.isDescendant normPath filePath.
Proof.
  intros H. unfold deletedWith, Spec.isDescendant. rewrite H, andb_true_r.
  reflexivity.
Qed.

(** The loop of [deleteSelectedItem] over a snapshot of keys. *)
Lemma closeTabs_openFiles normPath (l : list string) s :
  openFiles
    (fold_left
       (fun s filePath => if deletedWith normPath filePath then closeTab filePath s else s)
       l s)
  = List.filter
      (fun kv => negb (deletedWith normPath (fst kv) && existsb (String.eqb (fst kv)) l))
      (openFiles s).
Proof.
  revert s. induction l as [|a l IH]; intros s; simpl.
  - rewrite <- (filter_ext (fun _ => true)).
    + induction (openFiles s) as [|kv m IHm]; [reflexivity|]. simpl. now f_equal.
    + intros kv. now rewrite andb_false_r.
  - rewrite IH.
    destruct (deletedWith normPath a) eqn:Ha.
    + rewrite closeTab_openFiles. unfold JsMap.delete. rewrite filter_filter_andb.
      apply filter_ext. intros [k v]. simpl.
      destruct (String.eqb k a) eqn:E; simpl; [|reflexivity].
      apply String.eqb_eq in E. subst k. now rewrite Ha.
    + apply filter_ext. intros [k v]. simpl.
      destruct (String.eqb k a) eqn:E; simpl; [|reflexivity].
      apply String.eqb_eq in E. subst k. now rewrite Ha.
Qed.

Lemma closeTabs_all normPath s :
  openFiles
    (fold_left
       (fun s filePath => if deletedWith normPath filePath then closeTab filePath s else s)
       (JsMap.keys (openFiles s)) s)
  = List.filter (fun kv => negb (deletedWith normPath (fst kv))) (openFiles s).
Proof.
  rewrite closeTabs_openFiles. apply filter_ext_in. intros [k v] Hin. simpl.
  assert (H : existsb (String.eqb k) (JsMap.keys (openFiles s)) = true).
  { apply existsb_exists. exists k. split; [|apply String.eqb_refl].
    unfold JsMap.keys. now apply (in_map fst) in Hin. }
  now rewrite H, andb_true_r.
Qed.

Lemma closeTabs_invariant normPath (l : list string) s :
  (tabsInSync s ->
   tabsInSync
     (fold_left
        (fun s filePath => if deletedWith normPath filePath then closeTab filePath s else s)
        l s))
  /\ (activeIsOpen s ->
      activeIsOpen
        (fold_left
           (fun s filePath => if deletedWith normPath filePath then closeTab filePath s else s)
           l s)).
Proof.
  revert s. induction l as [|a l IH]; intros s; simpl; [tauto|].
  destruct (IH (if deletedWith normPath a then closeTab a s else s)) as [IH1 IH2].
  split; intros H.
  - apply IH1. destruct (deletedWith normPath a); [now apply closeTab_sync|exact H].
  - apply IH2. destruct (deletedWith normPath a); [now apply closeTab_active|exact H].
Qed.

Lemma get_In {V : Type} (m : JsMap V) k (v : V) :
  JsMap.get m k = Some v -> In (k, v) m.
Proof.
  induction m as [|[k' v'] m IH]; simpl; [discriminate|].
  destruct (String.eqb k' k) eqn:E.
  - apply String.eqb_eq in E. subst k'. intros [= ->]. now left.
  - intros H. right. now apply IH.
Qed.

Lemma namesAccepted_delete (m : OpenFiles) k :
  namesAccepted m = true -> namesAccepted (JsMap.delete m k) = true.
Proof.
  unfold namesAccepted, JsMap.delete. rewrite !forallb_forall.
  intros H kv Hin. apply H. now apply filter_In in Hin as [Hin _].
Qed.

(** With names that [classList.add] takes, [closeTab] returns. *)
Lemma closeTab_returns p s :
  namesAccepted (openFiles s) = true -> threw (closeTab p s) = false.
Proof.
  intros Hnames. rewrite closeTab_threw.
  destruct (JsMap.has (openFiles s) p); [|reflexivity].
  destruct (activeTab s) as [active|]; [|reflexivity].
  destruct (String.eqb active p); [|reflexivity].
  destruct (lastTabFile (Page.removeTab p (fileTabs s))) as [file|]; [|reflexivity].
  destruct (JsMap.get (JsMap.delete (openFiles s) p) file) as [fileData|] eqn:E;
    [|reflexivity].
  apply get_In in E.
  pose proof (namesAccepted_delete (openFiles s) p Hnames) as Hd.
  unfold namesAccepted in Hd. rewrite forallb_forall in Hd.
  specialize (Hd _ E). cbn [snd] in Hd. now rewrite Hd.
Qed.

Lemma closeTabs_returns normPath (keys : list string) s :
  namesAccepted (openFiles s) = true -> threw (closeTabs normPath keys s) = false.
Proof.
  revert s. induction keys as [|filePath rest IH]; intros s Hnames; [reflexivity|].
  cbn [closeTabs]. destruct (deletedWith normPath filePath); [|now apply IH].
  rewrite (closeTab_returns filePath s Hnames). apply IH.
  rewrite closeTab_openFiles. now apply namesAccepted_delete.
Qed.

(** A loop in which no [closeTab] throws closes the tabs one after the
    other. *)
Lemma closeTabs_fold normPath (keys : list string) s :
  threw (closeTabs normPath keys s) = false ->
  stateOf (closeTabs normPath keys s)
  = fold_left
      (fun s filePath => if deletedWith normPath filePath then closeTab filePath s else s)
      keys s.
Proof.
  revert s. induction keys as [|filePath rest IH]; intros s; [reflexivity|].
  cbn [closeTabs fold_left]. destruct (deletedWith normPath filePath); [|apply IH].
  destruct (threw (closeTab filePath s)) eqn:E; [congruence|]. apply IH.
Qed.

(** [closeTab] writes the open files, the tabs, the active tab and the
    current file, and nothing else. *)
Lemma closeTab_rest p s :
  exists files tabs active current,
    stateOf (closeTab p s)
    = with_currentFile current
        (with_activeTab active (with_fileTabs tabs (with_openFiles files s))).
Proof.
  rewrite closeTab_eq.
  assert (Hsame : exists files tabs active current,
            s = with_currentFile current
                  (with_activeTab active (with_fileTabs tabs (with_openFiles files s)))).
  { exists (openFiles s), (fileTabs s), (activeTab s), (currentFile s). now destruct s. }
  destruct (negb (JsMap.has (openFiles s) p)); [exact Hsame|]. cbv zeta.
  assert (Hs2 : exists files tabs active current,
            with_fileTabs (Page.removeTab p (fileTabs s))
              (with_openFiles (JsMap.delete (openFiles s) p) s)
            = with_currentFile current
                (with_activeTab active (with_fileTabs tabs (with_openFiles files s)))).
  { exists (JsMap.delete (openFiles s) p), (Page.removeTab p (fileTabs s)),
      (activeTab s), (currentFile s). reflexivity. }
  destruct (activeTab s) as [active|]; [|exact Hs2].
  destruct (String.eqb active p); [|exact Hs2].
  destruct (lastTabFile _) as [file|];
    [destruct (JsMap.has _ file)|]; repeat eexists; reflexivity.
Qed.

Lemma closeTabs_rest normPath (keys : list string) s :
  exists files tabs active current,
    stateOf (closeTabs normPath keys s)
    = with_currentFile current
        (with_activeTab active (with_fileTabs tabs (with_openFiles files s))).
Proof.
  revert s. induction keys as [|filePath rest IH]; intros s.
  { exists (openFiles s), (fileTabs s), (activeTab s), (currentFile s). now destruct s. }
  cbn [closeTabs]. destruct (deletedWith normPath filePath); [|apply IH].
  destruct (closeTab_rest filePath s) as [f1 [t1 [a1 [c1 H1]]]].
  destruct (threw (closeTab filePath s)); [now exists f1, t1, a1, c1|].
  destruct (IH (closeTab filePath s)) as [f2 [t2 [a2 [c2 H2]]]].
  exists f2, t2, a2, c2. rewrite H2, H1. reflexivity.
Qed.

Lemma closeTabs_sync normPath (keys : list string) s :
  (tabsInSync s -> tabsInSync (closeTabs normPath keys s))
  /\ (activeIsOpen s -> activeIsOpen (closeTabs normPath keys s)).
Proof.
  revert s. induction keys as [|filePath rest IH]; intros s; [tauto|].
  cbn [closeTabs]. destruct (deletedWith normPath filePath); [|apply IH].
  destruct (threw (closeTab filePath s)).
  - split; [apply closeTab_sync|apply closeTab_active].
  - destruct (IH (closeTab filePath s)) as [IH1 IH2]. split; intros H.
    + apply IH1. now apply closeTab_sync.
    + apply IH2. now apply closeTab_active.
Qed.

(** X20. A confirmed deletion that the server carries out, in a state whose
    paths the selectors take as they are. The tabs of the open files at or
    below the deleted path are closed one after the other. When the names of
    the open files give classes that [classList.add] takes, no [closeTab]
    throws. When none throws, exactly these tabs are closed, the tabs stay
    in step with the open files, the parent folder is reloaded and the
    handler ends with nothing selected and no current folder. When a
    [closeTab] throws, the handler is over at that point: the tabs after it
    stay open, the cache and the page are not touched, and the selection and
    the current folder are as they were. *)
Theorem deleteSelectedItem_cascade env fenv s sel
    (Hsel : selectedItem s = Some sel)
    (Hok : deleteItem fenv (normalizePath (sel_path sel)) = true)
    (Hsafe : selectorSafeState s = true) :
  let normPath := normalizePath (sel_path sel) in
  let closed := closeTabs normPath (JsMap.keys (openFiles s)) s in
  let s' := deleteSelectedItem env fenv true s in
  (namesAccepted (openFiles s) = true -> threw closed = false)
  /\ (threw closed = false ->
      openFiles s'
      = List.filter (fun kv => negb (deletedWith normPath (fst kv))) (openFiles s)
      /\ (forall filePath,
            Js.truthy filePath = true ->
            JsMap.has (openFiles s') filePath
            = JsMap.has (openFiles s) filePath
              && negb (Spec.isDescendant normPath filePath))
      /\ selectedItem s' = None
      /\ currentPath s' = None)
  /\ (threw closed = true ->
      s' = stateOf closed
      /\ selectedItem s' = selectedItem s
      /\ currentPath s' = currentPath s
      /\ folderCache s' = folderCache s
      /\ fileTree s' = fileTree s
      /\ pending s' = pending s)
  /\ (tabsInSync s -> tabsInSync s')
  /\ (activeIsOpen s -> activeIsOpen s').
Proof.
  intros normPath closed s'.
  assert (Hs' : s' = if threw closed then stateOf closed
                     else setSelectedItem None File
                            (with_selectedItem None
                               (reloadParent env (orRoot (getParentPath normPath))
                                  closed))).
  { subst s' closed normPath. unfold deleteSelectedItem. now rewrite Hsel, Hok. }
  split; [apply closeTabs_returns|].
  split; [|split; [|split]].
  - intros Hreturned. rewrite Hreturned in Hs'.
    assert (Htab : tabState s'
                   = tabState
                       (fold_left
                          (fun s filePath =>
                             if deletedWith normPath filePath
                             then closeTab filePath s else s)
                          (JsMap.keys (openFiles s)) s)).
    { rewrite Hs', <- (closeTabs_fold normPath _ s Hreturned).
      etransitivity;
        [|apply (tabState_reloadParent env (orRoot (getParentPath normPath)))].
      reflexivity. }
    assert (Hfiles : openFiles s'
                     = List.filter (fun kv => negb (deletedWith normPath (fst kv)))
                         (openFiles s)).
    { rewrite <- closeTabs_all. unfold tabState in Htab. now injection Htab. }
    split; [exact Hfiles|]. split.
    { intros filePath Htruthy. rewrite Hfiles.
      rewrite (has_filter (fun k => negb (deletedWith normPath k))).
      now rewrite deletedWith_isDescendant. }
    rewrite Hs'. split; reflexivity.
  - intros Hthrew. rewrite Hthrew in Hs'. split; [exact Hs'|]. rewrite Hs'.
    destruct (closeTabs_rest normPath (JsMap.keys (openFiles s)) s)
      as [files [tabs [active [current Hrest]]]].
    fold closed in Hrest. rewrite Hrest. now repeat split.
  - intros Hsync.
    pose proof (proj1 (closeTabs_sync normPath (JsMap.keys (openFiles s)) s) Hsync)
      as Hclosed.
    fold closed in Hclosed. rewrite Hs'.
    destruct (threw closed); [exact Hclosed|].
    eapply tabsInSync_tabState; [|exact Hclosed].
    etransitivity;
      [|apply (tabState_reloadParent env (orRoot (getParentPath normPath)))].
    reflexivity.
  - intros Hactive.
    pose proof (proj2 (closeTabs_sync normPath (JsMap.keys (openFiles s)) s) Hactive)
      as Hclosed.
    fold closed in Hclosed. rewrite Hs'.
    destruct (threw closed); [exact Hclosed|].
    eapply activeIsOpen_tabState; [|exact Hclosed].
    etransitivity;
      [|apply (tabState_reloadParent env (orRoot (getParentPath normPath)))].
    reflexivity.
Qed.

(** X21. When the user declines, when a request is refused or when there is
    nothing to work on, the handlers leave the client as it was. *)
Theorem refused_requests_change_nothing env fenv confirmed text s :
  (selectedItem s = None
   \/ confirmed = false
   \/ (forall sel, selectedItem s = Some sel ->
         deleteItem fenv (normalizePath (sel_path sel)) = false) ->
   deleteSelectedItem env fenv confirmed s = s)
  /\ (text = "" \/ postFolder fenv (currentPath s) text = false ->
      createFolder env fenv text s = s)
  /\ (currentFile s = None
      \/ currentFile s = Some ""
      \/ (forall file, currentFile s = Some file ->
            postDescription env file text = false) ->
      saveDescription env text s = s).
Proof.
  split; [|split].
  - unfold deleteSelectedItem. intros [H|[H|H]].
    + now rewrite H.
    + rewrite H. now destruct (selectedItem s).
    + destruct (selectedItem s) as [sel|]; [|reflexivity].
      rewrite (H sel eq_refl). now destruct confirmed.
  - unfold createFolder. intros [H|H].
    + now rewrite H.
    + rewrite H. now destruct (negb (Js.truthy text)).
  - unfold saveDescription. intros [H|[H|H]].
    + now rewrite H.
    + now rewrite H.
    + destruct (currentFile s) as [file|]; [|reflexivity].
      rewrite (H file eq_refl). now destruct (negb (Js.truthy file)).
Qed.

End Delete.

Lemma deleteSelectedItem_cascade_witness :
  JsMap.keys
    (openFiles
       (deleteSelectedItem Sample.env_a Scenario.fenv_ok true Scenario.state_two_tabs))
  = ["/a/f.txt"]
  /\ selectedItem
       (deleteSelectedItem Sample.env_a Scenario.fenv_ok true Scenario.state_two_tabs)
     = None.
Proof.
  destruct (deleteSelectedItem_cascade Sample.env_a Scenario.fenv_ok
              Scenario.state_two_tabs (mkSelection "/a/sub" Folder)
              eq_refl eq_refl eq_refl)
    as [Hreturns [Hcascade _]].
  destruct (Hcascade (Hreturns eq_refl)) as [Hfiles [_ [Hselected _]]].
  split; [rewrite Hfiles; reflexivity|exact Hselected].
Defined.

(** The other way out: [f.txt] is deleted while it is the active tab, and
    the tab that would take over belongs to [v1.0 final.txt]. [switchToTab]
    throws on the class [language-0 final], [closeTab] with it, and the
    handler ends in its [catch]: the tab of [f.txt] is closed and the other
    one is active, but [f.txt] is still selected and its folder was not
    reloaded. *)
Example deleteSelectedItem_aborts :
  let s' :=
    deleteSelectedItem Sample.env_a Scenario.fenv_ok true Scenario.state_spaced_name in
  threw (closeTab "/a/f.txt" Scenario.state_spaced_name) = true
  /\ JsMap.keys (openFiles s') = ["/a/v1.0 final.txt"]
  /\ activeTab s' = Some "/a/v1.0 final.txt"
  /\ selectedItem s' = Some (mkSelection "/a/f.txt" File)
  /\ folderCache s' = folderCache Scenario.state_spaced_name.
Proof. vm_compute. repeat split. Qed.

(** ** Expanding and collapsing a folder *)

Section Toggle.

Implicit Types s : FileManager.

Lemma set_add_fresh (e : JsSet) x : JsSet.has e x = false -> JsSet.add e x = e ++ [x].
Proof. unfold JsSet.add. now intros ->. Qed.

Lemma set_has_snoc (e : JsSet) x : JsSet.has (e ++ [x]) x = true.
Proof.
  unfold JsSet.has. rewrite existsb_app. simpl.
  now rewrite String.eqb_refl, orb_true_r.
Qed.

Lemma set_delete_snoc (e : JsSet) x :
  JsSet.has e x = false -> JsSet.delete (e ++ [x]) x = e.
Proof.
  intros H. unfold JsSet.delete. rewrite List.filter_app. simpl.
  rewrite String.eqb_refl. simpl. rewrite app_nil_r.
  apply filter_absent. intros Hin.
  assert (Hx : JsSet.has e x = true).
  { apply existsb_exists. exists x. split; [exact Hin|apply String.eqb_refl]. }
  congruence.
Qed.

(** The expanding half of [toggleFolder]: the folder joins the expanded set
    and no cached listing is replaced. *)
Lemma toggleFolder_expand env folderPath s :
  JsSet.has (expandedFolders s) folderPath = false ->
  expandedFolders (toggleFolder env folderPath s) = expandedFolders s ++ [folderPath]
  /\ keepsCached (folderCache s) (folderCache (toggleFolder env folderPath s)).
Proof.
  intros Hnot. unfold toggleFolder. rewrite Hnot. simpl negb. cbv iota.
  rewrite set_add_fresh by exact Hnot.
  destruct (Dom.queryFolder folderPath (fileTree s)) as [[h kids]|];
    [|split; [reflexivity|apply keepsCached_refl]].
  match goal with
  | |- context [if ?b then _ else _] => destruct b
  end; [split; [reflexivity|apply keepsCached_refl]|].
  destruct (h_hasChildren h); [|split; [reflexivity|apply keepsCached_refl]].
  match goal with
  | |- context [loadFolderChildren ?e ?p ?c ?l ?s0] =>
      pose proof (loadFolderChildren_keeps e p c l s0) as Hkeep;
      destruct (loadFolderChildren_shape e p c l s0) as [T [C [Heq _]]]
  end.
  split; [|exact Hkeep]. now rewrite Heq.
Qed.

(** The collapsing half: the folder leaves the expanded set, its header is
    marked, and that is all. *)
Lemma toggleFolder_collapse env folderPath s :
  JsSet.has (expandedFolders s) folderPath = true ->
  exists T,
    toggleFolder env folderPath s
    = with_fileTree T
        (with_expandedFolders (JsSet.delete (expandedFolders s) folderPath) s).
Proof.
  intros Hin. unfold toggleFolder. rewrite Hin. simpl negb. cbv iota.
  destruct (Dom.queryFolder folderPath (fileTree s)) as [[h kids]|].
  - eexists. reflexivity.
  - exists (fileTree s). reflexivity.
Qed.

(** [loadFolderChildren] writes into the container and leaves the header
    above it as it is. *)
Lemma loadFolderChildren_header env folderPath container level s h kids :
  Dom.queryFolder container (fileTree s) = Some (h, kids) ->
  exists kids',
    Dom.queryFolder container
      (fileTree (loadFolderChildren env folderPath (Some container) level s))
    = Some (h, kids').
Proof.
  intros Hquery. unfold loadFolderChildren, loadFolderChildren_begin.
  destruct (JsMap.has (folderCache s) (normalizePath folderPath)).
  - unfold renderChildrenFromCache. cbn [fileTree with_fileTree].
    eexists. now apply (queryFolder_setContainer container _ _ h kids).
  - unfold loadFolderChildren_resume, renderChildrenFromCache.
    apply queryFolder_loading in Hquery.
    destruct (getTree env (Some (normalizePath folderPath)));
      cbn [fileTree with_fileTree with_folderCache]; eexists;
      apply (queryFolder_setContainer container _ _ h _ Hquery).
Qed.

Lemma toggleFolder_expand_header env folderPath s h kids :
  JsSet.has (expandedFolders s) folderPath = false ->
  Dom.queryFolder folderPath (fileTree s) = Some (h, kids) ->
  exists kids',
    Dom.queryFolder folderPath (fileTree (toggleFolder env folderPath s))
    = Some (mkHeader (h_path h) (h_hasChildren h) true (h_level h), kids').
Proof.
  intros Hnot Hquery. unfold toggleFolder. rewrite Hnot, Hquery.
  simpl negb. cbv iota.
  pose proof (queryFolder_setExpandedAttr folderPath true _ h kids Hquery) as Hattr.
  match goal with
  | |- context [if ?b then _ else _] => destruct b
  end.
  - unfold renderChildrenFromCache. cbn [fileTree with_fileTree with_expandedFolders].
    eexists. apply (queryFolder_setContainer folderPath _ _ _ _ Hattr).
  - destruct (h_hasChildren h) eqn:Hc; rewrite ?Hc in Hattr.
    + eapply loadFolderChildren_header. exact Hattr.
    + eexists. exact Hattr.
Qed.

Lemma toggleFolder_collapse_header env folderPath s h kids :
  JsSet.has (expandedFolders s) folderPath = true ->
  Dom.queryFolder folderPath (fileTree s) = Some (h, kids) ->
  Dom.queryFolder folderPath (fileTree (toggleFolder env folderPath s))
  = Some (mkHeader (h_path h) (h_hasChildren h) false (h_level h), kids).
Proof.
  intros Hin Hquery. unfold toggleFolder. rewrite Hin, Hquery.
  simpl negb. cbv iota. cbn [fileTree with_fileTree with_expandedFolders].
  now apply queryFolder_setExpandedAttr.
Qed.

(** X22. Expanding a folder and collapsing it again restores the expanded set.
    What the expansion has loaded stays in the cache, no listing that was
    cached before is replaced, and the collapse sends no request. On the
    page the header is marked expanded and then collapsed, and the collapse
    leaves in the container what the expansion has put there. *)
Theorem toggle_expand_collapse env env' folderPath s
    (Hcollapsed : JsSet.has (expandedFolders s) folderPath = false) :
  let s1 := toggleFolder env folderPath s in
  let s2 := toggleFolder env' folderPath s1 in
  expandedFolders s2 = expandedFolders s
  /\ folderCache s2 = folderCache s1
  /\ keepsCached (folderCache s) (folderCache s2)
  /\ s2 = toggleFolder env folderPath s1
  /\ (forall h kids,
        Dom.queryFolder folderPath (fileTree s) = Some (h, kids) ->
        exists kids',
          Dom.queryFolder folderPath (fileTree s1)
          = Some (mkHeader (h_path h) (h_hasChildren h) true (h_level h), kids')
          /\ Dom.queryFolder folderPath (fileTree s2)
             = Some (mkHeader (h_path h) (h_hasChildren h) false (h_level h), kids')).
Proof.
  intros s1 s2.
  destruct (toggleFolder_expand env folderPath s Hcollapsed) as [Hexp Hkeep].
  fold s1 in Hexp, Hkeep.
  assert (Hin : JsSet.has (expandedFolders s1) folderPath = true).
  { rewrite Hexp. apply set_has_snoc. }
  destruct (toggleFolder_collapse env' folderPath s1 Hin) as [T HT].
  fold s2 in HT.
  assert (Hcache : folderCache s2 = folderCache s1) by now rewrite HT.
  split; [|split; [exact Hcache|split; [|split]]].
  - rewrite HT. simpl. rewrite Hexp. now apply set_delete_snoc.
  - now rewrite Hcache.
  - subst s2. unfold toggleFolder. now rewrite Hin.
  - intros h kids Hquery.
    destruct (toggleFolder_expand_header env folderPath s h kids Hcollapsed Hquery)
      as [kids' Hopen].
    fold s1 in Hopen. exists kids'. split; [exact Hopen|].
    subst s2. now rewrite (toggleFolder_collapse_header env' folderPath s1 _ kids' Hin Hopen).
Qed.

(** X23. Expanding a folder whose listing is cached sends no request: the
    header is marked expanded and the container shows the cached children,
    rendered one level below the folder with the folder among the expanded
    ones; the cache does not change. *)
Theorem toggleFolder_cached env env' folderPath s children h kids
    (Hnorm : normalizePath folderPath = folderPath)
    (Hcached : JsMap.get (folderCache s) folderPath = Some children)
    (Hcollapsed : JsSet.has (expandedFolders s) folderPath = false)
    (Hheader : Dom.queryFolder folderPath (fileTree s) = Some (h, kids)) :
  let s' := toggleFolder env folderPath s in
  s' = toggleFolder env' folderPath s
  /\ folderCache s' = folderCache s
  /\ expandedFolders s' = expandedFolders s ++ [folderPath]
  /\ Dom.queryFolder folderPath (fileTree s')
     = Some (mkHeader (h_path h) (h_hasChildren h) true (h_level h),
             map (renderItem (renderFuel (folderCache s)) (folderCache s)
                    (expandedFolders s ++ [folderPath]) (S (h_level h)))
               children).
Proof.
  intros s'. subst s'.
  assert (Hhas : JsMap.has (folderCache s) folderPath = true).
  { unfold JsMap.has. now rewrite Hcached. }
  unfold toggleFolder. rewrite Hcollapsed, Hheader. simpl negb. cbv iota.
  cbn [folderCache with_fileTree with_expandedFolders]. rewrite Hhas.
  rewrite set_add_fresh by exact Hcollapsed.
  unfold renderChildrenFromCache.
  cbn [folderCache fileTree expandedFolders with_fileTree with_expandedFolders].
  rewrite Hnorm, Hcached.
  split; [reflexivity|]. split; [reflexivity|]. split; [reflexivity|].
  apply (queryFolder_setContainer folderPath _ _ _ kids).
  now apply queryFolder_setExpandedAttr.
Qed.

End Toggle.

Lemma toggle_expand_collapse_witness :
  expandedFolders
    (toggleFolder Sample.env_rename_fails "/a/sub"
       (toggleFolder Sample.env_a "/a/sub" Sample.state_a))
  = expandedFolders Sample.state_a.
Proof.
  destruct (toggle_expand_collapse Sample.env_a Sample.env_rename_fails "/a/sub"
              Sample.state_a eq_refl) as [H _].
  exact H.
Defined.

Lemma toggleFolder_cached_witness :
  Dom.queryFolder "/a/sub"
    (fileTree (toggleFolder Sample.env_rename_fails "/a/sub" Sample.state_a))
  = Some (mkHeader "/a/sub" true true 2, [FileEl "/a/sub/g.txt"]).
Proof.
  destruct (toggleFolder_cached Sample.env_rename_fails Sample.env_a "/a/sub"
              Sample.state_a [mkItem "g.txt" "/a/sub/g.txt" File None]
              (mkHeader "/a/sub" true false 2) [FileEl "/a/sub/g.txt"]
              eq_refl eq_refl eq_refl eq_refl) as [_ [_ [_ H]]].
  exact H.
Defined.

(** ** The open files across a rename *)

Section RenameTabs.

Implicit Types s : FileManager.

Lemma switchToTab_fields p s :
  openFiles (switchToTab p s) = openFiles s
  /\ fileTabs (switchToTab p s) = fileTabs s
  /\ (activeTab s = Some p -> activeTab (switchToTab p s) = Some p).
Proof.
  unfold switchToTab. destruct (negb (JsMap.has (openFiles s) p)); [now repeat split|].
  destruct (Dom.queryTab p (fileTabs s)); [|now repeat split].
  cbn [openFiles with_currentFile with_activeTab].
  destruct (JsMap.get (openFiles s) p) as [fileData|]; [|now repeat split].
  destruct (classListAccepts (languageClass (fd_name fileData))); now repeat split.
Qed.

(** The reload at the end of [confirmRename] and its [switchToTab] leave the
    open files, the tabs and the active tab as the rewrites made them. *)
Lemma confirmRename_tabState env newName s rd res :
  Js.truthy newName = true ->
  renameData s = Some rd ->
  putRename env (sel_path rd) newName = Some res ->
  let oldPath := normalizePath (sel_path rd) in
  let newPath := newPathOf res oldPath newName in
  let s' := confirmRename env newName s in
  openFiles s' = renameOpenFiles oldPath newPath newName (openFiles s)
  /\ fileTabs s' = renameTabs oldPath newPath newName (fileTabs s)
  /\ activeTab s' = renameActiveTab oldPath newPath (activeTab s).
Proof.
  intros Hname Hrd Hres oldPath newPath s'. subst s'.
  unfold confirmRename. rewrite Hname, Hrd, Hres. simpl negb. cbv iota zeta.
  fold oldPath. fold newPath.
  pose proof (tabState_reloadParent env (orRoot (getParentPath oldPath))
                (renameRewrite oldPath newPath newName s)) as Htab.
  remember (reloadParent env (orRoot (getParentPath oldPath))
              (renameRewrite oldPath newPath newName s)) as s2 eqn:Hs2.
  clear Hs2. unfold tabState in Htab.
  injection Htab as Hfiles Hactive Htabs _.
  change (openFiles (renameRewrite oldPath newPath newName s))
    with (renameOpenFiles oldPath newPath newName (openFiles s)) in Hfiles.
  change (fileTabs (renameRewrite oldPath newPath newName s))
    with (renameTabs oldPath newPath newName (fileTabs s)) in Htabs.
  change (activeTab (renameRewrite oldPath newPath newName s))
    with (renameActiveTab oldPath newPath (activeTab s)) in Hactive.
  destruct (activeTab s2) as [t|] eqn:Ht; [|now rewrite Ht].
  destruct (Js.truthy t); [|now rewrite Ht].
  destruct (switchToTab_fields t s2) as [-> [-> Ha]].
  rewrite (Ha Ht). tauto.
Qed.

Lemma renameActiveTab_rewrite oldPath newPath (active : option string) :
  Js.noDollar newPath = true ->
  oldPath <> "" ->
  renameActiveTab oldPath newPath active
  = option_map (Spec.rewrite oldPath newPath) active.
Proof.
  intros Hd Hold. destruct active as [t|]; [|reflexivity]. simpl.
  unfold Js.truthy. rewrite negb_involutive.
  destruct (String.eqb t "") eqn:Et.
  - apply String.eqb_eq in Et. subst t. rewrite rewrite_other; [reflexivity| |].
    + apply String.eqb_neq. congruence.
    + destruct (Js.startsWith "" (oldPath +:+ "/")) eqn:E; [|reflexivity].
      apply startsWith_true in E as [r Hr]. destruct oldPath; discriminate Hr.
  - destruct (String.eqb t oldPath) eqn:E1.
    { apply String.eqb_eq in E1. subst t. now rewrite rewrite_exact. }
    destruct (Js.startsWith t (oldPath +:+ "/")) eqn:E2.
    + now rewrite (replace_descendant _ _ _ Hd E2).
    + now rewrite (rewrite_other _ _ _ E1 E2).
Qed.

Lemma renameTabs_files oldPath newPath newName (tabs : list Tab) :
  Js.noDollar newPath = true ->
  map tab_file (renameTabs oldPath newPath newName tabs)
  = map (Spec.rewrite oldPath newPath) (map tab_file tabs).
Proof.
  intros Hd. unfold renameTabs. rewrite !List.map_map. apply map_ext. intros t.
  destruct (String.eqb (tab_file t) oldPath) eqn:E1.
  { apply String.eqb_eq in E1. rewrite E1. now rewrite rewrite_exact. }
  destruct (Js.startsWith (tab_file t) (oldPath +:+ "/")) eqn:E2.
  - simpl. now rewrite (replace_descendant _ _ _ Hd E2).
  - now rewrite (rewrite_other _ _ _ E1 E2).
Qed.

(** X24. After a successful rename to a path without a dollar sign that no other
    open file takes, every open file is where the rename has put it: the
    entry of the renamed path has the new name and the new path, the entries
    below it have their path rewritten, the others are untouched, all in
    their old order; the tabs and the active tab follow, and the reload of
    the parent folder changes none of this. *)
Theorem confirmRename_open_files env newName s rd res
    (Hname : Js.truthy newName = true)
    (Hrd : renameData s = Some rd)
    (Hres : putRename env (sel_path rd) newName = Some res)
    (Hdollar :
       Js.noDollar (newPathOf res (normalizePath (sel_path rd)) newName) = true)
    (Hdistinct :
       List.NoDup
         (map (Spec.rewrite (normalizePath (sel_path rd))
                 (newPathOf res (normalizePath (sel_path rd)) newName))
            (JsMap.keys (openFiles s)))) :
  let oldPath := normalizePath (sel_path rd) in
  let newPath := newPathOf res oldPath newName in
  let s' := confirmRename env newName s in
  openFiles s'
  = map (fun kv => (Spec.rewrite oldPath newPath (fst kv),
                    Spec.renamedFile oldPath newPath newName (fst kv) (snd kv)))
      (openFiles s)
  /\ map tab_file (fileTabs s')
     = map (Spec.rewrite oldPath newPath) (map tab_file (fileTabs s))
  /\ activeTab s' = option_map (Spec.rewrite oldPath newPath) (activeTab s)
  /\ (tabsInSync s -> tabsInSync s')
  /\ (activeIsOpen s -> activeIsOpen s').
Proof.
  intros oldPath newPath s'.
  destruct (confirmRename_tabState env newName s rd res Hname Hrd Hres)
    as [Hfiles [Htabs Hactive]].
  fold oldPath newPath s' in Hfiles, Htabs, Hactive.
  fold oldPath newPath in Hdollar, Hdistinct.
  rewrite (renameOpenFiles_map _ _ _ _ Hdollar Hdistinct) in Hfiles.
  rewrite renameActiveTab_rewrite in Hactive;
    [|exact Hdollar|apply normalizePath_not_empty].
  assert (Hkeys : JsMap.keys (openFiles s')
                  = map (Spec.rewrite oldPath newPath) (JsMap.keys (openFiles s))).
  { rewrite Hfiles. unfold JsMap.keys. rewrite !List.map_map. reflexivity. }
  split; [exact Hfiles|]. split.
  { rewrite Htabs. now apply renameTabs_files. }
  split; [exact Hactive|]. split.
  - intros [Hnd Hsync]. split.
    + now rewrite Hkeys.
    + rewrite Htabs, renameTabs_files, Hsync, Hkeys by exact Hdollar. reflexivity.
  - unfold activeIsOpen. rewrite Hactive.
    destruct (activeTab s) as [t|]; [|trivial]. simpl.
    intros Ht. apply has_In_keys. rewrite Hkeys. apply in_map.
    now apply has_In_keys.
Qed.

End RenameTabs.

Lemma confirmRename_open_files_witness :
  JsMap.keys
    (openFiles (confirmRename (Sample.env_renamed "documents") "documents"
                  Sample.state_docs))
  = ["/documents/readme.txt"; "/documents/sub/notes.txt"; "/other.txt"].
Proof.
  assert (Hnd : List.NoDup
                  ["/documents/readme.txt"; "/documents/sub/notes.txt"; "/other.txt"]).
  { apply List.NoDup_cons; [|apply List.NoDup_cons; [|apply List.NoDup_cons;
                                                         [|constructor]]].
    - intros [H|[H|[]]]; discriminate H.
    - intros [H|[]]. discriminate H.
    - intros []. }
  destruct (confirmRename_open_files (Sample.env_renamed "documents") "documents"
              Sample.state_docs (mkSelection "/docs" Folder) (Some "/documents")
              eq_refl eq_refl eq_refl eq_refl Hnd) as [H _].
  rewrite H. reflexivity.
Defined.

Lemma renameCache_map_witness :
  JsMap.keys (renameCache "/docs" "/documents" Sample.cache_docs)
  = ["/"; "/documents"; "/documents/sub"].
Proof.
  rewrite (renameCache_map "/docs" "/documents" Sample.cache_docs).
  - reflexivity.
  - reflexivity.
  - apply List.NoDup_cons; [|apply List.NoDup_cons; [|apply List.NoDup_cons;
                                                        [|constructor]]].
    + intros [H|[H|[]]]; discriminate H.
    + intros [H|[]]. discriminate H.
    + intros [].
Defined.

Lemma restorePaths_ancestors_first_witness :
  In "/a" ["/a"] /\ ~ In "/a" ["/a/sub"].
Proof.
  apply (restorePaths_ancestors_first "/" ["/a/sub"; "/a"] "/a" "/a/sub" ["/a"] []).
  - reflexivity.
  - now left.
  - reflexivity.
Defined.

(** ** The description store of the server *)

Section ServerDescriptions.

Implicit Types file : Server.DescriptionsFile.

(** X25. For paths as the client sends them, which start with a slash: a
    description that is stored is the one read back, a description that is
    empty or missing is read back as the empty one, and the description of
    no other path changes. *)
Theorem description_round_trip p q description file
    (Hp : slashRooted p = true) (Hq : slashRooted q = true) :
  let file' := snd (Server.setDescription true p description file) in
  Server.getDescription p file'
  = match description with Some text => text | None => "" end
  /\ (q <> p -> Server.getDescription q file' = Server.getDescription q file).
Proof.
  unfold Server.setDescription, Server.getDescription. simpl. split.
  - destruct description as [text|].
    + destruct (Js.truthy text) eqn:E.
      * now rewrite lookup_insert_eq, E.
      * rewrite lookup_delete_eq. unfold Js.truthy in E.
        apply negb_false_iff, String.eqb_eq in E. now subst text.
    + now rewrite lookup_delete_eq.
  - intros Hne. destruct description as [text|].
    + destruct (Js.truthy text).
      * now rewrite lookup_insert_ne.
      * now rewrite lookup_delete_ne.
    + now rewrite lookup_delete_ne.
Qed.


(** X27. Renaming an item to the name it has keeps its path and loses its
    description: the route stores the text under the new key and then
    deletes the old key, which is the same one. *)
Theorem rename_same_name_drops_description oldPath file text
    (Hstored : Server.readDescriptions file !! oldPath = Some text)
    (Htext : Js.truthy text = true) :
  let name := List.last (Js.split oldPath) "" in
  let answer := Server.rename true true oldPath name file in
  Server.renamedPath oldPath name = oldPath
  /\ fst answer = Some oldPath
  /\ Server.getDescription oldPath file = text
  /\ Server.getDescription oldPath (snd answer) = "".
Proof.
  intros name answer.
  assert (Hsame : Server.renamedPath oldPath name = oldPath).
  { unfold Server.renamedPath. subst name.
    rewrite <- app_removelast_last by apply split_not_nil. apply join_split. }
  split; [exact Hsame|]. subst answer.
  unfold Server.rename, Server.getDescription. simpl.
  rewrite Hstored, Htext, Hsame. simpl. split; [reflexivity|].
  split; [reflexivity|]. now rewrite lookup_delete_eq.
Qed.

End ServerDescriptions.

Lemma description_round_trip_witness :
  Server.getDescription "/docs"
    (snd (Server.setDescription true "/docs" (Some "handbooks") Sample.descriptions_docs))
  = "handbooks"
  /\ Server.getDescription "/docs/readme.txt"
       (snd (Server.setDescription true "/docs" (Some "handbooks")
               Sample.descriptions_docs))
     = "read me first".
Proof.
  destruct (description_round_trip "/docs" "/docs/readme.txt" (Some "handbooks")
              Sample.descriptions_docs eq_refl eq_refl) as [Hp Hq].
  split; [exact Hp|]. rewrite Hq; [|discriminate]. vm_compute. reflexivity.
Defined.


Lemma rename_same_name_drops_description_witness :
  Server.getDescription "/docs"
    (snd (Server.rename true true "/docs" "docs" Sample.descriptions_docs))
  = "".
Proof.
  destruct (rename_same_name_drops_description "/docs" Sample.descriptions_docs
              "manuals") as [_ [_ [_ H]]].
  - vm_compute. reflexivity.
  - reflexivity.
  - exact H.
Defined.

(** ** Normal forms on the page and in the cache *)

Section NormalForms.

Implicit Types s : FileManager.

(** Whatever the cache holds, what [renderFolder] and [renderFile] put on
    the page carries normalised paths. *)
Lemma renderItem_paths fuel cache expanded level it :
  Forall (fun q => normalizePath q = q)
    (Page.pathsEl (renderItem fuel cache expanded level it)).
Proof.
  revert level it. induction fuel as [|fuel IH]; intros level it; simpl;
    destruct (item_type it); simpl.
  - constructor; [apply normalizePath_idempotent|constructor].
  - constructor; [apply normalizePath_idempotent|].
    now destruct (JsMap.get cache (normalizePath (item_path it))) as [[|c cs]|].
  - constructor; [apply normalizePath_idempotent|constructor].
  - constructor; [apply normalizePath_idempotent|].
    destruct (JsMap.get cache (normalizePath (item_path it))) as [[|c cs]|];
      [constructor| |constructor].
    simpl. apply Forall_app. split; [apply IH|].
    induction cs as [|x cs IHcs]; [constructor|].
    simpl. apply Forall_app. split; [apply IH|exact IHcs].
Qed.

Lemma rendered_paths fuel cache expanded level (l : list Item) :
  pageNormalized (map (renderItem fuel cache expanded level) l).
Proof.
  unfold pageNormalized, Page.paths. induction l as [|x l IH]; [constructor|].
  simpl. apply Forall_app. split; [apply renderItem_paths|exact IH].
Qed.

Lemma cacheNormalized_set c k (v : list Item) :
  cacheNormalized c ->
  normalizePath k = k ->
  Forall (fun item => normalizePath (item_path item) = item_path item) v ->
  cacheNormalized (JsMap.set c k v).
Proof.
  unfold cacheNormalized. intros Hc Hk Hv.
  induction c as [|[k' v'] c IH]; simpl.
  - constructor; [now split|constructor].
  - apply Forall_cons in Hc as [Hkv Hc].
    destruct (String.eqb k' k); constructor; auto.
Qed.

Lemma cacheNormalized_invalidate p c :
  cacheNormalized c -> cacheNormalized (invalidateLoadedFolders p c).
Proof.
  unfold cacheNormalized, invalidateLoadedFolders. intros Hc.
  destruct (String.eqb (normalizePath p) "/"); [constructor|].
  induction c as [|kv c IH]; [constructor|]. simpl.
  apply Forall_cons in Hc as [Hkv Hc].
  match goal with
  | |- context [if ?b then _ else _] => destruct b
  end; [constructor|]; auto.
Qed.

Lemma closeTab_tree p s :
  fileTree (closeTab p s) = fileTree s /\ folderCache (closeTab p s) = folderCache s.
Proof.
  rewrite closeTab_eq. destruct (negb (JsMap.has (openFiles s) p)); [now split|].
  simpl. destruct (activeTab s) as [active|]; [|now split].
  destruct (String.eqb active p); [|now split].
  destruct (lastTabFile (Page.removeTab p (fileTabs s))) as [file|]; [|now split].
  now destruct (JsMap.has (JsMap.delete (openFiles s) p) file).
Qed.

Lemma nf_refl s : keepsNormalForms s s.
Proof. intros H. exact H. Qed.

Lemma nf_trans s1 s2 s3 :
  keepsNormalForms s1 s2 -> keepsNormalForms s2 s3 -> keepsNormalForms s1 s3.
Proof. unfold keepsNormalForms. tauto. Qed.

Lemma nf_render p c level s : keepsNormalForms s (renderChildrenFromCache p c level s).
Proof.
  intros [Hpage Hcache]. split; [|exact Hcache].
  unfold renderChildrenFromCache. cbn [fileTree with_fileTree].
  unfold Dom.setContainer.
  apply updateFolder_paths; [|exact Hpage].
  intros h kids Hh _. split; [exact Hh|]. cbn [fst snd]. apply rendered_paths.
Qed.

Lemma nf_loading c s :
  keepsNormalForms s
    (with_fileTree
       (Dom.updateFolder c
          (fun h kids =>
             (h, match kids with [] => [Placeholder "loading"] | _ => kids end))
          (fileTree s))
       s).
Proof.
  intros [Hpage Hcache]. split; [|exact Hcache]. simpl.
  apply updateFolder_paths; [|exact Hpage].
  intros h kids Hh Hkids. split; [exact Hh|]. simpl.
  destruct kids; [constructor|exact Hkids].
Qed.

Lemma nf_error c s :
  keepsNormalForms s
    (with_fileTree (Dom.setContainer c [Placeholder "error"] (fileTree s)) s).
Proof.
  intros [Hpage Hcache]. split; [|exact Hcache]. simpl. unfold Dom.setContainer.
  apply updateFolder_paths; [|exact Hpage].
  intros h kids Hh _. split; [exact Hh|constructor].
Qed.

Lemma nf_attr p b s :
  keepsNormalForms s (with_fileTree (Dom.setExpandedAttr p b (fileTree s)) s).
Proof.
  intros [Hpage Hcache]. split; [|exact Hcache]. simpl. unfold Dom.setExpandedAttr.
  apply updateFolder_paths; [|exact Hpage].
  intros h kids Hh Hkids. now split.
Qed.

Lemma nf_pending P s : keepsNormalForms s (with_pending P s).
Proof. intros H. exact H. Qed.

Lemma nf_expanded E s : keepsNormalForms s (with_expandedFolders E s).
Proof. intros H. exact H. Qed.

Lemma nf_selection x s : keepsNormalForms s (with_selectedItem x s).
Proof. intros H. exact H. Qed.

Lemma nf_currentPath x s : keepsNormalForms s (with_currentPath x s).
Proof. intros H. exact H. Qed.

Lemma nf_descriptions d s : keepsNormalForms s (with_descriptions d s).
Proof. intros H. exact H. Qed.

Lemma nf_openFiles x s : keepsNormalForms s (with_openFiles x s).
Proof. intros H. exact H. Qed.

Lemma nf_cache_any p l s :
  keepsNormalForms s
    (with_folderCache
       (JsMap.set (folderCache s) (normalizePath p) (normalizeChildren l)) s).
Proof.
  intros [Hpage Hcache]. split; [exact Hpage|]. simpl.
  apply cacheNormalized_set;
    [exact Hcache|apply normalizePath_idempotent|apply normalizeChildren_normalized].
Qed.

Lemma nf_cache_new p l s :
  JsMap.has (folderCache s) (normalizePath p) = false ->
  keepsNormalForms s
    (with_folderCache
       (JsMap.set (folderCache s) (normalizePath p) (normalizeChildren l)) s).
Proof. intros _. apply nf_cache_any. Qed.

Lemma nf_invalidate p s :
  keepsNormalForms s
    (with_folderCache (invalidateLoadedFolders p (folderCache s)) s).
Proof.
  intros [Hpage Hcache]. split; [exact Hpage|]. simpl.
  now apply cacheNormalized_invalidate.
Qed.

Lemma nf_failed s : keepsNormalForms s (with_fileTree [Placeholder "error"] s).
Proof. intros [_ Hcache]. split; [constructor|exact Hcache]. Qed.

Lemma nf_closeTab p s : keepsNormalForms s (closeTab p s).
Proof.
  unfold keepsNormalForms, normalForms.
  destruct (closeTab_tree p s) as [-> ->]. tauto.
Qed.

(** [renderTree] builds the page anew, from normalised paths. *)
Lemma renderTree_normalForms node s :
  cacheNormalized (folderCache s) -> normalForms (renderTree node s).
Proof.
  intros Hcache. unfold renderTree.
  destruct (tree_type node).
  { split; [|exact Hcache]. simpl. constructor;
      [apply normalizePath_idempotent|constructor]. }
  assert (Hhead : forall h kids,
            h_path h = normalizePath (tree_path node) ->
            pageNormalized kids -> pageNormalized [FolderEl h kids]).
  { intros h kids Hh Hkids. unfold pageNormalized, Page.paths in *. simpl.
    rewrite app_nil_r. constructor; [|exact Hkids].
    rewrite Hh. apply normalizePath_idempotent. }
  destruct (tree_children node) as [[|c cs]|];
    try (destruct (JsMap.get (folderCache s) (normalizePath (tree_path node)))
           as [[|c' cs']|]);
    (split; [apply Hhead; [reflexivity|try apply rendered_paths; constructor]|]);
    try exact Hcache.
  all: cbn [folderCache with_fileTree with_folderCache].
  all: apply cacheNormalized_set;
    [exact Hcache|apply normalizePath_idempotent|].
  all: apply (normalizeChildren_normalized (c :: cs)).
Qed.

Lemma nf_root tree s :
  keepsNormalForms s
    (renderTree
       (mkTree (tree_name tree) (normalizePath (tree_path tree)) (tree_type tree)
          (tree_hasChildren tree) (tree_children tree))
       (match tree_children tree with
        | Some children =>
            with_folderCache
              (JsMap.set (folderCache s) (normalizePath (tree_path tree))
                 (normalizeChildren children))
              s
        | None => s
        end)).
Proof.
  intros [_ Hcache]. apply renderTree_normalForms.
  destruct (tree_children tree) as [children|]; [|exact Hcache].
  simpl. apply cacheNormalized_set;
    [exact Hcache|apply normalizePath_idempotent|apply normalizeChildren_normalized].
Qed.

Ltac nf_step :=
  first
    [ exact nf_refl | exact nf_trans | exact nf_render | exact nf_loading
    | exact nf_error | exact nf_attr | exact nf_pending | exact nf_expanded
    | exact nf_selection | exact nf_currentPath | exact nf_descriptions
    | exact nf_openFiles | exact nf_cache_any | exact nf_cache_new
    | exact nf_invalidate | exact nf_failed | exact nf_closeTab | exact nf_root ].

(** X28. Every path on the page and in the cache is normalised, and stays so
    through a reload of the tree, through the expansion or the collapse of a
    folder, the creation of a folder, an upload, a deletion, the saving of a
    description, and while the loads that these have started come in. *)
Theorem normal_forms_kept env fenv path name confirmed text s
    (Hs : normalForms s) :
  normalForms (loadTree env s)
  /\ normalForms (toggleFolder env path s)
  /\ normalForms (createFolder env fenv name s)
  /\ normalForms (uploadFiles env s)
  /\ normalForms (deleteSelectedItem env fenv confirmed s)
  /\ normalForms (saveDescription env text s)
  /\ (forall s', settles_star env s s' -> normalForms s').
Proof.
  split; [|split; [|split; [|split; [|split; [|split]]]]].
  - revert Hs. apply (R_loadTree keepsNormalForms); nf_step.
  - revert Hs. apply (R_toggleFolder keepsNormalForms); nf_step.
  - revert Hs. apply (R_createFolder keepsNormalForms); nf_step.
  - revert Hs. apply (R_reloadParent keepsNormalForms); nf_step.
  - revert Hs. apply (R_deleteSelectedItem keepsNormalForms); nf_step.
  - revert Hs. apply (R_saveDescription keepsNormalForms); nf_step.
  - intros s' Hstar. revert Hs.
    apply (R_settles_star keepsNormalForms) with (env := env); try nf_step.
    exact Hstar.
Qed.

End NormalForms.

Lemma normal_forms_kept_witness :
  normalForms (loadTree Scenario.env_sub_emptied Sample.state_a).
Proof.
  assert (Hs : normalForms Sample.state_a).
  { split.
    - unfold pageNormalized. vm_compute Page.paths. repeat constructor.
    - unfold cacheNormalized. vm_compute folderCache. repeat constructor. }
  destruct (normal_forms_kept Scenario.env_sub_emptied Scenario.fenv_ok "/a" "new" true
              "text" Sample.state_a Hs) as [H _].
  exact H.
Defined.

(** ** The selection and the current folder *)

Section Selection.

Implicit Types s : FileManager.


End Selection.


(** ** The cache across the reload of a folder *)

Section ReloadFrame.

Implicit Types s : FileManager.




End ReloadFrame.

